(** * The Echo server: post storage and keyset pagination

    A shallow embedding of [src/server/db/posts.ts] (the post and response
    store, the six keyset orderings of [getPosts], [createResponse],
    [deletePost]) and of the read-side mappers of the GraphQL resolvers
    ([mapPostToSummary], [mapPostToFull]), with the properties of the
    specification stated and settled against it.

    Conventions.
    - A table is the list of its rows, in insertion order.
    - PostgreSQL [integer] columns and JavaScript numbers that hold integers
      are [Z]; a JavaScript number that may be [NaN] (the result of
      [parseInt]) and a [Date] that may be invalid (the result of
      [new Date(s)]) are [option Z], [None] standing for [NaN] and for
      [Invalid Date].
    - Timestamps are milliseconds since the epoch, the precision of a
      JavaScript [Date].
    - [undefined] and [null] are [None]. *)

From Stdlib Require Import ZArith List Bool Ascii String Lia.
From Stdlib Require Import Sorting.Sorted Sorting.Permutation.
From Stdlib Require Import Numbers.DecimalString Numbers.DecimalPos.
Import ListNotations.

Local Open Scope string_scope.
Local Open Scope Z_scope.

(* ================================================================== *)
(** * JavaScript primitives used by the engine *)

Module JS.

(** Truthiness of the values the code tests with [if (x)] or [x || y]. *)
Definition truthy_string (s : string) : bool :=
  match s with EmptyString => false | String _ _ => true end.

Definition truthy_number (n : Z) : bool := negb (Z.eqb n 0).

Definition truthy_opt_string (o : option string) : bool :=
  match o with Some s => truthy_string s | None => false end.

Definition truthy_opt_number (o : option Z) : bool :=
  match o with Some n => truthy_number n | None => false end.

(** [o || null] on a nullable number and on a nullable string. *)
Definition number_or_null (o : option Z) : option Z :=
  if truthy_opt_number o then o else None.

Definition string_or_null (o : option string) : option string :=
  if truthy_opt_string o then o else None.

(** [s.split(sep)] for a one-character separator: every occurrence
    splits, and the empty string gives one empty piece. *)
Fixpoint split (sep : ascii) (s : string) : list string :=
  match s with
  | EmptyString => [EmptyString]
  | String c s' =>
      if Ascii.eqb c sep then EmptyString :: split sep s'
      else match split sep s' with
           | [] => [String c EmptyString]
           | piece :: pieces => String c piece :: pieces
           end
  end.

(** White space skipped by [parseInt] (the ASCII part of it). *)
Definition is_white_space (c : ascii) : bool :=
  let n := nat_of_ascii c in
  orb (Nat.eqb n 32) (andb (Nat.leb 9 n) (Nat.leb n 13)).

Fixpoint skip_white_space (s : string) : string :=
  match s with
  | String c s' => if is_white_space c then skip_white_space s' else s
  | EmptyString => EmptyString
  end.

Definition digit_of (c : ascii) : option Z :=
  let n := nat_of_ascii c in
  if andb (Nat.leb 48 n) (Nat.leb n 57) then Some (Z.of_nat n - 48) else None.

(** The longest prefix of decimal digits, read left to right. *)
Fixpoint parse_digits (acc : Z) (s : string) : Z :=
  match s with
  | String c s' =>
      match digit_of c with
      | Some d => parse_digits (acc * 10 + d) s'
      | None => acc
      end
  | EmptyString => acc
  end.

Definition starts_with_digit (s : string) : bool :=
  match s with
  | String c _ => match digit_of c with Some _ => true | None => false end
  | EmptyString => false
  end.

(** [parseInt(s, 10)]: leading white space, an optional sign, then the
    longest run of digits; [NaN] when there is no digit. What follows
    the digits is ignored. *)
Definition parseInt (s : string) : option Z :=
  let s1 := skip_white_space s in
  let '(sign, s2) :=
    match s1 with
    | String "-"%char r => (-1, r)
    | String "+"%char r => (1, r)
    | _ => (1, s1)
    end in
  if starts_with_digit s2 then Some (sign * parse_digits 0 s2) else None.

(** [String(n)] for an integer [n], as a template literal prints it. *)
Definition string_of_Z (n : Z) : string :=
  NilZero.string_of_int (Z.to_int n).

Definition digit_char (d : Z) : ascii := ascii_of_nat (48 + Z.to_nat (d mod 10)).

Definition pad2 (n : Z) : string :=
  String (digit_char (n / 10)) (String (digit_char n) EmptyString).

Definition pad3 (n : Z) : string :=
  String (digit_char (n / 100)) (pad2 n).

Definition pad4 (n : Z) : string :=
  String (digit_char (n / 1000)) (pad3 n).

Definition pad6 (n : Z) : string :=
  String (digit_char (n / 100000)) (String (digit_char (n / 10000)) (pad4 n)).

(** Year, month and day of a day number counted from 1970-01-01, in the
    proleptic Gregorian calendar. *)
Definition civil_of_days (days : Z) : Z * Z * Z :=
  let z := days + 719468 in
  let era := z / 146097 in
  let doe := z - era * 146097 in
  let yoe := (doe - doe / 1460 + doe / 36524 - doe / 146096) / 365 in
  let doy := doe - (365 * yoe + yoe / 4 - yoe / 100) in
  let mp := (5 * doy + 2) / 153 in
  let d := doy - (153 * mp + 2) / 5 + 1 in
  let m := if mp <? 10 then mp + 3 else mp - 9 in
  let y := yoe + era * 400 + (if m <=? 2 then 1 else 0) in
  (y, m, d).

Definition year_string (y : Z) : string :=
  if andb (0 <=? y) (y <=? 9999) then pad4 y
  else if y <? 0 then String "-"%char (pad6 (- y))
  else String "+"%char (pad6 y).

(** [d.toISOString()] of a valid date: [YYYY-MM-DDTHH:mm:ss.sssZ]. *)
Definition toISOString (ms : Z) : string :=
  let days := ms / 86400000 in
  let rest := ms mod 86400000 in
  let '(y, m, d) := civil_of_days days in
  year_string y ++ "-" ++ pad2 m ++ "-" ++ pad2 d ++ "T"
    ++ pad2 (rest / 3600000) ++ ":" ++ pad2 (rest / 60000 mod 60) ++ ":"
    ++ pad2 (rest / 1000 mod 60) ++ "." ++ pad3 (rest mod 1000) ++ "Z".

End JS.

(* ================================================================== *)
(** * Data model ([src/server/db/schema.ts]) *)

Inductive PostType := POST | RESPONSE.
Inductive PostStatus := AWAITING_PROCESSING | PROCESSED | DELETED.

Inductive SortBy :=
  | NEWEST | OLDEST
  | MOST_SAVED | LEAST_SAVED
  | MOST_RESPONSES | LEAST_RESPONSES.

Definition PostType_eqb (a b : PostType) : bool :=
  match a, b with POST, POST | RESPONSE, RESPONSE => true | _, _ => false end.

Definition PostStatus_eqb (a b : PostStatus) : bool :=
  match a, b with
  | AWAITING_PROCESSING, AWAITING_PROCESSING | PROCESSED, PROCESSED
  | DELETED, DELETED => true
  | _, _ => false
  end.

(** A row of the [posts] table. *)
Module Post.
Record t := mk {
  id : Z;
  userId : Z;
  type : PostType;
  parentId : option Z;
  audioUrl : string;
  audioKey : string;
  duration : Z;
  tags : list string;
  waveformUrl : option string;
  responseCount : Z;
  bookmarkCount : Z;
  city : string;
  active : bool;
  status : PostStatus;
  createdAt : Z;
  updatedAt : Z
}.

(** The [.set({...})] clauses of the updates the code issues. *)
Definition set_active (b : bool) (now : Z) (p : t) : t :=
  mk (id p) (userId p) (type p) (parentId p) (audioUrl p) (audioKey p)
     (duration p) (tags p) (waveformUrl p) (responseCount p)
     (bookmarkCount p) (city p) b (status p) (createdAt p) now.

Definition set_responseCount (n : Z) (now : Z) (p : t) : t :=
  mk (id p) (userId p) (type p) (parentId p) (audioUrl p) (audioKey p)
     (duration p) (tags p) (waveformUrl p) n
     (bookmarkCount p) (city p) (active p) (status p) (createdAt p) now.

Definition set_bookmarkCount (n : Z) (p : t) : t :=
  mk (id p) (userId p) (type p) (parentId p) (audioUrl p) (audioKey p)
     (duration p) (tags p) (waveformUrl p) (responseCount p)
     n (city p) (active p) (status p) (createdAt p) (updatedAt p).

Definition set_waveformUrl (u : string) (now : Z) (p : t) : t :=
  mk (id p) (userId p) (type p) (parentId p) (audioUrl p) (audioKey p)
     (duration p) (tags p) (Some u) (responseCount p)
     (bookmarkCount p) (city p) (active p) (status p) (createdAt p) now.

Definition set_status (st : PostStatus) (now : Z) (p : t) : t :=
  mk (id p) (userId p) (type p) (parentId p) (audioUrl p) (audioKey p)
     (duration p) (tags p) (waveformUrl p) (responseCount p)
     (bookmarkCount p) (city p) (active p) st (createdAt p) now.
End Post.
Abbreviation Post := Post.t.

(** The values an insert into [posts] supplies ([NewPost]); the other
    columns take their defaults. *)
Module NewPost.
Record t := mk {
  userId : Z;
  type : PostType;
  parentId : option Z;
  audioUrl : string;
  audioKey : string;
  duration : Z;
  tags : list string;
  city : string
}.
End NewPost.
Abbreviation NewPost := NewPost.t.

(** The columns of [user_profiles] that the post queries select. *)
Module Author.
Record t := mk {
  id : Z;
  userId : Z;
  username : string;
  city : string
}.
End Author.
Abbreviation Author := Author.t.

Module Bookmark.
Record t := mk { userId : Z; postId : Z }.
End Bookmark.
Abbreviation Bookmark := Bookmark.t.

(** A notification row: the recipient and the [data] object
    [{type: "RESPONSE", postId, responseId, responderId}]. *)
Module Notification.
Record t := mk {
  userId : Z;
  postId : Z;
  responseId : Z;
  responderId : Z
}.
End Notification.
Abbreviation Notification := Notification.t.

(** The store: the four tables the post core touches, and the sequence
    behind the [serial] primary key of [posts]. *)
Module Db.
Record t := mk {
  posts : list Post;
  userProfiles : list Author;
  bookmarks : list Bookmark;
  notifications : list Notification;
  posts_id_seq : Z
}.

Definition with_posts (ps : list Post) (db : t) : t :=
  mk ps (userProfiles db) (bookmarks db) (notifications db) (posts_id_seq db).

Definition with_bookmarks (bs : list Bookmark) (db : t) : t :=
  mk (posts db) (userProfiles db) bs (notifications db) (posts_id_seq db).

Definition with_notifications (ns : list Notification) (db : t) : t :=
  mk (posts db) (userProfiles db) (bookmarks db) ns (posts_id_seq db).

Definition with_posts_id_seq (n : Z) (db : t) : t :=
  mk (posts db) (userProfiles db) (bookmarks db) (notifications db) n.

Definition empty : t := mk [] [] [] [] 1.
End Db.
Abbreviation Db := Db.t.

(** What a call produces: a value, or a thrown exception. [Error m] is
    [new Error(m)] thrown by the code itself; [StoreRejected] is a statement
    the store refuses. *)
Inductive Exn := Error (message : string) | StoreRejected.

Inductive Outcome (A : Type) := Ok (a : A) | Throw (e : Exn).
Arguments Ok {A} a.
Arguments Throw {A} e.

(* ================================================================== *)
(** * The queries the engine issues *)

Module Sql.

Inductive Column := posts_id | posts_createdAt | posts_bookmarkCount | posts_responseCount.

Definition value (c : Column) (p : Post) : Z :=
  match c with
  | posts_id => Post.id p
  | posts_createdAt => Post.createdAt p
  | posts_bookmarkCount => Post.bookmarkCount p
  | posts_responseCount => Post.responseCount p
  end.

(** The predicates pushed on [conditions]. The two row comparisons carry
    their parameters as JavaScript computed them: [None] is a [NaN] or an
    [Invalid Date]. [tags_any tags] is the fragment
    [sql`${posts.tags} ?| ${tags}`] of line 136, with the array it
    interpolates. *)
Inductive Condition :=
  | eq_id (n : Z)
  | eq_active (b : bool)
  | eq_type (t : PostType)
  | eq_city (s : string)
  | eq_userId (n : Z)
  | eq_parentId (n : Z)
  | tags_any (ts : list string)
  | row_lt (c : Column) (v i : option Z)
  | row_gt (c : Column) (v i : option Z).

Inductive OrderTerm := asc (c : Column) | desc (c : Column).

Definition is_some {A} (o : option A) : bool :=
  match o with Some _ => true | None => false end.

(** What the store accepts. A [NaN] or an [Invalid Date] cannot be bound
    to an integer or a timestamp parameter: the statement is refused. An
    array interpolated into the [sql] template is written out as a
    parenthesised list of parameters, one per element, so the tags fragment
    reaches the store as [tags ?| ($1, ..., $n)] with one text per tag,
    where the operator wants a single [text[]] operand: the statement is
    refused as well. Tags are taken to be plain labels; a filter of one tag
    that is itself the text of an array, such as [{a,b}], is outside the
    model. *)
Definition bindable (c : Condition) : bool :=
  match c with
  | row_lt _ v i | row_gt _ v i => andb (is_some v) (is_some i)
  | tags_any _ => false
  | _ => true
  end.

(** The rows a condition keeps. A condition that is not [bindable] is
    never evaluated on a row ([select_posts] refuses the statement first);
    it keeps none. *)
Definition holds (c : Condition) (p : Post) : bool :=
  match c with
  | eq_id n => Post.id p =? n
  | eq_active b => Bool.eqb (Post.active p) b
  | eq_type t => PostType_eqb (Post.type p) t
  | eq_city s => String.eqb (Post.city p) s
  | eq_userId n => Post.userId p =? n
  | eq_parentId n =>
      match Post.parentId p with Some m => m =? n | None => false end
  | row_lt c (Some v) (Some i) =>
      orb (value c p <? v) (andb (value c p =? v) (Post.id p <? i))
  | row_gt c (Some v) (Some i) =>
      orb (v <? value c p) (andb (value c p =? v) (i <? Post.id p))
  | tags_any _ | row_lt _ _ _ | row_gt _ _ _ => false
  end.

Definition where_ (conditions : list Condition) (p : Post) : bool :=
  forallb (fun c => holds c p) conditions.

(** [ORDER BY]: lexicographic in the listed terms. *)
Fixpoint order_leb (orderBy : list OrderTerm) (p q : Post) : bool :=
  match orderBy with
  | [] => true
  | asc c :: rest =>
      if value c p <? value c q then true
      else if value c p =? value c q then order_leb rest p q
      else false
  | desc c :: rest =>
      if value c q <? value c p then true
      else if value c p =? value c q then order_leb rest p q
      else false
  end.

Section Sort.
Context {A : Type} (leb : A -> A -> bool).

Fixpoint insert (x : A) (l : list A) : list A :=
  match l with
  | [] => [x]
  | y :: l' => if leb x y then x :: l else y :: insert x l'
  end.

Fixpoint sort (l : list A) : list A :=
  match l with
  | [] => []
  | x :: l' => insert x (sort l')
  end.
End Sort.

(** A selected row: the post and the columns of its author's profile. *)
Record Row := mkRow { post : Post; author : Author }.

(** [.from(posts).innerJoin(userProfiles, eq(posts.userId,
    userProfiles.userId))] *)
Definition posts_join_userProfiles (db : Db) : list Row :=
  flat_map
    (fun p =>
       map (mkRow p)
         (filter (fun a => Post.userId p =? Author.userId a)
            (Db.userProfiles db)))
    (Db.posts db).

(** [select ... where and(...conditions) orderBy(...orderBy) limit(n)] on
    parameters that bind. *)
Definition rows (db : Db) (conditions : list Condition)
  (orderBy : list OrderTerm) (limit : nat) : list Row :=
  firstn limit
    (sort (fun r1 r2 => order_leb orderBy (post r1) (post r2))
       (filter (fun r => where_ conditions (post r))
          (posts_join_userProfiles db))).

Definition select_posts (db : Db) (conditions : list Condition)
  (orderBy : list OrderTerm) (limit : nat) : Outcome (list Row) :=
  if forallb bindable conditions then Ok (rows db conditions orderBy limit)
  else Throw StoreRejected.

(** [select ... from posts where ... limit 1], without the join. *)
Definition select_post (db : Db) (conditions : list Condition) : option Post :=
  hd_error (filter (where_ conditions) (Db.posts db)).

End Sql.

(* ================================================================== *)
(** * Reads ([src/server/db/posts.ts]) *)

(** [PostWithAuthor]: the post's columns (the spread [...post]), the
    author's profile columns and the viewer's bookmark flag. *)
Module PostWithAuthor.
Record t := mk {
  post : Post;
  author : Author;
  isBookmarked : bool
}.
End PostWithAuthor.
Abbreviation PostWithAuthor := PostWithAuthor.t.

Module GetPostsOptions.
Record t := mk {
  city : option string;
  tags : option (list string);
  type : option PostType;
  userId : option Z;
  parentId : option Z;
  sortBy : option SortBy;
  cursor : option string;
  limit : option nat;
  viewerUserId : option Z
}.

(** [{}], the default of the [options] argument. *)
Definition none : t := mk None None None None None None None None None.

(** [{...options, cursor}] and [{...options, viewerUserId}] *)
Definition with_cursor (c : option string) (o : t) : t :=
  mk (city o) (tags o) (type o) (userId o) (parentId o) (sortBy o) c
     (limit o) (viewerUserId o).

Definition with_viewerUserId (v : option Z) (o : t) : t :=
  mk (city o) (tags o) (type o) (userId o) (parentId o) (sortBy o) (cursor o)
     (limit o) v.
End GetPostsOptions.
Abbreviation GetPostsOptions := GetPostsOptions.t.

Module GetPostsResult.
Record t := mk {
  posts : list PostWithAuthor;
  hasMore : bool;
  nextCursor : option string
}.
End GetPostsResult.
Abbreviation GetPostsResult := GetPostsResult.t.

Definition default {A} (d : A) (o : option A) : A :=
  match o with Some a => a | None => d end.

(** The viewer's bookmark of one post ([getPostById], lines 77-87). *)
Definition viewerBookmarked (db : Db) (viewerUserId : option Z) (id : Z) : bool :=
  match viewerUserId with
  | Some viewer =>
      if JS.truthy_number viewer then
        let bookmark :=
          firstn 1
            (filter
               (fun b => andb (Bookmark.userId b =? viewer)
                              (Bookmark.postId b =? id))
               (Db.bookmarks db)) in
        (0 <? List.length bookmark)%nat
      else false
  | None => false
  end.

Definition getPostById (db : Db) (id : Z) (viewerUserId : option Z)
  : option PostWithAuthor :=
  let result := Sql.rows db [Sql.eq_id id; Sql.eq_active true] [] 1 in
  match result with
  | [] => None
  | r :: _ =>
      Some (PostWithAuthor.mk (Sql.post r) (Sql.author r)
              (viewerBookmarked db viewerUserId id))
  end.

(** The sort key of each order, and the two-term [ORDER BY] with the id
    tie-break (lines 179-200). *)
Definition sortColumn (sortBy : SortBy) : Sql.Column :=
  match sortBy with
  | NEWEST | OLDEST => Sql.posts_createdAt
  | MOST_SAVED | LEAST_SAVED => Sql.posts_bookmarkCount
  | MOST_RESPONSES | LEAST_RESPONSES => Sql.posts_responseCount
  end.

Definition orderByOf (sortBy : SortBy) : list Sql.OrderTerm :=
  match sortBy with
  | OLDEST => [Sql.asc Sql.posts_createdAt; Sql.asc Sql.posts_id]
  | MOST_SAVED => [Sql.desc Sql.posts_bookmarkCount; Sql.desc Sql.posts_id]
  | LEAST_SAVED => [Sql.asc Sql.posts_bookmarkCount; Sql.asc Sql.posts_id]
  | MOST_RESPONSES => [Sql.desc Sql.posts_responseCount; Sql.desc Sql.posts_id]
  | LEAST_RESPONSES => [Sql.asc Sql.posts_responseCount; Sql.asc Sql.posts_id]
  | NEWEST => [Sql.desc Sql.posts_createdAt; Sql.desc Sql.posts_id]
  end.

(** The filter conditions of lines 117-137. [type] is a non-empty string
    once defaulted, so [if (type)] always pushes. *)
Definition filterConditions (options : GetPostsOptions) : list Sql.Condition :=
  let type := default POST (GetPostsOptions.type options) in
  ([Sql.eq_active true]
   ++ [Sql.eq_type type]
   ++ match GetPostsOptions.city options with
      | Some city => if JS.truthy_string city then [Sql.eq_city city] else []
      | None => []
      end
   ++ match GetPostsOptions.userId options with
      | Some userId => if JS.truthy_number userId then [Sql.eq_userId userId] else []
      | None => []
      end
   ++ match GetPostsOptions.parentId options with
      | Some parentId =>
          if JS.truthy_number parentId then [Sql.eq_parentId parentId] else []
      | None => []
      end
   ++ match GetPostsOptions.tags options with
      | Some tags =>
          if (0 <? List.length tags)%nat then [Sql.tags_any tags] else []
      | None => []
      end)%list.

(** The cursor string of a row (lines 247-260). *)
Definition cursorOf (sortBy : SortBy) (lastPost : Post) : string :=
  match sortBy with
  | NEWEST | OLDEST =>
      JS.toISOString (Post.createdAt lastPost) ++ ":"
        ++ JS.string_of_Z (Post.id lastPost)
  | MOST_SAVED | LEAST_SAVED =>
      JS.string_of_Z (Post.bookmarkCount lastPost) ++ ":"
        ++ JS.string_of_Z (Post.id lastPost)
  | MOST_RESPONSES | LEAST_RESPONSES =>
      JS.string_of_Z (Post.responseCount lastPost) ++ ":"
        ++ JS.string_of_Z (Post.id lastPost)
  end.

Section Reads.

(** [new Date(s)] as the runtime parses it: the milliseconds of the date,
    or [None] for an [Invalid Date]. Outside the ISO format the result is
    left to the implementation, so the engine is stated for any parser. *)
Variable newDate : string -> option Z.

(** The cursor condition of lines 139-177. *)
Definition cursorConditions (sortBy : SortBy) (cursor : option string)
  : list Sql.Condition :=
  match cursor with
  | Some cursor =>
      if JS.truthy_string cursor then
        match JS.split ":" cursor with
        | cursorValue :: cursorId :: _ =>
            if andb (JS.truthy_string cursorValue) (JS.truthy_string cursorId)
            then
              let cursorIdNum := JS.parseInt cursorId in
              match sortBy with
              | NEWEST =>
                  [Sql.row_lt Sql.posts_createdAt (newDate cursorValue) cursorIdNum]
              | OLDEST =>
                  [Sql.row_gt Sql.posts_createdAt (newDate cursorValue) cursorIdNum]
              | MOST_SAVED =>
                  [Sql.row_lt Sql.posts_bookmarkCount (JS.parseInt cursorValue) cursorIdNum]
              | LEAST_SAVED =>
                  [Sql.row_gt Sql.posts_bookmarkCount (JS.parseInt cursorValue) cursorIdNum]
              | MOST_RESPONSES =>
                  [Sql.row_lt Sql.posts_responseCount (JS.parseInt cursorValue) cursorIdNum]
              | LEAST_RESPONSES =>
                  [Sql.row_gt Sql.posts_responseCount (JS.parseInt cursorValue) cursorIdNum]
              end
            else []
        | _ => []
        end
      else []
  | None => []
  end.

Definition conditionsOf (options : GetPostsOptions) : list Sql.Condition :=
  let sortBy := default NEWEST (GetPostsOptions.sortBy options) in
  (filterConditions options
   ++ cursorConditions sortBy (GetPostsOptions.cursor options))%list.

(** The rows fetched by the main query (lines 202-216): [limit + 1] of
    them. *)
Definition fetch (db : Db) (options : GetPostsOptions)
  : Outcome (list Sql.Row) :=
  let sortBy := default NEWEST (GetPostsOptions.sortBy options) in
  let limit := default 20%nat (GetPostsOptions.limit options) in
  Sql.select_posts db (conditionsOf options) (orderByOf sortBy) (limit + 1).

(** The batched bookmark lookup of lines 221-235. *)
Definition bookmarkedPostIds (db : Db) (viewerUserId : option Z)
  (postsData : list Sql.Row) : list Z :=
  if andb (JS.truthy_opt_number viewerUserId)
          (0 <? List.length postsData)%nat
  then
    let postIds := map (fun r => Post.id (Sql.post r)) postsData in
    map Bookmark.postId
      (filter
         (fun b =>
            andb (Bookmark.userId b =? default 0 viewerUserId)
                 (existsb (Z.eqb (Bookmark.postId b)) postIds))
         (Db.bookmarks db))
  else [].

Definition getPosts (db : Db) (options : GetPostsOptions)
  : Outcome GetPostsResult :=
  let sortBy := default NEWEST (GetPostsOptions.sortBy options) in
  let limit := default 20%nat (GetPostsOptions.limit options) in
  match fetch db options with
  | Throw e => Throw e
  | Ok results =>
      let hasMore := (limit <? List.length results)%nat in
      let postsData := firstn limit results in
      let bookmarked :=
        bookmarkedPostIds db (GetPostsOptions.viewerUserId options) postsData in
      let postsWithAuthors :=
        map (fun r =>
               PostWithAuthor.mk (Sql.post r) (Sql.author r)
                 (existsb (Z.eqb (Post.id (Sql.post r))) bookmarked))
            postsData in
      let nextCursor :=
        if andb hasMore (0 <? List.length postsData)%nat then
          match nth_error postsData (List.length postsData - 1) with
          | Some lastRow => Some (cursorOf sortBy (Sql.post lastRow))
          | None => None
          end
        else None in
      Ok (GetPostsResult.mk postsWithAuthors hasMore nextCursor)
  end.

End Reads.

(* ================================================================== *)
(** * Writes ([src/server/db/posts.ts]) *)

(** Statements run against the store one after the other: each sees the
    writes of those before it. A [Throw] stops the run and keeps the store
    as the statements so far left it. *)
Definition Tx (A : Type) : Type := Db -> Outcome A * Db.

Definition ret {A} (a : A) : Tx A := fun db => (Ok a, db).

Definition throw {A} (e : Exn) : Tx A := fun db => (Throw e, db).

Definition bind {A B} (m : Tx A) (k : A -> Tx B) : Tx B :=
  fun db =>
    match m db with
    | (Ok a, db') => k a db'
    | (Throw e, db') => (Throw e, db')
    end.

Notation "x <- m ;; k" := (bind m (fun x => k))
  (at level 61, m at next level, right associativity).
Notation "m ;; k" := (bind m (fun _ => k))
  (at level 61, right associativity).

(** Modelled from the spec: [withTransaction] of [src/server/db/shared.ts],
    which is not among the sources. Section 9 of the specification describes
    it as a scoped transaction: begin, run the body, commit on success, roll
    back on any thrown error. *)
Definition withTransaction {A} (body : Tx A) : Tx A :=
  fun db =>
    match body db with
    | (Ok a, db') => (Ok a, db')
    | (Throw e, _) => (Throw e, db)
    end.

(** [select().from(posts).where(and(...)).limit(1)] *)
Definition tx_select_post (conditions : list Sql.Condition) : Tx (option Post) :=
  fun db => (Ok (Sql.select_post db conditions), db).

(** [insert(posts).values(v).returning()]: the id comes from the sequence,
    the columns not supplied take the defaults of the schema, [defaultNow()]
    being [now]. *)
Definition tx_insert_post (v : NewPost) (now : Z) : Tx Post :=
  fun db =>
    let row :=
      Post.mk (Db.posts_id_seq db) (NewPost.userId v) (NewPost.type v)
        (NewPost.parentId v) (NewPost.audioUrl v) (NewPost.audioKey v)
        (NewPost.duration v) (NewPost.tags v) None 0 0 (NewPost.city v)
        true AWAITING_PROCESSING now now in
    (Ok row,
     Db.with_posts_id_seq (Db.posts_id_seq db + 1)
       (Db.with_posts (Db.posts db ++ [row])%list db)).

(** [update(posts).set(...).where(eq(posts.id, id))] *)
Definition tx_update_post (set : Post -> Post) (id : Z) : Tx unit :=
  fun db =>
    (Ok tt,
     Db.with_posts
       (map (fun p => if Post.id p =? id then set p else p) (Db.posts db))
       db).

Definition tx_insert_notification (n : Notification) : Tx unit :=
  fun db =>
    (Ok tt, Db.with_notifications (Db.notifications db ++ [n])%list db).

Module PostData.
Record t := mk {
  userId : Z;
  audioUrl : string;
  audioKey : string;
  duration : Z;
  tags : option (list string);
  city : option string
}.
End PostData.

Module ResponseData.
Record t := mk {
  userId : Z;
  parentId : Z;
  audioUrl : string;
  audioKey : string;
  duration : Z;
  tags : option (list string)
}.
End ResponseData.

Definition createPost (data : PostData.t) (now : Z) : Tx Post :=
  let newPost :=
    NewPost.mk (PostData.userId data) POST None (PostData.audioUrl data)
      (PostData.audioKey data) (PostData.duration data)
      (default [] (PostData.tags data))
      (match PostData.city data with
       | Some c => if JS.truthy_string c then c else "singapore"
       | None => "singapore"
       end) in
  tx_insert_post newPost now.

Definition createResponse (data : ResponseData.t) (now : Z) : Tx Post :=
  withTransaction
    (parentPost <-
       tx_select_post [Sql.eq_id (ResponseData.parentId data); Sql.eq_active true] ;;
     match parentPost with
     | None => throw (Error "Parent post not found")
     | Some parent =>
         let newResponse :=
           NewPost.mk (ResponseData.userId data) RESPONSE
             (Some (ResponseData.parentId data)) (ResponseData.audioUrl data)
             (ResponseData.audioKey data) (ResponseData.duration data)
             (default [] (ResponseData.tags data)) (Post.city parent) in
         response <- tx_insert_post newResponse now ;;
         tx_update_post
           (fun p => Post.set_responseCount (Post.responseCount p + 1) now p)
           (ResponseData.parentId data) ;;
         (if negb (Post.userId parent =? ResponseData.userId data) then
            tx_insert_notification
              (Notification.mk (Post.userId parent) (ResponseData.parentId data)
                 (Post.id response) (ResponseData.userId data))
          else ret tt) ;;
         ret response
     end).

Definition deletePost (postId : Z) (userId : Z) (now : Z) : Tx bool :=
  withTransaction
    (post <- tx_select_post [Sql.eq_id postId; Sql.eq_active true] ;;
     match post with
     | None => ret false
     | Some post =>
         if negb (Post.userId post =? userId) then
           throw (Error "Not authorized to delete this post")
         else
           tx_update_post (Post.set_active false now) postId ;;
           (if JS.truthy_opt_number (Post.parentId post) then
              tx_update_post
                (fun p =>
                   Post.set_responseCount (Z.max (Post.responseCount p - 1) 0) now p)
                (default 0 (Post.parentId post))
            else ret tt) ;;
           ret true
     end).

Definition updatePostWaveformUrl (postId : Z) (waveformUrl : string) (now : Z)
  : Tx unit :=
  tx_update_post (Post.set_waveformUrl waveformUrl now) postId.

Definition updatePostStatus (postId : Z) (status : PostStatus) (now : Z)
  : Tx unit :=
  tx_update_post (Post.set_status status now) postId.

(** Modelled from the spec: [addBookmark] of [src/server/db/bookmarks.ts],
    which is not among the sources. Section 4.6: inserts a Bookmark row,
    fails with Conflict if the pair already exists, and on success
    increments the post's [bookmarkCount]. *)
Definition addBookmark (userId postId : Z) : Tx unit :=
  withTransaction
    (fun db =>
       if existsb
            (fun b => andb (Bookmark.userId b =? userId)
                           (Bookmark.postId b =? postId))
            (Db.bookmarks db)
       then (Throw (Error "Post already bookmarked"), db)
       else
         tx_update_post
           (fun p => Post.set_bookmarkCount (Post.bookmarkCount p + 1) p)
           postId
           (Db.with_bookmarks
              (Db.bookmarks db ++ [Bookmark.mk userId postId])%list db)).

(** Modelled from the spec: [removeBookmark] of
    [src/server/db/bookmarks.ts], which is not among the sources.
    Section 4.6: deletes the matching row if present and decrements
    [bookmarkCount], clamped at zero (section 3); reports that nothing was
    removed if there is no such bookmark. *)
Definition removeBookmark (userId postId : Z) : Tx bool :=
  withTransaction
    (fun db =>
       let matches b :=
         andb (Bookmark.userId b =? userId) (Bookmark.postId b =? postId) in
       if existsb matches (Db.bookmarks db) then
         match
           tx_update_post
             (fun p =>
                Post.set_bookmarkCount (Z.max (Post.bookmarkCount p - 1) 0) p)
             postId
             (Db.with_bookmarks
                (filter (fun b => negb (matches b)) (Db.bookmarks db)) db)
         with
         | (_, db') => (Ok true, db')
         end
       else (Ok false, db)).

(* ================================================================== *)
(** * Read-side projections (GraphQL resolvers) *)

(** The [UserProfile] object the mappers build for [author]. *)
Module AuthorView.
Record t := mk {
  id : Z;
  userId : Z;
  username : string;
  ageRange : option string;
  occupation : option string;
  city : string;
  createdAt : Z
}.
End AuthorView.

(** [PostSummary]: the projection of list rows. It has no [audioUrl]
    field. *)
Module PostSummary.
Record t := mk {
  id : Z;
  userId : Z;
  author : AuthorView.t;
  type : PostType;
  status : PostStatus;
  parentId : option Z;
  duration : Z;
  tags : list string;
  waveformUrl : option string;
  responseCount : Z;
  bookmarkCount : Z;
  isBookmarked : bool;
  createdAt : Z
}.
End PostSummary.

(** The full [Post] view: the summary's fields, [audioUrl] and [city]. *)
Module PostFull.
Record t := mk {
  summary : PostSummary.t;
  audioUrl : option string;
  city : string
}.
End PostFull.

(** [post.tags || []] is [post.tags]: the column is not null and an array
    is truthy, even when empty. *)
Definition mapPostToSummary (post : PostWithAuthor) : PostSummary.t :=
  let p := PostWithAuthor.post post in
  let a := PostWithAuthor.author post in
  let isDeleted := PostStatus_eqb (Post.status p) DELETED in
  PostSummary.mk
    (Post.id p)
    (Post.userId p)
    (AuthorView.mk (Author.id a) (Author.userId a) (Author.username a)
       None None (Author.city a) (Post.createdAt p))
    (Post.type p)
    (Post.status p)
    (JS.number_or_null (Post.parentId p))
    (Post.duration p)
    (Post.tags p)
    (if isDeleted then None else JS.string_or_null (Post.waveformUrl p))
    (Post.responseCount p)
    (Post.bookmarkCount p)
    (PostWithAuthor.isBookmarked post)
    (Post.createdAt p).

Definition mapPostToFull (post : PostWithAuthor) : PostFull.t :=
  let p := PostWithAuthor.post post in
  let isDeleted := PostStatus_eqb (Post.status p) DELETED in
  PostFull.mk
    (mapPostToSummary post)
    (if isDeleted then None else Some (Post.audioUrl p))
    (Post.city p).

Module PostsConnection.
Record t := mk {
  posts : list PostSummary.t;
  hasMore : bool;
  nextCursor : option string
}.
End PostsConnection.

Inductive GraphQLErrorCode := NOT_FOUND | DATABASE_ERROR.

Inductive GraphQLError := mkGraphQLError (message : string) (code : GraphQLErrorCode).

Section Resolvers.

Variable newDate : string -> option Z.

(** The shape shared by [getPosts], [getMyPosts], [getUserPosts] and
    [getResponses]: call the engine, map every row to its summary, and
    report any exception as a database error. *)
Definition listPosts (message : string) (db : Db) (options : GetPostsOptions)
  : PostsConnection.t + GraphQLError :=
  match getPosts newDate db options with
  | Ok result =>
      inl (PostsConnection.mk
             (map mapPostToSummary (GetPostsResult.posts result))
             (GetPostsResult.hasMore result)
             (JS.string_or_null (GetPostsResult.nextCursor result)))
  | Throw _ => inr (mkGraphQLError message DATABASE_ERROR)
  end.

Definition limit_or_20 (limit : option nat) : option nat :=
  match limit with
  | Some (S n) => Some (S n)
  | _ => Some 20%nat
  end.

Definition Query_getPosts (db : Db) (user : Z)
  (city : option string) (tags : option (list string))
  (cursor : option string) (limit : option nat) :=
  listPosts "Failed to get posts" db
    (GetPostsOptions.mk (JS.string_or_null city) tags (Some POST) None None
       None (JS.string_or_null cursor) (limit_or_20 limit) (Some user)).

Definition Query_getUserPosts (db : Db) (viewer : Z) (userId : Z)
  (type : option PostType) (sortBy : option SortBy)
  (cursor : option string) (limit : option nat) :=
  listPosts "Failed to get posts" db
    (GetPostsOptions.mk None None type (Some userId) None
       (Some (default NEWEST sortBy)) (JS.string_or_null cursor)
       (limit_or_20 limit) (Some viewer)).

Definition Query_getMyPosts (db : Db) (user : Z)
  (type : option PostType) (sortBy : option SortBy)
  (cursor : option string) (limit : option nat) :=
  Query_getUserPosts db user user type sortBy cursor limit.

Definition Query_getResponses (db : Db) (user : Z) (postId : Z)
  (sortBy : option SortBy) (cursor : option string) (limit : option nat) :=
  listPosts "Failed to get responses" db
    (GetPostsOptions.mk None None (Some RESPONSE) None (Some postId)
       (Some (default NEWEST sortBy)) (JS.string_or_null cursor)
       (limit_or_20 limit) (Some user)).

End Resolvers.

Definition Query_getPostById (db : Db) (user : Z) (id : Z) : option PostFull.t :=
  match getPostById db id (Some user) with
  | None => None
  | Some post => Some (mapPostToFull post)
  end.

(** [Mutation.deletePost]: a [false] from the store becomes NOT_FOUND, an
    exception a database error carrying its message. *)
Definition Mutation_deletePost (user : Z) (id : Z) (now : Z)
  : Db -> (bool + GraphQLError) * Db :=
  fun db =>
    match deletePost id user now db with
    | (Ok true, db') => (inl true, db')
    | (Ok false, db') => (inr (mkGraphQLError "Post not found" NOT_FOUND), db')
    | (Throw (Error m), db') => (inr (mkGraphQLError m DATABASE_ERROR), db')
    | (Throw StoreRejected, db') =>
        (inr (mkGraphQLError "Failed to delete post" DATABASE_ERROR), db')
    end.

(* ================================================================== *)
(** * Notions the properties are stated with *)

(** The stored columns a summary shows as they are. *)
Definition passes_through (p : Post) (s : PostSummary.t) : Prop :=
  PostSummary.id s = Post.id p /\
  PostSummary.userId s = Post.userId p /\
  PostSummary.type s = Post.type p /\
  PostSummary.status s = Post.status p /\
  PostSummary.parentId s = Post.parentId p /\
  PostSummary.duration s = Post.duration p /\
  PostSummary.tags s = Post.tags p /\
  PostSummary.responseCount s = Post.responseCount p /\
  PostSummary.bookmarkCount s = Post.bookmarkCount p /\
  PostSummary.createdAt s = Post.createdAt p.

(** The foreign key of [parentId]: ids come from a sequence that starts at
    1, so no row refers to a parent 0. *)
Definition parentIds_valid (db : Db) : Prop :=
  forall p, In p (Db.posts db) -> Post.parentId p <> Some 0.

(** The row [createResponse] inserts under [parent], and what its update
    does to each stored row. *)
Definition responseRow (data : ResponseData.t) (now : Z) (db : Db) (parent : Post)
  : Post :=
  Post.mk (Db.posts_id_seq db) (ResponseData.userId data) RESPONSE
    (Some (ResponseData.parentId data)) (ResponseData.audioUrl data)
    (ResponseData.audioKey data) (ResponseData.duration data)
    (default [] (ResponseData.tags data)) None 0 0 (Post.city parent)
    true AWAITING_PROCESSING now now.

Definition incrementParent (data : ResponseData.t) (now : Z) (p : Post) : Post :=
  if Post.id p =? ResponseData.parentId data
  then Post.set_responseCount (Post.responseCount p + 1) now p
  else p.

(** What the two updates of [deletePost] do to each stored row. *)
Definition softDelete (postId : Z) (now : Z) (p : Post) : Post :=
  if Post.id p =? postId then Post.set_active false now p else p.

Definition decrementParent (parentId : option Z) (now : Z) (p : Post) : Post :=
  if JS.truthy_opt_number parentId then
    if Post.id p =? default 0 parentId
    then Post.set_responseCount (Z.max (Post.responseCount p - 1) 0) now p
    else p
  else p.

Definition post_nonneg (p : Post) : Prop :=
  0 <= Post.responseCount p /\ 0 <= Post.bookmarkCount p.

(* ================================================================== *)
(** * The six orders, as the specification words them *)

(** The direction of each order: newest, most saved and most answered
    first are descending. *)
Definition descending (sortBy : SortBy) : bool :=
  match sortBy with
  | NEWEST | MOST_SAVED | MOST_RESPONSES => true
  | OLDEST | LEAST_SAVED | LEAST_RESPONSES => false
  end.

Definition sortKey (sortBy : SortBy) (p : Post) : Z :=
  Sql.value (sortColumn sortBy) p.

(** [beyond sortBy v i p]: the row [p] lies strictly after the position
    [(v, i)] in the order: by key first, by id among equal keys. *)
Definition beyond (sortBy : SortBy) (v i : Z) (p : Post) : Prop :=
  if descending sortBy
  then sortKey sortBy p < v \/ (sortKey sortBy p = v /\ Post.id p < i)
  else v < sortKey sortBy p \/ (sortKey sortBy p = v /\ i < Post.id p).

(** [p] comes strictly before [q]. *)
Definition precedes (sortBy : SortBy) (p q : Post) : Prop :=
  beyond sortBy (sortKey sortBy p) (Post.id p) q.

(** [p] comes before [q], or shares its key and id. *)
Definition precedes_eq (sortBy : SortBy) (p q : Post) : Prop :=
  precedes sortBy p q \/
  (sortKey sortBy p = sortKey sortBy q /\ Post.id p = Post.id q).

(** How a key value is written in a cursor. *)
Definition keyString (sortBy : SortBy) (v : Z) : string :=
  match sortBy with
  | NEWEST | OLDEST => JS.toISOString v
  | _ => JS.string_of_Z v
  end.

(** The row comparison of each order against a decoded cursor. *)
Definition cursorComparison (sortBy : SortBy) (v i : option Z) : Sql.Condition :=
  if descending sortBy then Sql.row_lt (sortColumn sortBy) v i
  else Sql.row_gt (sortColumn sortBy) v i.

(* ================================================================== *)
(** * Cursors, as the specification words them *)

(** How the key half of a cursor is read under each order. *)
Definition parseKey (newDate : string -> option Z) (sortBy : SortBy)
  (cursorValue : string) : option Z :=
  match sortBy with
  | NEWEST | OLDEST => newDate cursorValue
  | _ => JS.parseInt cursorValue
  end.

(** A half of the cursor is missing: there is no [:], or the text before
    the first [:] or between the first and the second is empty. *)
Definition half_missing (cursor : string) : Prop :=
  match JS.split ":" cursor with
  | cursorValue :: cursorId :: _ => cursorValue = "" \/ cursorId = ""
  | _ => True
  end.

(** Both halves are there and one of them does not parse. *)
Definition half_unparsable (newDate : string -> option Z) (sortBy : SortBy)
  (cursor : string) : Prop :=
  match JS.split ":" cursor with
  | cursorValue :: cursorId :: _ =>
      cursorValue <> "" /\ cursorId <> "" /\
      (parseKey newDate sortBy cursorValue = None \/ JS.parseInt cursorId = None)
  | _ => False
  end.

(** The number a list of decimal digits denotes, read left to right from
    [acc]: what [JS.parse_digits] computes on its printed form. *)
Fixpoint uint_value (acc : Z) (d : Decimal.uint) : Z :=
  match d with
  | Decimal.Nil => acc
  | Decimal.D0 d' => uint_value (acc * 10) d'
  | Decimal.D1 d' => uint_value (acc * 10 + 1) d'
  | Decimal.D2 d' => uint_value (acc * 10 + 2) d'
  | Decimal.D3 d' => uint_value (acc * 10 + 3) d'
  | Decimal.D4 d' => uint_value (acc * 10 + 4) d'
  | Decimal.D5 d' => uint_value (acc * 10 + 5) d'
  | Decimal.D6 d' => uint_value (acc * 10 + 6) d'
  | Decimal.D7 d' => uint_value (acc * 10 + 7) d'
  | Decimal.D8 d' => uint_value (acc * 10 + 8) d'
  | Decimal.D9 d' => uint_value (acc * 10 + 9) d'
  end.

(* ================================================================== *)
(** * A client paging through a listing *)

(** The pages a client sees when it calls [getPosts] again and again on
    the same store, each time with the [nextCursor] of the page before,
    until a page comes without one. [fuel] bounds the number of calls;
    [None] is a call that threw or a traversal that did not finish. *)
Fixpoint traverse (newDate : string -> option Z) (fuel : nat) (db : Db)
  (options : GetPostsOptions) (cursor : option string)
  : option (list (list PostWithAuthor)) :=
  match fuel with
  | O => None
  | S fuel' =>
      match getPosts newDate db (GetPostsOptions.with_cursor cursor options) with
      | Throw _ => None
      | Ok result =>
          match GetPostsResult.nextCursor result with
          | None => Some [GetPostsResult.posts result]
          | Some c =>
              match traverse newDate fuel' db options (Some c) with
              | Some pages => Some (GetPostsResult.posts result :: pages)
              | None => None
              end
          end
      end
  end.

(** The orders whose key is a counter. *)
Definition count_based (sortBy : SortBy) : bool :=
  match sortBy with
  | NEWEST | OLDEST => false
  | _ => true
  end.

(** The primary key of [posts] and the unique constraint on
    [user_profiles.user_id]. *)
Definition unique_ids (db : Db) : Prop := NoDup (map Post.id (Db.posts db)).

Definition unique_profiles (db : Db) : Prop :=
  NoDup (map Author.userId (Db.userProfiles db)).

(** The rows a listing has to show: the active posts that pass the
    filters, with their author. *)
Definition matching (db : Db) (options : GetPostsOptions) : list Sql.Row :=
  filter (fun r => Sql.where_ (filterConditions options) (Sql.post r))
    (Sql.posts_join_userProfiles db).

Definition rowOf (p : PostWithAuthor) : Sql.Row :=
  Sql.mkRow (PostWithAuthor.post p) (PostWithAuthor.author p).

Definition rowId (r : Sql.Row) : Z := Post.id (Sql.post r).

(** Where a traversal stands: nothing shown yet and no cursor, or the
    cursor of the last row shown. *)
Definition position (sortBy : SortBy) (shown : list Sql.Row)
  (cursor : option string) : Prop :=
  match cursor with
  | None => shown = []
  | Some c =>
      exists before x,
        shown = (before ++ [x])%list /\ c = cursorOf sortBy (Sql.post x)
  end.

(* ================================================================== *)
(** * States the core's operations reach *)

Definition counters_nonneg (db : Db) : Prop :=
  forall p, In p (Db.posts db) -> post_nonneg p.

(** One operation of the core, whatever its arguments and its outcome.
    Profiles belong to a collaborator and may change at any time. *)
Inductive step : Db -> Db -> Prop :=
  | step_createPost data now db r db' :
      createPost data now db = (r, db') -> step db db'
  | step_createResponse data now db r db' :
      createResponse data now db = (r, db') -> step db db'
  | step_deletePost postId userId now db r db' :
      deletePost postId userId now db = (r, db') -> step db db'
  | step_updatePostWaveformUrl postId url now db r db' :
      updatePostWaveformUrl postId url now db = (r, db') -> step db db'
  | step_updatePostStatus postId status now db r db' :
      updatePostStatus postId status now db = (r, db') -> step db db'
  | step_addBookmark userId postId db r db' :
      addBookmark userId postId db = (r, db') -> step db db'
  | step_removeBookmark userId postId db r db' :
      removeBookmark userId postId db = (r, db') -> step db db'
  | step_profiles db profiles :
      step db (Db.mk (Db.posts db) profiles (Db.bookmarks db)
                 (Db.notifications db) (Db.posts_id_seq db)).

Inductive reachable : Db -> Prop :=
  | reachable_empty : reachable Db.empty
  | reachable_step db db' : reachable db -> step db db' -> reachable db'.

(** What the sequence and the foreign key give: ids are distinct, positive
    and below the next value of the sequence, and no row has parent 0. *)
Definition posts_ok (posts : list Post) (seq : Z) : Prop :=
  NoDup (map Post.id posts) /\
  forall p, In p posts ->
    1 <= Post.id p < seq /\ Post.parentId p <> Some 0.

Definition store_ok (db : Db) : Prop :=
  posts_ok (Db.posts db) (Db.posts_id_seq db).

(* ================================================================== *)
(** * The engine on small stores *)

Module Examples.

Definition profile (user : Z) (name : string) : Author :=
  Author.mk (100 + user) user name "singapore".

(** A top-level post of user 1. *)
Definition post (id createdAt bookmarkCount responseCount : Z) : Post :=
  Post.mk id 1 POST None "https://cdn/a.webm" "a.webm" 30 ["x"] None
    responseCount bookmarkCount "singapore" true PROCESSED createdAt createdAt.

(** A response of user 2 to the post [parent]. *)
Definition response (id parent createdAt : Z) : Post :=
  Post.mk id 2 RESPONSE (Some parent) "https://cdn/b.webm" "b.webm" 10 [] None
    0 0 "singapore" true PROCESSED createdAt createdAt.

(** A post whose content was taken down. *)
Definition deleted (id createdAt : Z) : Post :=
  Post.mk id 1 POST None "https://cdn/d.webm" "d.webm" 30 ["x"]
    (Some "https://cdn/d.png") 0 2 "singapore" true DELETED createdAt createdAt.

Definition store (ps : list Post) : Db :=
  Db.mk ps [profile 1 "ann"; profile 2 "bob"] [] [] 100.

Definition options (sortBy : SortBy) (cursor : option string) (limit : nat)
  : GetPostsOptions :=
  GetPostsOptions.mk None None None None None (Some sortBy) cursor
    (Some limit) None.

(** The ids, [hasMore] and [nextCursor] of a page. *)
Definition page (r : Outcome GetPostsResult) :=
  match r with
  | Ok res =>
      Some (map (fun p => Post.id (PostWithAuthor.post p)) (GetPostsResult.posts res),
            GetPostsResult.hasMore res, GetPostsResult.nextCursor res)
  | Throw _ => None
  end.

(** Section 8 of the specification: five posts with bookmark counts
    5, 4, 3, 2, 1, page size 2, MOST_SAVED. *)
Definition five : Db :=
  store [post 1 1000 5 0; post 2 2000 4 0; post 3 3000 3 0;
         post 4 4000 2 0; post 5 5000 1 0].

(** A post with one response, and a post taken down; user 2 has
    bookmarked both posts. *)
Definition mixed : Db :=
  Db.mk [post 1 1000 1 1; response 2 1 2000; deleted 3 3000]
    [profile 1 "ann"; profile 2 "bob"]
    [Bookmark.mk 2 1; Bookmark.mk 2 3] [] 4.

(** Three posts of one morning: 2024-01-01 at 10:10, 10:20 and 10:30
    UTC. *)
Definition morning : Db :=
  store [post 1 1704103800000 0 0; post 2 1704104400000 0 0;
         post 3 1704105000000 0 0].

Definition morningRow (id createdAt : Z) : Sql.Row :=
  Sql.mkRow (post id createdAt 0 0) (profile 1 "ann").

(** The whole listing of [morning], newest first. *)
Definition morningListing : list Sql.Row :=
  [morningRow 3 1704105000000; morningRow 2 1704104400000;
   morningRow 1 1704103800000].

Definition ids (pages : list (list PostWithAuthor)) : list Z :=
  map (fun p => Post.id (PostWithAuthor.post p)) (List.concat pages).

Definition row (p : Post) (user : Z) (name : string) (flag : bool)
  : PostWithAuthor :=
  PostWithAuthor.mk p (profile user name) flag.

End Examples.


(* ================================================================== *)
(** * Responses and their parents *)

(** [r] is an active response to the post [id]. *)
Definition isActiveResponseOf (id : Z) (r : Post) : bool :=
  andb (Post.active r)
       (match Post.parentId r with Some n => n =? id | None => false end).

(** The number of active responses to the post [id] among [posts]. *)
Definition activeResponses (posts : list Post) (id : Z) : Z :=
  Z.of_nat (List.length (filter (isActiveResponseOf id) posts)).

(** Every stored counter is the number of active responses of its post. *)
Definition responseCounts_exact (db : Db) : Prop :=
  forall p, In p (Db.posts db) ->
    Post.responseCount p = activeResponses (Db.posts db) (Post.id p).

(** A row with a parent is a response to a stored post older than itself;
    a row without one is a post. *)
Definition responses_ok (posts : list Post) : Prop :=
  forall p, In p posts ->
    match Post.parentId p with
    | Some n =>
        Post.type p = RESPONSE /\ n < Post.id p /\
        exists q, In q posts /\ Post.id q = n
    | None => Post.type p = POST
    end.

(** The store as the operations keep it: keys respected, every response
    under a stored parent, every counter exact. *)
Definition store_consistent (db : Db) : Prop :=
  1 <= Db.posts_id_seq db /\ store_ok db /\
  responses_ok (Db.posts db) /\ responseCounts_exact db.

(** A short history of the store: user 1 posts, user 2 responds, then
    deletes the response. *)
Module History.

Definition db0 : Db :=
  Db.mk [] [Examples.profile 1 "ann"; Examples.profile 2 "bob"] [] [] 1.

Definition db1 : Db :=
  snd (createPost (PostData.mk 1 "https://cdn/a.webm" "a.webm" 30
                     (Some ["x"]) (Some "singapore")) 1000 db0).

Definition db2 : Db :=
  snd (createResponse (ResponseData.mk 2 1 "https://cdn/b.webm" "b.webm" 10 None)
         2000 db1).

Definition db3 : Db := snd (deletePost 2 2 3000 db2).

End History.

(** Stores whose counters lag behind their rows, as a write outside the
    core's operations leaves them: a post whose [responseCount] is 0 with
    an active response, and a post whose [bookmarkCount] is 0 with a
    bookmark row. *)
Definition lagging : Db :=
  Examples.store [Examples.post 1 1000 0 0; Examples.response 2 1 2000].

Definition saved : Db :=
  Db.mk [Examples.post 1 1000 0 0]
    [Examples.profile 1 "ann"; Examples.profile 2 "bob"]
    [Bookmark.mk 2 1] [] 2.

(* ================================================================== *)
(** * Options the engine treats as absent *)

(** The options with every falsy filter left out: an empty [city], a zero
    [userId], [parentId] or [viewerUserId], an empty [tags] array, an empty
    [cursor]. *)
Definition dropFalsy (o : GetPostsOptions) : GetPostsOptions :=
  GetPostsOptions.mk
    (JS.string_or_null (GetPostsOptions.city o))
    (match GetPostsOptions.tags o with
     | Some [] => None
     | t => t
     end)
    (GetPostsOptions.type o)
    (JS.number_or_null (GetPostsOptions.userId o))
    (JS.number_or_null (GetPostsOptions.parentId o))
    (GetPostsOptions.sortBy o)
    (JS.string_or_null (GetPostsOptions.cursor o))
    (GetPostsOptions.limit o)
    (JS.number_or_null (GetPostsOptions.viewerUserId o)).

(** [tags && tags.length > 0] (line 135): the call asks for a tags
    filter. *)
Definition tagsGiven (options : GetPostsOptions) : bool :=
  match GetPostsOptions.tags options with
  | Some tags => (0 <? List.length tags)%nat
  | None => false
  end.

(** The viewer has a bookmark row for the post [id]. *)
Definition hasBookmark (db : Db) (viewerUserId : option Z) (id : Z) : Prop :=
  exists v b,
    viewerUserId = Some v /\ v <> 0 /\ In b (Db.bookmarks db) /\
    Bookmark.userId b = v /\ Bookmark.postId b = id.

(* ================================================================== *)
(** * Views of a post before and after a worker update *)

(** The full view with its media withheld and its status DELETED. *)
Definition redacted (full : PostFull.t) : PostFull.t :=
  let s := PostFull.summary full in
  PostFull.mk
    (PostSummary.mk (PostSummary.id s) (PostSummary.userId s)
       (PostSummary.author s) (PostSummary.type s) DELETED
       (PostSummary.parentId s) (PostSummary.duration s) (PostSummary.tags s)
       None (PostSummary.responseCount s) (PostSummary.bookmarkCount s)
       (PostSummary.isBookmarked s) (PostSummary.createdAt s))
    None (PostFull.city full).

(** A row as a worker update of the post [postId] leaves it. *)
Definition updated (set : Post -> Post) (postId : Z) (r : PostWithAuthor)
  : PostWithAuthor :=
  PostWithAuthor.mk
    (if Post.id (PostWithAuthor.post r) =? postId
     then set (PostWithAuthor.post r) else PostWithAuthor.post r)
    (PostWithAuthor.author r) (PostWithAuthor.isBookmarked r).

(* ================================================================== *)
(** * Rows beyond a cursor *)

(** The row [p] lies strictly beyond what the cursor decodes to: when the
    first two [:]-pieces of the cursor are there and not empty, they parse
    to a key and an id and [p] comes strictly after that position. Nothing
    is asked when there is no cursor or a half of it is missing. *)
Definition beyondCursor (newDate : string -> option Z) (sortBy : SortBy)
  (cursor : option string) (p : Post) : Prop :=
  forall c cursorValue cursorId rest,
    cursor = Some c ->
    JS.split ":" c = cursorValue :: cursorId :: rest ->
    cursorValue <> "" -> cursorId <> "" ->
    exists v i,
      parseKey newDate sortBy cursorValue = Some v /\
      JS.parseInt cursorId = Some i /\
      beyond sortBy v i p.

(** Two posts created in the same millisecond, 2024-01-01 at 10:30 UTC. *)
Definition sameInstant : Db :=
  Examples.store [Examples.post 1 1704105000000 0 0;
                  Examples.post 2 1704105000000 0 0].

(* ================================================================== *)
(** * The parts of a time cursor *)

Fixpoint colon_free (s : string) : bool :=
  match s with
  | EmptyString => true
  | String c s' => andb (negb (Ascii.eqb c ":")) (colon_free s')
  end.

(** The minute of the hour of a timestamp, and the text of an ISO
    timestamp up to its hour: [YYYY-MM-DDTHH]. *)
Definition minuteOf (ms : Z) : Z := (ms mod 86400000) / 60000 mod 60.

Definition dateHourText (ms : Z) : string :=
  let '(y, m, d) := JS.civil_of_days (ms / 86400000) in
  JS.year_string y ++ "-" ++ JS.pad2 m ++ "-" ++ JS.pad2 d ++ "T"
    ++ JS.pad2 ((ms mod 86400000) / 3600000).

(** Two rows that differ at most in [responseCount] and [updatedAt]. *)
Definition same_but_count (p q : Post) : Prop :=
  Post.id q = Post.id p /\ Post.userId q = Post.userId p /\
  Post.type q = Post.type p /\ Post.parentId q = Post.parentId p /\
  Post.audioUrl q = Post.audioUrl p /\ Post.audioKey q = Post.audioKey p /\
  Post.duration q = Post.duration p /\ Post.tags q = Post.tags p /\
  Post.waveformUrl q = Post.waveformUrl p /\
  Post.bookmarkCount q = Post.bookmarkCount p /\ Post.city q = Post.city p /\
  Post.active q = Post.active p /\ Post.status q = Post.status p /\
  Post.createdAt q = Post.createdAt p.
(* ================================================================== *)
(** * Properties *)

Example most_saved_three_pages (newDate : string -> option Z) :
  Examples.page (getPosts newDate Examples.five (Examples.options MOST_SAVED None 2))
    = Some ([1; 2], true, Some "4:2") /\
  Examples.page (getPosts newDate Examples.five (Examples.options MOST_SAVED (Some "4:2") 2))
    = Some ([3; 4], true, Some "2:4") /\
  Examples.page (getPosts newDate Examples.five (Examples.options MOST_SAVED (Some "2:4") 2))
    = Some ([5], false, None).
Proof. repeat split; reflexivity. Qed.

Example newest_first_page (newDate : string -> option Z) :
  Examples.page (getPosts newDate Examples.five (Examples.options NEWEST None 2))
    = Some ([5; 4], true, Some "1970-01-01T00:00:04.000Z:4").
Proof. vm_compute. reflexivity. Qed.

Example create_then_delete_response :
  let data := ResponseData.mk 2 1 "https://cdn/b.webm" "b.webm" 10 None in
  let db0 := Examples.store [Examples.post 1 1000 0 0] in
  let '(r1, db1) := createResponse data 2000 db0 in
  let '(r2, db2) := deletePost 100 2 3000 db1 in
  let '(r3, db3) := deletePost 100 2 4000 db2 in
  option_map Post.responseCount (Sql.select_post db1 [Sql.eq_id 1]) = Some 1 /\
  Db.notifications db1 = [Notification.mk 1 1 100 2] /\
  r2 = Ok true /\
  option_map Post.responseCount (Sql.select_post db2 [Sql.eq_id 1]) = Some 0 /\
  r3 = Ok false /\ db3 = db2.
Proof. vm_compute. repeat split; reflexivity. Qed.
Example split_garbage : JS.split ":" "garbage" = ["garbage"].
Proof. reflexivity. Qed.

Example split_count_cursor : JS.split ":" "12:7" = ["12"; "7"].
Proof. reflexivity. Qed.

Example split_iso_cursor :
  JS.split ":" "2024-01-01T10:30:00.000Z:1"
  = ["2024-01-01T10"; "30"; "00.000Z"; "1"].
Proof. reflexivity. Qed.

Example parseInt_examples :
  JS.parseInt "42" = Some 42 /\ JS.parseInt "-7" = Some (-7) /\
  JS.parseInt "  12px" = Some 12 /\ JS.parseInt "def" = None /\
  JS.parseInt "" = None /\ JS.parseInt "00" = Some 0.
Proof. repeat split; reflexivity. Qed.

Example string_of_Z_examples :
  JS.string_of_Z 0 = "0" /\ JS.string_of_Z 105 = "105" /\
  JS.string_of_Z (-3) = "-3".
Proof. repeat split; reflexivity. Qed.

Example toISOString_examples :
  JS.toISOString 0 = "1970-01-01T00:00:00.000Z" /\
  JS.toISOString 1704105000000 = "2024-01-01T10:30:00.000Z" /\
  JS.toISOString 1709251199999 = "2024-02-29T23:59:59.999Z" /\
  JS.toISOString (-1) = "1969-12-31T23:59:59.999Z".
Proof. repeat split; vm_compute; reflexivity. Qed.

(* ------------------------------------------------------------------ *)
(** ** [ORDER BY] sorts and keeps the rows *)

Section SortFacts.

Context {A : Type} (leb : A -> A -> bool).

Lemma insert_perm (x : A) (l : list A) :
  Permutation (Sql.insert leb x l) (x :: l).
Proof.
  induction l as [|y l IH]; simpl.
  - apply Permutation_refl.
  - destruct (leb x y).
    + apply Permutation_refl.
    + apply perm_trans with (y :: x :: l).
      * now apply perm_skip.
      * apply perm_swap.
Qed.

Lemma sort_perm (l : list A) : Permutation (Sql.sort leb l) l.
Proof.
  induction l as [|x l IH]; simpl.
  - apply perm_nil.
  - apply perm_trans with (x :: Sql.sort leb l).
    + apply insert_perm.
    + now apply perm_skip.
Qed.

Lemma In_sort (x : A) (l : list A) : In x (Sql.sort leb l) <-> In x l.
Proof.
  split; apply Permutation_in.
  - apply sort_perm.
  - apply Permutation_sym, sort_perm.
Qed.

Lemma length_sort (l : list A) : List.length (Sql.sort leb l) = List.length l.
Proof. apply Permutation_length, sort_perm. Qed.

Hypothesis leb_total : forall a b, leb a b = true \/ leb b a = true.

Let le (a b : A) : Prop := leb a b = true.

Lemma insert_HdRel (a x : A) (l : list A) :
  le a x -> HdRel le a l -> HdRel le a (Sql.insert leb x l).
Proof.
  intros Hax Hal. destruct l as [|y l]; simpl.
  - now constructor.
  - destruct (leb x y); constructor; trivial.
    now inversion Hal.
Qed.

Lemma insert_sorted (x : A) (l : list A) :
  Sorted le l -> Sorted le (Sql.insert leb x l).
Proof.
  induction 1 as [|y l Hs IH Hhd]; simpl.
  - repeat constructor.
  - destruct (leb x y) eqn:E.
    + constructor; [now constructor | now constructor].
    + constructor; trivial.
      apply insert_HdRel; trivial.
      destruct (leb_total x y) as [H|H]; [congruence | exact H].
Qed.

Lemma sort_sorted (l : list A) : Sorted le (Sql.sort leb l).
Proof.
  induction l as [|x l IH]; simpl.
  - constructor.
  - now apply insert_sorted.
Qed.

End SortFacts.

(* ------------------------------------------------------------------ *)
(** ** What a query returns *)

Lemma In_firstn {A} (n : nat) (l : list A) (x : A) :
  In x (firstn n l) -> In x l.
Proof.
  revert l. induction n as [|n IH]; intros [|y l]; simpl; try tauto.
  intros [H|H]; auto.
Qed.

Lemma In_join (db : Db) (r : Sql.Row) :
  In r (Sql.posts_join_userProfiles db) <->
  In (Sql.post r) (Db.posts db) /\ In (Sql.author r) (Db.userProfiles db) /\
  Post.userId (Sql.post r) = Author.userId (Sql.author r).
Proof.
  unfold Sql.posts_join_userProfiles. rewrite in_flat_map. split.
  - intros (p & Hp & Hr). apply in_map_iff in Hr as (a & <- & Ha).
    apply filter_In in Ha as (Ha & He). simpl. repeat split; trivial.
    now apply Z.eqb_eq.
  - intros (Hp & Ha & He). exists (Sql.post r). split; trivial.
    apply in_map_iff. exists (Sql.author r). split.
    + now destruct r.
    + apply filter_In. split; trivial. now apply Z.eqb_eq.
Qed.

Lemma In_rows (db : Db) conditions orderBy limit (r : Sql.Row) :
  In r (Sql.rows db conditions orderBy limit) ->
  In r (Sql.posts_join_userProfiles db) /\
  Sql.where_ conditions (Sql.post r) = true.
Proof.
  unfold Sql.rows. intros H. apply In_firstn in H.
  apply In_sort in H. now apply filter_In in H.
Qed.

Lemma where_In conditions (c : Sql.Condition) (p : Post) :
  Sql.where_ conditions p = true -> In c conditions -> Sql.holds c p = true.
Proof.
  unfold Sql.where_. rewrite forallb_forall. auto.
Qed.

Lemma select_posts_Ok db conditions orderBy limit results :
  Sql.select_posts db conditions orderBy limit = Ok results ->
  results = Sql.rows db conditions orderBy limit.
Proof.
  unfold Sql.select_posts. destruct (forallb _ _); congruence.
Qed.

(** Every row of a page is one of the fetched rows, with its flag. *)
Lemma getPosts_rows newDate db options result :
  getPosts newDate db options = Ok result ->
  exists results,
    fetch newDate db options = Ok results /\
    forall row, In row (GetPostsResult.posts result) ->
      exists r, In r results /\
        PostWithAuthor.post row = Sql.post r /\
        PostWithAuthor.author row = Sql.author r.
Proof.
  unfold getPosts. destruct (fetch newDate db options) as [results|e]; [|discriminate].
  intros [= <-]. exists results. split; trivial. simpl.
  intros row Hrow. apply in_map_iff in Hrow as (r & <- & Hr).
  exists r. split; [now apply In_firstn in Hr | split; reflexivity].
Qed.

Lemma fetch_rows newDate db options results (r : Sql.Row) :
  fetch newDate db options = Ok results -> In r results ->
  In r (Sql.posts_join_userProfiles db) /\
  Sql.where_ (conditionsOf newDate options) (Sql.post r) = true.
Proof.
  unfold fetch. intros H Hr. apply select_posts_Ok in H. subst results.
  now apply In_rows in Hr.
Qed.

Lemma PostType_eqb_eq (a b : PostType) : PostType_eqb a b = true <-> a = b.
Proof. destruct a, b; simpl; split; congruence. Qed.

Lemma PostStatus_eqb_eq (a b : PostStatus) : PostStatus_eqb a b = true <-> a = b.
Proof. destruct a, b; simpl; split; congruence. Qed.

(** Every row of every page is an active stored post of the type asked
    for, [POST] when none is. *)
Lemma getPosts_row_active_type newDate db options result row :
  getPosts newDate db options = Ok result ->
  In row (GetPostsResult.posts result) ->
  In (PostWithAuthor.post row) (Db.posts db) /\
  Post.active (PostWithAuthor.post row) = true /\
  Post.type (PostWithAuthor.post row) = default POST (GetPostsOptions.type options).
Proof.
  intros H Hrow. apply getPosts_rows in H as (results & Hf & Hall).
  destruct (Hall row Hrow) as (r & Hr & -> & _).
  destruct (fetch_rows _ _ _ _ _ Hf Hr) as (Hj & Hw).
  apply In_join in Hj as (Hp & _). split; trivial.
  unfold conditionsOf, filterConditions in Hw.
  split.
  - pose proof (where_In _ (Sql.eq_active true) _ Hw) as Ha.
    simpl in Ha. specialize (Ha (or_introl eq_refl)).
    now destruct (Post.active (Sql.post r)).
  - pose proof (where_In _ (Sql.eq_type (default POST (GetPostsOptions.type options))) _ Hw) as Ht.
    simpl in Ht. specialize (Ht (or_intror (or_introl eq_refl))).
    now apply PostType_eqb_eq.
Qed.

(* ------------------------------------------------------------------ *)
(** ** The type filter defaults to POST *)

(** C9. When [getPosts] is called with no [type] in its options, every row
    of the page it returns has [type = POST]: responses are left out of a
    listing unless they are asked for. *)
Theorem getPosts_type_defaults_to_POST newDate db options result row :
  GetPostsOptions.type options = None ->
  getPosts newDate db options = Ok result ->
  In row (GetPostsResult.posts result) ->
  Post.type (PostWithAuthor.post row) = POST.
Proof.
  intros Hnone H Hrow.
  destruct (getPosts_row_active_type _ _ _ _ _ H Hrow) as (_ & _ & Ht).
  now rewrite Hnone in Ht.
Qed.

Lemma getPosts_type_defaults_to_POST_witness :
  let options := Examples.options NEWEST None 5 in
  let row1 := Examples.row (Examples.post 1 1000 1 1) 1 "ann" false in
  let row3 := Examples.row (Examples.deleted 3 3000) 1 "ann" false in
  let result := GetPostsResult.mk [row3; row1] false None in
  GetPostsOptions.type options = None /\
  getPosts (fun _ => None) Examples.mixed options = Ok result /\
  In row1 (GetPostsResult.posts result) /\
  Post.type (PostWithAuthor.post row1) = POST.
Proof.
  intros options row1 row3 result.
  assert (H1 : GetPostsOptions.type options = None) by reflexivity.
  assert (H2 : getPosts (fun _ => None) Examples.mixed options = Ok result)
    by (vm_compute; reflexivity).
  assert (H3 : In row1 (GetPostsResult.posts result)) by (simpl; auto).
  split; [exact H1 | split; [exact H2 | split; [exact H3 |]]].
  exact (getPosts_type_defaults_to_POST _ _ _ _ _ H1 H2 H3).
Defined.

(* ------------------------------------------------------------------ *)
(** ** No viewer, no bookmark flag *)

(** C10. When no viewer id is supplied, [getPostById] and [getPosts] do not
    consult the bookmarks table: their result is the same whatever the
    table holds, and every projection returned has [isBookmarked = false]. *)
Theorem no_viewer_isBookmarked_false newDate db options :
  GetPostsOptions.viewerUserId options = None ->
  (forall id bookmarks,
     getPostById (Db.with_bookmarks bookmarks db) id None = getPostById db id None) /\
  (forall id post,
     getPostById db id None = Some post ->
     PostWithAuthor.isBookmarked post = false) /\
  (forall bookmarks,
     getPosts newDate (Db.with_bookmarks bookmarks db) options
     = getPosts newDate db options) /\
  (forall result row,
     getPosts newDate db options = Ok result ->
     In row (GetPostsResult.posts result) ->
     PostWithAuthor.isBookmarked row = false).
Proof.
  intros Hv. split; [|split; [|split]].
  - intros id bookmarks. reflexivity.
  - intros id post. unfold getPostById.
    destruct (Sql.rows _ _ _ _); [discriminate|]. now intros [= <-].
  - intros bookmarks. unfold getPosts. rewrite Hv.
    change (fetch newDate (Db.with_bookmarks bookmarks db) options)
      with (fetch newDate db options).
    destruct (fetch newDate db options); trivial.
  - intros result row. unfold getPosts. rewrite Hv.
    destruct (fetch newDate db options) as [results|]; [|discriminate].
    intros [= <-]. cbn [GetPostsResult.posts].
    intros Hrow. apply in_map_iff in Hrow as (r & <- & _). reflexivity.
Qed.

Lemma no_viewer_isBookmarked_false_witness :
  let options := Examples.options NEWEST None 5 in
  let row1 := Examples.row (Examples.post 1 1000 1 1) 1 "ann" false in
  let row3 := Examples.row (Examples.deleted 3 3000) 1 "ann" false in
  GetPostsOptions.viewerUserId options = None /\
  getPostById Examples.mixed 3 None = Some row3 /\
  getPostById Examples.mixed 3 (Some 2)
    = Some (Examples.row (Examples.deleted 3 3000) 1 "ann" true) /\
  getPosts (fun _ => None) Examples.mixed options
    = Ok (GetPostsResult.mk [row3; row1] false None) /\
  PostWithAuthor.isBookmarked row3 = false.
Proof.
  intros options row1 row3.
  assert (H1 : GetPostsOptions.viewerUserId options = None) by reflexivity.
  assert (H2 : getPostById Examples.mixed 3 None = Some row3)
    by (vm_compute; reflexivity).
  split; [exact H1 | split; [exact H2 |]].
  split; [vm_compute; reflexivity | split; [vm_compute; reflexivity |]].
  destruct (no_viewer_isBookmarked_false (fun _ => None) Examples.mixed options H1)
    as (_ & H & _).
  exact (H 3 row3 H2).
Defined.

(* ------------------------------------------------------------------ *)
(** ** Redaction of deleted posts *)

Lemma getPostById_Some db id viewerUserId post :
  getPostById db id viewerUserId = Some post ->
  In (PostWithAuthor.post post) (Db.posts db) /\
  Post.id (PostWithAuthor.post post) = id /\
  Post.active (PostWithAuthor.post post) = true.
Proof.
  unfold getPostById.
  destruct (Sql.rows db _ _ _) as [|r results] eqn:E; [discriminate|].
  intros [= <-]. simpl.
  assert (Hr : In r (Sql.rows db [Sql.eq_id id; Sql.eq_active true] [] 1))
    by (rewrite E; now left).
  apply In_rows in Hr as (Hj & Hw). apply In_join in Hj as (Hp & _).
  simpl in Hw. apply andb_prop in Hw as (Hid & Hw).
  apply andb_prop in Hw as (Hact & _).
  repeat split; trivial.
  - now apply Z.eqb_eq.
  - now destruct (Post.active (Sql.post r)).
Qed.

Lemma number_or_null_valid (o : option Z) :
  o <> Some 0 -> JS.number_or_null o = o.
Proof.
  destruct o as [n|]; trivial. intros H.
  unfold JS.number_or_null, JS.truthy_opt_number, JS.truthy_number.
  destruct (Z.eqb_spec n 0) as [->|]; simpl; congruence.
Qed.

Lemma mapPostToSummary_passes_through (post : PostWithAuthor) :
  Post.parentId (PostWithAuthor.post post) <> Some 0 ->
  passes_through (PostWithAuthor.post post) (mapPostToSummary post).
Proof.
  intros H. unfold passes_through, mapPostToSummary. simpl.
  rewrite (number_or_null_valid _ H). repeat split.
Qed.

Lemma mapPostToSummary_redacts (post : PostWithAuthor) :
  Post.status (PostWithAuthor.post post) = DELETED ->
  PostSummary.waveformUrl (mapPostToSummary post) = None.
Proof. unfold mapPostToSummary. simpl. now intros ->. Qed.

Lemma mapPostToFull_redacts (post : PostWithAuthor) :
  Post.status (PostWithAuthor.post post) = DELETED ->
  PostFull.audioUrl (mapPostToFull post) = None.
Proof. unfold mapPostToFull. simpl. now intros ->. Qed.

(** C3. Every projection the read side returns is the projection of a
    stored post, whose columns (status among them) it shows unchanged; when
    that post's status is DELETED the full view of [getPostById] has
    [audioUrl = null] and [waveformUrl = null], and every row of every
    listing, whatever its options, has [waveformUrl = null] (a summary has
    no [audioUrl] field). *)
Theorem deleted_post_is_redacted newDate db :
  parentIds_valid db ->
  (forall user id full,
     Query_getPostById db user id = Some full ->
     exists p,
       In p (Db.posts db) /\ Post.id p = id /\
       passes_through p (PostFull.summary full) /\
       PostFull.city full = Post.city p /\
       (Post.status p = DELETED ->
        PostFull.audioUrl full = None /\
        PostSummary.waveformUrl (PostFull.summary full) = None)) /\
  (forall message options connection row,
     listPosts newDate message db options = inl connection ->
     In row (PostsConnection.posts connection) ->
     exists p,
       In p (Db.posts db) /\
       passes_through p row /\
       (Post.status p = DELETED -> PostSummary.waveformUrl row = None)).
Proof.
  intros Hfk. split.
  - intros user id full. unfold Query_getPostById.
    destruct (getPostById db id (Some user)) as [post|] eqn:E; [|discriminate].
    intros [= <-]. apply getPostById_Some in E as (Hp & Hid & _).
    exists (PostWithAuthor.post post). split; [exact Hp | split; [exact Hid |]].
    split; [apply mapPostToSummary_passes_through; auto |].
    split; [reflexivity |].
    intros Hd. split.
    + now apply mapPostToFull_redacts.
    + now apply mapPostToSummary_redacts.
  - intros message options connection row. unfold listPosts.
    destruct (getPosts newDate db options) as [result|] eqn:E; [|discriminate].
    intros [= <-]. cbn [PostsConnection.posts].
    intros Hrow. apply in_map_iff in Hrow as (post & <- & Hpost).
    destruct (getPosts_row_active_type _ _ _ _ _ E Hpost) as (Hp & _).
    exists (PostWithAuthor.post post). split; [exact Hp |].
    split; [apply mapPostToSummary_passes_through; auto |].
    now apply mapPostToSummary_redacts.
Qed.

Lemma deleted_post_is_redacted_witness :
  let full := mapPostToFull (Examples.row (Examples.deleted 3 3000) 1 "ann" true) in
  parentIds_valid Examples.mixed /\
  Query_getPostById Examples.mixed 2 3 = Some full /\
  Post.audioUrl (Examples.deleted 3 3000) = "https://cdn/d.webm" /\
  PostSummary.status (PostFull.summary full) = DELETED /\
  PostFull.audioUrl full = None /\
  PostSummary.waveformUrl (PostFull.summary full) = None.
Proof.
  intros full.
  assert (Hfk : parentIds_valid Examples.mixed).
  { intros q [<-|[<-|[<-|[]]]]; discriminate. }
  assert (Hq : Query_getPostById Examples.mixed 2 3 = Some full)
    by (vm_compute; reflexivity).
  split; [exact Hfk | split; [exact Hq | split; [reflexivity | split; [reflexivity |]]]].
  destruct (deleted_post_is_redacted (fun _ => None) Examples.mixed Hfk) as (H & _).
  destruct (H 2 3 full Hq) as (p & Hin & Hid & _ & _ & Hred).
  apply Hred.
  destruct Hin as [<-|[<-|[<-|[]]]]; try discriminate Hid. reflexivity.
Defined.

(* ------------------------------------------------------------------ *)
(** ** Looking a post up by id *)

Lemma hd_error_filter_None {A} (f : A -> bool) (l : list A) :
  hd_error (filter f l) = None <-> forall x, In x l -> f x = false.
Proof.
  induction l as [|y l IH]; simpl.
  - split; [intros _ x [] | reflexivity].
  - destruct (f y) eqn:E; simpl.
    + split; [discriminate |]. intros H. rewrite (H y) in E by now left.
      discriminate.
    + rewrite IH. split.
      * intros H x [<-|Hx]; auto.
      * intros H x Hx. apply H. now right.
Qed.

Lemma hd_error_filter_Some {A} (f : A -> bool) (l : list A) (x : A) :
  hd_error (filter f l) = Some x -> In x l /\ f x = true.
Proof.
  intros H. apply filter_In. destruct (filter f l); [discriminate|].
  injection H as ->. now left.
Qed.

Lemma where_id_active id (p : Post) :
  Sql.where_ [Sql.eq_id id; Sql.eq_active true] p = true <->
  Post.id p = id /\ Post.active p = true.
Proof.
  simpl. rewrite !andb_true_iff, Z.eqb_eq.
  destruct (Post.active p); simpl; intuition congruence.
Qed.

Lemma select_active_None db id :
  Sql.select_post db [Sql.eq_id id; Sql.eq_active true] = None <->
  forall p, In p (Db.posts db) -> Post.id p = id -> Post.active p = false.
Proof.
  unfold Sql.select_post. rewrite hd_error_filter_None. split.
  - intros H p Hp Hid. specialize (H p Hp).
    destruct (Post.active p) eqn:E; trivial.
    assert (Sql.where_ [Sql.eq_id id; Sql.eq_active true] p = true)
      by now apply where_id_active.
    congruence.
  - intros H p Hp.
    destruct (Sql.where_ _ p) eqn:E; trivial.
    apply where_id_active in E as (Hid & Ha).
    rewrite (H p Hp Hid) in Ha. discriminate.
Qed.

Lemma select_active_Some db id p :
  Sql.select_post db [Sql.eq_id id; Sql.eq_active true] = Some p ->
  In p (Db.posts db) /\ Post.id p = id /\ Post.active p = true.
Proof.
  unfold Sql.select_post. intros H.
  apply hd_error_filter_Some in H as (Hp & Hw).
  now apply where_id_active in Hw.
Qed.

(* ------------------------------------------------------------------ *)
(** ** The response transaction *)

Lemma createResponse_unfold data now db :
  match Sql.select_post db
          [Sql.eq_id (ResponseData.parentId data); Sql.eq_active true] with
  | None =>
      createResponse data now db = (Throw (Error "Parent post not found"), db)
  | Some parent =>
      createResponse data now db =
      (Ok (responseRow data now db parent),
       Db.mk
         (map (incrementParent data now)
            (Db.posts db ++ [responseRow data now db parent])%list)
         (Db.userProfiles db)
         (Db.bookmarks db)
         (if Post.userId parent =? ResponseData.userId data
          then Db.notifications db
          else (Db.notifications db ++
               [Notification.mk (Post.userId parent) (ResponseData.parentId data)
                  (Db.posts_id_seq db) (ResponseData.userId data)])%list)
         (Db.posts_id_seq db + 1))
  end.
Proof.
  unfold createResponse, withTransaction, bind, tx_select_post.
  destruct (Sql.select_post db _) as [parent|]; [|reflexivity].
  unfold tx_insert_post, tx_update_post, tx_insert_notification, ret.
  cbn [Db.posts Db.with_posts Db.with_posts_id_seq Db.with_notifications
       Db.userProfiles Db.bookmarks Db.notifications Db.posts_id_seq Post.id].
  destruct (Post.userId parent =? ResponseData.userId data); reflexivity.
Qed.

(** C4. When the parent id of a [createResponse] call refers to no post
    with [active = true], the call throws "Parent post not found" and leaves
    the store as it was: no row inserted, no counter changed, no
    notification. More generally a [createResponse] that throws, for
    whatever reason, leaves the store unchanged, and one that returns has
    inserted the row, incremented the parent and kept every other table
    but notifications. *)
Theorem createResponse_missing_parent data now db :
  ((forall p, In p (Db.posts db) ->
      Post.id p = ResponseData.parentId data -> Post.active p = false) ->
   createResponse data now db = (Throw (Error "Parent post not found"), db)) /\
  (forall e db',
     createResponse data now db = (Throw e, db') ->
     db' = db /\ e = Error "Parent post not found") /\
  (forall response db',
     createResponse data now db = (Ok response, db') ->
     exists parent,
       Sql.select_post db
         [Sql.eq_id (ResponseData.parentId data); Sql.eq_active true]
       = Some parent /\
       Db.posts db' =
         map (incrementParent data now) (Db.posts db ++ [response])%list /\
       Db.posts_id_seq db' = Db.posts_id_seq db + 1 /\
       Db.notifications db' =
         if Post.userId parent =? ResponseData.userId data
         then Db.notifications db
         else (Db.notifications db ++
              [Notification.mk (Post.userId parent) (ResponseData.parentId data)
                 (Post.id response) (ResponseData.userId data)])%list).
Proof.
  pose proof (createResponse_unfold data now db) as U.
  split; [|split].
  - intros H. apply select_active_None in H. now rewrite H in U.
  - intros e db' E.
    destruct (Sql.select_post db _) as [parent|]; rewrite U in E.
    + discriminate.
    + injection E as <- <-. now split.
  - intros response db' E.
    destruct (Sql.select_post db _) as [parent|]; rewrite U in E.
    + injection E as <- <-. exists parent. repeat split.
    + discriminate.
Qed.

Lemma createResponse_missing_parent_witness :
  let data := ResponseData.mk 2 7 "https://cdn/b.webm" "b.webm" 10 None in
  (forall p, In p (Db.posts Examples.mixed) ->
     Post.id p = ResponseData.parentId data -> Post.active p = false) /\
  createResponse data 5000 Examples.mixed
    = (Throw (Error "Parent post not found"), Examples.mixed).
Proof.
  intros data.
  assert (H : forall p, In p (Db.posts Examples.mixed) ->
            Post.id p = ResponseData.parentId data -> Post.active p = false).
  { intros p [<-|[<-|[<-|[]]]]; discriminate. }
  split; [exact H |].
  exact (proj1 (createResponse_missing_parent data 5000 Examples.mixed) H).
Defined.

(** C5. The row a successful [createResponse] returns, and the row it
    leaves in the store under the new id, has [type = RESPONSE], the given
    [parentId], and the [city] of the parent post that was loaded (the
    first active post with that id); the responder's profile is not
    consulted. *)
Theorem createResponse_row data now db response db' :
  createResponse data now db = (Ok response, db') ->
  exists parent,
    Sql.select_post db
      [Sql.eq_id (ResponseData.parentId data); Sql.eq_active true]
    = Some parent /\
    In parent (Db.posts db) /\
    Post.id parent = ResponseData.parentId data /\
    Post.active parent = true /\
    Post.type response = RESPONSE /\
    Post.parentId response = Some (ResponseData.parentId data) /\
    Post.city response = Post.city parent /\
    Post.userId response = ResponseData.userId data /\
    exists row,
      In row (Db.posts db') /\
      Post.id row = Post.id response /\
      Post.type row = RESPONSE /\
      Post.parentId row = Some (ResponseData.parentId data) /\
      Post.city row = Post.city parent.
Proof.
  pose proof (createResponse_unfold data now db) as U. intros E.
  destruct (Sql.select_post db _) as [parent|] eqn:S; rewrite U in E;
    [|discriminate].
  injection E as <- <-. exists parent.
  destruct (select_active_Some _ _ _ S) as (Hin & Hid & Hact).
  split; [reflexivity|]. do 3 (split; [assumption|]).
  do 4 (split; [reflexivity|]).
  exists (incrementParent data now (responseRow data now db parent)).
  split.
  - cbn [Db.posts]. apply in_map, in_or_app. right. now left.
  - unfold incrementParent.
    destruct (Post.id (responseRow data now db parent)
              =? ResponseData.parentId data);
      cbn; repeat split; reflexivity.
Qed.

Lemma createResponse_row_witness :
  let data := ResponseData.mk 2 1 "https://cdn/b.webm" "b.webm" 10 None in
  let db0 := Db.mk [Examples.post 1 1000 0 0]
               [Author.mk 101 1 "ann" "singapore"; Author.mk 102 2 "bob" "tokyo"]
               [] [] 2 in
  exists response db',
    createResponse data 2000 db0 = (Ok response, db') /\
    Post.city response = "singapore" /\ Post.type response = RESPONSE.
Proof.
  intros data db0.
  destruct (createResponse data 2000 db0) as [[response|e] db'] eqn:E;
    [|vm_compute in E; discriminate].
  exists response, db'. split; [reflexivity|].
  destruct (createResponse_row data 2000 db0 response db' E)
    as (parent & S & _ & _ & _ & Ht & _ & Hc & _).
  vm_compute in S. injection S as <-. split; [exact Hc | exact Ht].
Defined.

(* ------------------------------------------------------------------ *)
(** ** Delete *)

Lemma deletePost_unfold postId userId now db :
  match Sql.select_post db [Sql.eq_id postId; Sql.eq_active true] with
  | None => deletePost postId userId now db = (Ok false, db)
  | Some post =>
      if Post.userId post =? userId then
        deletePost postId userId now db =
        (Ok true,
         Db.with_posts
           (map (decrementParent (Post.parentId post) now)
              (map (softDelete postId now) (Db.posts db)))
           db)
      else
        deletePost postId userId now db =
        (Throw (Error "Not authorized to delete this post"), db)
  end.
Proof.
  unfold deletePost, withTransaction, bind, tx_select_post.
  destruct (Sql.select_post db _) as [post|]; [|reflexivity].
  destruct (Post.userId post =? userId); [|reflexivity].
  unfold tx_update_post, ret, decrementParent, softDelete. simpl.
  destruct (JS.truthy_opt_number (Post.parentId post)); simpl.
  - reflexivity.
  - now rewrite map_id.
Qed.

Lemma softDelete_id postId now p : Post.id (softDelete postId now p) = Post.id p.
Proof. unfold softDelete. now destruct (_ =? _). Qed.

Lemma softDelete_active postId now p :
  Post.id p = postId -> Post.active (softDelete postId now p) = false.
Proof. unfold softDelete. intros ->. now rewrite Z.eqb_refl. Qed.

Lemma decrementParent_id parentId now p :
  Post.id (decrementParent parentId now p) = Post.id p.
Proof.
  unfold decrementParent.
  destruct (JS.truthy_opt_number parentId); trivial. now destruct (_ =? _).
Qed.

Lemma decrementParent_active parentId now p :
  Post.active (decrementParent parentId now p) = Post.active p.
Proof.
  unfold decrementParent.
  destruct (JS.truthy_opt_number parentId); trivial. now destruct (_ =? _).
Qed.

(** C7. When every stored post with the given id is inactive, [deletePost]
    returns [false], which the resolver reports as NOT_FOUND, and the store
    is left exactly as it was: [active] stays false and no counter moves.
    In particular a delete that follows a successful delete of the same id
    finds nothing to delete. *)
Theorem deletePost_inactive postId userId now db :
  ((forall p, In p (Db.posts db) -> Post.id p = postId -> Post.active p = false) ->
   deletePost postId userId now db = (Ok false, db) /\
   Mutation_deletePost userId postId now db
   = (inr (mkGraphQLError "Post not found" NOT_FOUND), db)) /\
  (forall db' userId' now',
     deletePost postId userId now db = (Ok true, db') ->
     deletePost postId userId' now' db' = (Ok false, db')).
Proof.
  assert (Hnone : forall d u n,
            (forall p, In p (Db.posts d) -> Post.id p = postId ->
                       Post.active p = false) ->
            deletePost postId u n d = (Ok false, d)).
  { intros d u n H. apply select_active_None in H.
    pose proof (deletePost_unfold postId u n d) as U. now rewrite H in U. }
  split.
  - intros H. split; [now apply Hnone|].
    unfold Mutation_deletePost. now rewrite Hnone.
  - intros db' userId' now' E. apply Hnone.
    pose proof (deletePost_unfold postId userId now db) as U.
    destruct (Sql.select_post db _) as [post|]; [|rewrite U in E; discriminate].
    destruct (Post.userId post =? userId); rewrite U in E; [|discriminate].
    injection E as <-. cbn [Db.posts Db.with_posts].
    intros p Hp Hid. rewrite map_map in Hp.
    apply in_map_iff in Hp as (q & <- & _).
    rewrite decrementParent_id, softDelete_id in Hid.
    rewrite decrementParent_active. now apply softDelete_active.
Qed.

Lemma deletePost_inactive_witness :
  let gone := Post.set_active false 4000 (Examples.response 2 1 2000) in
  let db := Examples.store [Examples.post 1 1000 0 0; gone] in
  (forall p, In p (Db.posts db) -> Post.id p = 2 -> Post.active p = false) /\
  deletePost 2 2 5000 db = (Ok false, db) /\
  Mutation_deletePost 2 2 5000 db
  = (inr (mkGraphQLError "Post not found" NOT_FOUND), db).
Proof.
  intros gone db.
  assert (H : forall p, In p (Db.posts db) -> Post.id p = 2 -> Post.active p = false).
  { intros p [<-|[<-|[]]]; [discriminate | reflexivity]. }
  split; [exact H |].
  exact (proj1 (deletePost_inactive 2 2 5000 db) H).
Defined.

(* ------------------------------------------------------------------ *)
(** ** The counters never go below zero *)

Lemma counters_nonneg_map (f : Post -> Post) (db : Db) :
  (forall p, post_nonneg p -> post_nonneg (f p)) ->
  counters_nonneg db ->
  counters_nonneg (Db.with_posts (map f (Db.posts db)) db).
Proof.
  intros Hf H p Hp. cbn [Db.posts Db.with_posts] in Hp.
  apply in_map_iff in Hp as (q & <- & Hq). auto.
Qed.

Lemma tx_update_post_nonneg set id db r db' :
  (forall p, post_nonneg p -> post_nonneg (set p)) ->
  counters_nonneg db ->
  tx_update_post set id db = (r, db') ->
  counters_nonneg db'.
Proof.
  intros Hset H [= _ <-]. apply counters_nonneg_map; trivial.
  intros p Hp. destruct (_ =? _); auto.
Qed.

Lemma incrementParent_nonneg data now p :
  post_nonneg p -> post_nonneg (incrementParent data now p).
Proof.
  unfold incrementParent, post_nonneg. destruct (_ =? _); simpl; lia.
Qed.

Lemma softDelete_nonneg postId now p :
  post_nonneg p -> post_nonneg (softDelete postId now p).
Proof. unfold softDelete, post_nonneg. destruct (_ =? _); simpl; lia. Qed.

(** The decrement is clamped, whatever the count was. *)
Lemma decrementParent_clamped parentId now p :
  JS.truthy_opt_number parentId = true ->
  Post.id p = default 0 parentId ->
  0 <= Post.responseCount (decrementParent parentId now p).
Proof.
  unfold decrementParent. intros -> ->. rewrite Z.eqb_refl. simpl. lia.
Qed.

Lemma decrementParent_nonneg parentId now p :
  post_nonneg p -> post_nonneg (decrementParent parentId now p).
Proof.
  unfold decrementParent, post_nonneg.
  destruct (JS.truthy_opt_number parentId); trivial.
  destruct (_ =? _); simpl; lia.
Qed.

Lemma step_counters_nonneg db db' :
  counters_nonneg db -> step db db' -> counters_nonneg db'.
Proof.
  intros H St. destruct St as
    [data now db r db' E | data now db r db' E | postId userId now db r db' E
    | postId url now db r db' E | postId status now db r db' E
    | userId postId db r db' E | userId postId db r db' E | db profiles].
  - unfold createPost, tx_insert_post in E. injection E as _ <-.
    intros p Hp. cbn in Hp. apply in_app_or in Hp as [Hp|[<-|[]]]; auto.
    unfold post_nonneg. simpl. lia.
  - pose proof (createResponse_unfold data now db) as U.
    destruct (Sql.select_post db _) as [parent|]; rewrite U in E;
      injection E as _ <-; trivial.
    intros p Hp. cbn [Db.posts] in Hp.
    apply in_map_iff in Hp as (q & <- & Hq).
    apply incrementParent_nonneg.
    apply in_app_or in Hq as [Hq|[<-|[]]]; auto.
    unfold post_nonneg. simpl. lia.
  - pose proof (deletePost_unfold postId userId now db) as U.
    destruct (Sql.select_post db _) as [post|].
    + destruct (Post.userId post =? userId); rewrite U in E;
        injection E as _ <-; trivial.
      intros p Hp. cbn [Db.posts Db.with_posts] in Hp.
      apply in_map_iff in Hp as (q & <- & Hq).
      apply in_map_iff in Hq as (q' & <- & Hq').
      apply decrementParent_nonneg, softDelete_nonneg. auto.
    + rewrite U in E. now injection E as _ <-.
  - eapply tx_update_post_nonneg; [| exact H | exact E].
    intros p. unfold post_nonneg. simpl. lia.
  - eapply tx_update_post_nonneg; [| exact H | exact E].
    intros p. unfold post_nonneg. simpl. lia.
  - unfold addBookmark, withTransaction in E.
    destruct (existsb _ _).
    + now injection E as _ <-.
    + unfold tx_update_post in E. injection E as _ <-.
      intros p Hp. cbn [Db.posts Db.with_posts Db.with_bookmarks] in Hp.
      apply in_map_iff in Hp as (q & <- & Hq). specialize (H q Hq).
      unfold post_nonneg in *. destruct (_ =? _); simpl; lia.
  - unfold removeBookmark, withTransaction in E.
    destruct (existsb _ _).
    + unfold tx_update_post in E. injection E as _ <-.
      intros p Hp. cbn [Db.posts Db.with_posts Db.with_bookmarks] in Hp.
      apply in_map_iff in Hp as (q & <- & Hq). specialize (H q Hq).
      unfold post_nonneg in *. destruct (_ =? _); simpl; lia.
    + now injection E as _ <-.
  - exact H.
Qed.

Lemma reachable_counters_nonneg db : reachable db -> counters_nonneg db.
Proof.
  induction 1 as [|db db' _ IH St].
  - intros p [].
  - exact (step_counters_nonneg db db' IH St).
Qed.

(** What a successful [deletePost] of a response does to the counters of
    every row, whatever they were. *)
Lemma deletePost_counters postId userId now db db' post parentId :
  Sql.select_post db [Sql.eq_id postId; Sql.eq_active true] = Some post ->
  Post.parentId post = Some parentId -> parentId <> 0 ->
  deletePost postId userId now db = (Ok true, db') ->
  map Post.responseCount (Db.posts db')
  = map (fun p => if Post.id p =? parentId
                  then Z.max (Post.responseCount p - 1) 0
                  else Post.responseCount p) (Db.posts db) /\
  map Post.bookmarkCount (Db.posts db') = map Post.bookmarkCount (Db.posts db).
Proof.
  intros Hsel Hpar Hne E.
  pose proof (deletePost_unfold postId userId now db) as U.
  rewrite Hsel in U.
  destruct (Post.userId post =? userId); rewrite U in E; [|discriminate E].
  injection E as <-. cbn [Db.posts Db.with_posts].
  rewrite !map_map.
  assert (Ht : JS.truthy_opt_number (Some parentId) = true).
  { unfold JS.truthy_opt_number, JS.truthy_number.
    now destruct (Z.eqb_spec parentId 0). }
  split; apply map_ext; intros p;
    unfold decrementParent, softDelete; rewrite Hpar, Ht; cbn [default];
    destruct (Post.id p =? postId); cbn [Post.set_active Post.id];
    destruct (Post.id p =? parentId); reflexivity.
Qed.

Lemma removeBookmark_counters userId postId db db' :
  removeBookmark userId postId db = (Ok true, db') ->
  map Post.bookmarkCount (Db.posts db')
  = map (fun p => if Post.id p =? postId
                  then Z.max (Post.bookmarkCount p - 1) 0
                  else Post.bookmarkCount p) (Db.posts db).
Proof.
  unfold removeBookmark, withTransaction, tx_update_post.
  destruct (existsb _ _); [|discriminate].
  intros [= <-]. cbn [Db.posts Db.with_posts Db.with_bookmarks].
  rewrite map_map. apply map_ext. intros p. now destruct (Post.id p =? postId).
Qed.

(** C8. The [responseCount] and the [bookmarkCount] of every post are
    non-negative in every state the core's operations reach from the empty
    store, and every operation keeps them so from any store that has them
    so, reached or not: also from one whose counter lags behind its rows.
    Every decrement is clamped: a successful [deletePost] of a response
    sets the [responseCount] of its parent to [max (count - 1) 0] whatever
    the count was and leaves every other counter alone, and a
    [removeBookmark] that removes a row does the same to the
    [bookmarkCount] of its post. *)
Theorem counters_never_negative :
  (forall db, reachable db -> counters_nonneg db) /\
  (forall db db', counters_nonneg db -> step db db' -> counters_nonneg db') /\
  (forall postId userId now db db' post parentId,
     Sql.select_post db [Sql.eq_id postId; Sql.eq_active true] = Some post ->
     Post.parentId post = Some parentId -> parentId <> 0 ->
     deletePost postId userId now db = (Ok true, db') ->
     map Post.responseCount (Db.posts db')
     = map (fun p => if Post.id p =? parentId
                     then Z.max (Post.responseCount p - 1) 0
                     else Post.responseCount p) (Db.posts db) /\
     map Post.bookmarkCount (Db.posts db') = map Post.bookmarkCount (Db.posts db)) /\
  (forall userId postId db db',
     removeBookmark userId postId db = (Ok true, db') ->
     map Post.bookmarkCount (Db.posts db')
     = map (fun p => if Post.id p =? postId
                     then Z.max (Post.bookmarkCount p - 1) 0
                     else Post.bookmarkCount p) (Db.posts db)).
Proof.
  split; [exact reachable_counters_nonneg|].
  split; [exact step_counters_nonneg|].
  split; [exact deletePost_counters | exact removeBookmark_counters].
Qed.

(** The clamp at work: the parent's counter says 0 while a response to it
    is still active; deleting the response leaves the counter at 0. And
    the usual case, on a history from the empty store: 1, then 0. *)
Lemma counters_never_negative_witness :
  let db1 := snd (createPost (PostData.mk 1 "https://cdn/a.webm" "a.webm" 30
                                (Some ["x"]) (Some "singapore")) 1000 Db.empty) in
  let db2 := snd (createResponse (ResponseData.mk 2 1 "https://cdn/b.webm"
                                    "b.webm" 10 None) 2000 db1) in
  let db3 := snd (deletePost 2 2 3000 db2) in
  let lagging' := snd (deletePost 2 2 3000 lagging) in
  (map Post.responseCount (Db.posts db2) = [1; 0] /\
   map Post.responseCount (Db.posts db3) = [0; 0] /\
   reachable db3 /\ counters_nonneg db3) /\
  (counters_nonneg lagging /\
   map Post.responseCount (Db.posts lagging) = [0; 0] /\
   map Post.active (Db.posts lagging) = [true; true] /\
   deletePost 2 2 3000 lagging = (Ok true, lagging') /\
   map Post.responseCount (Db.posts lagging') = [0; 0] /\
   counters_nonneg lagging') /\
  (counters_nonneg saved /\
   map Post.bookmarkCount (Db.posts saved) = [0] /\
   removeBookmark 2 1 saved = (Ok true, snd (removeBookmark 2 1 saved)) /\
   map Post.bookmarkCount (Db.posts (snd (removeBookmark 2 1 saved))) = [0]).
Proof.
  intros db1 db2 db3 lagging'.
  destruct counters_never_negative as (Hreach & Hstep & Hdel & Hrem).
  split; [|split].
  - assert (R : reachable db3).
    { apply reachable_step with db2.
      - apply reachable_step with db1.
        + apply reachable_step with Db.empty; [constructor|].
          eapply step_createPost. apply surjective_pairing.
        + eapply step_createResponse. apply surjective_pairing.
      - eapply step_deletePost. apply surjective_pairing. }
    split; [reflexivity | split; [reflexivity | split; [exact R |]]].
    exact (Hreach db3 R).
  - assert (N : counters_nonneg lagging).
    { intros p [<-|[<-|[]]]; split; discriminate. }
    assert (E : deletePost 2 2 3000 lagging = (Ok true, lagging'))
      by reflexivity.
    split; [exact N|]. split; [reflexivity|]. split; [reflexivity|].
    split; [exact E|]. split.
    + assert (H1 : (1 <> 0)%Z) by discriminate.
      exact (proj1 (Hdel 2 2 3000 lagging lagging' (Examples.response 2 1 2000) 1
                      eq_refl eq_refl H1 E)).
    + apply (Hstep lagging lagging' N).
      exact (step_deletePost 2 2 3000 lagging (Ok true) lagging' E).
  - assert (N : counters_nonneg saved).
    { intros p [<-|[]]; split; discriminate. }
    split; [exact N|]. split; [reflexivity|].
    split; [reflexivity|].
    exact (Hrem 2 1 saved (snd (removeBookmark 2 1 saved)) eq_refl).
Defined.

(* ------------------------------------------------------------------ *)
(** ** One page of [getPosts] *)

Lemma Sorted_impl {A} (R R' : A -> A -> Prop) (l : list A) :
  (forall a b, R a b -> R' a b) -> Sorted R l -> Sorted R' l.
Proof.
  intros HR. induction 1 as [|a l Hs IH Hhd]; constructor; trivial.
  destruct Hhd; constructor; auto.
Qed.

Lemma order_leb_total orderBy (p q : Post) :
  Sql.order_leb orderBy p q = true \/ Sql.order_leb orderBy q p = true.
Proof.
  induction orderBy as [|[c|c] rest IH]; simpl; auto;
    destruct (Z.ltb_spec (Sql.value c p) (Sql.value c q));
    destruct (Z.ltb_spec (Sql.value c q) (Sql.value c p));
    destruct (Z.eqb_spec (Sql.value c p) (Sql.value c q));
    destruct (Z.eqb_spec (Sql.value c q) (Sql.value c p));
    auto; lia.
Qed.

Lemma order_leb_precedes_eq sortBy (p q : Post) :
  Sql.order_leb (orderByOf sortBy) p q = true <-> precedes_eq sortBy p q.
Proof.
  unfold precedes_eq, precedes, beyond, sortKey.
  destruct sortBy; simpl;
    repeat match goal with
           | |- context [?a <? ?b] => destruct (Z.ltb_spec a b)
           | |- context [?a =? ?b] => destruct (Z.eqb_spec a b)
           end;
    split; intros; try discriminate; try reflexivity; try lia.
Qed.

Lemma cursorComparison_holds sortBy v i (p : Post) :
  Sql.holds (cursorComparison sortBy (Some v) (Some i)) p = true <->
  beyond sortBy v i p.
Proof.
  unfold cursorComparison, beyond, sortKey.
  destruct sortBy; simpl;
    rewrite orb_true_iff, andb_true_iff, !Z.ltb_lt, Z.eqb_eq; reflexivity.
Qed.

Lemma cursorComparison_bindable sortBy v i :
  Sql.bindable (cursorComparison sortBy v i) = true ->
  exists v' i', v = Some v' /\ i = Some i'.
Proof.
  unfold cursorComparison.
  destruct (descending sortBy), v as [v'|], i as [i'|]; simpl;
    try discriminate; eauto.
Qed.

Lemma cursorOf_keyString sortBy (p : Post) :
  cursorOf sortBy p =
  keyString sortBy (sortKey sortBy p) ++ ":" ++ JS.string_of_Z (Post.id p).
Proof. now destruct sortBy. Qed.

(* ------------------------------------------------------------------ *)
(** ** Malformed cursors *)

Lemma cursorConditions_missing newDate sortBy cursor :
  half_missing cursor -> cursorConditions newDate sortBy (Some cursor) = [].
Proof.
  unfold half_missing, cursorConditions.
  destruct (JS.truthy_string cursor); trivial.
  destruct (JS.split ":" cursor) as [|cursorValue [|cursorId rest]]; trivial.
  intros [->| ->]; simpl; trivial. now rewrite andb_false_r.
Qed.

Lemma cursorConditions_present newDate sortBy cursor cursorValue cursorId rest :
  JS.split ":" cursor = cursorValue :: cursorId :: rest ->
  cursorValue <> "" -> cursorId <> "" ->
  cursorConditions newDate sortBy (Some cursor)
  = [cursorComparison sortBy (parseKey newDate sortBy cursorValue)
       (JS.parseInt cursorId)].
Proof.
  intros Hs Hv Hi. unfold cursorConditions. rewrite Hs.
  destruct cursor as [|c cursor]; [discriminate|]. simpl JS.truthy_string.
  destruct cursorValue; [congruence|]. destruct cursorId; [congruence|].
  simpl. now destruct sortBy.
Qed.

Lemma getPosts_cursorConditions newDate db options options' :
  GetPostsOptions.city options' = GetPostsOptions.city options ->
  GetPostsOptions.tags options' = GetPostsOptions.tags options ->
  GetPostsOptions.type options' = GetPostsOptions.type options ->
  GetPostsOptions.userId options' = GetPostsOptions.userId options ->
  GetPostsOptions.parentId options' = GetPostsOptions.parentId options ->
  GetPostsOptions.sortBy options' = GetPostsOptions.sortBy options ->
  GetPostsOptions.limit options' = GetPostsOptions.limit options ->
  GetPostsOptions.viewerUserId options' = GetPostsOptions.viewerUserId options ->
  cursorConditions newDate (default NEWEST (GetPostsOptions.sortBy options))
    (GetPostsOptions.cursor options')
  = cursorConditions newDate (default NEWEST (GetPostsOptions.sortBy options))
      (GetPostsOptions.cursor options) ->
  getPosts newDate db options' = getPosts newDate db options.
Proof.
  intros H1 H2 H3 H4 H5 H6 H7 H8 Hc.
  unfold getPosts, fetch, conditionsOf, filterConditions.
  now rewrite H1, H2, H3, H4, H5, H6, H7, H8, Hc.
Qed.

(** C2, as the code has it. The cursor is split at every [:] and the first
    two pieces are its halves. Whenever a half is missing or empty,
    [getPosts] behaves exactly as with no cursor, so it returns the first
    page and raises nothing of its own; when both halves are present the
    row comparison is built from whatever they parse to, with no check of
    the parse. *)
Theorem getPosts_missing_half_is_no_cursor newDate db options cursor :
  (half_missing cursor ->
   getPosts newDate db (GetPostsOptions.with_cursor (Some cursor) options)
   = getPosts newDate db (GetPostsOptions.with_cursor None options)) /\
  (forall cursorValue cursorId rest,
     JS.split ":" cursor = cursorValue :: cursorId :: rest ->
     cursorValue <> "" -> cursorId <> "" ->
     let sortBy := default NEWEST (GetPostsOptions.sortBy options) in
     cursorConditions newDate sortBy (Some cursor)
     = [cursorComparison sortBy (parseKey newDate sortBy cursorValue)
          (JS.parseInt cursorId)]).
Proof.
  split.
  - intros H. apply getPosts_cursorConditions; try reflexivity.
    cbn [GetPostsOptions.with_cursor GetPostsOptions.cursor GetPostsOptions.sortBy].
    now rewrite cursorConditions_missing.
  - intros cursorValue cursorId rest Hs Hv Hi sortBy.
    now apply cursorConditions_present with rest.
Qed.

Lemma getPosts_missing_half_is_no_cursor_witness :
  let options := Examples.options MOST_SAVED None 2 in
  half_missing "garbage" /\ half_missing ":4" /\ half_missing "4:" /\
  getPosts (fun _ => None) Examples.five
    (GetPostsOptions.with_cursor (Some "garbage") options)
  = getPosts (fun _ => None) Examples.five
      (GetPostsOptions.with_cursor None options) /\
  Examples.page
    (getPosts (fun _ => None) Examples.five
       (GetPostsOptions.with_cursor (Some "garbage") options))
  = Some ([1; 2], true, Some "4:2").
Proof.
  intros options.
  assert (H : half_missing "garbage") by exact I.
  split; [exact H|]. split; [now left|]. split; [now right|].
  split; [|reflexivity].
  exact (proj1 (getPosts_missing_half_is_no_cursor (fun _ => None)
                  Examples.five options "garbage") H).
Defined.

(** C2, as the specification has it, fails: the halves of ["abc:def"] are
    present and neither parses as an integer, yet the call is not the
    call without a cursor. The comparison is built on [NaN] and the store
    refuses the statement, where the call without a cursor returns the
    first page. *)
Lemma unparsable_cursor_is_not_no_cursor :
  half_unparsable (fun _ => None) MOST_SAVED "abc:def" /\
  getPosts (fun _ => None) Examples.five
    (Examples.options MOST_SAVED (Some "abc:def") 2)
  = Throw StoreRejected /\
  Examples.page
    (getPosts (fun _ => None) Examples.five
       (Examples.options MOST_SAVED None 2))
  = Some ([1; 2], true, Some "4:2") /\
  getPosts (fun _ => None) Examples.five
    (Examples.options MOST_SAVED (Some "abc:def") 2)
  <> getPosts (fun _ => None) Examples.five
       (Examples.options MOST_SAVED None 2).
Proof.
  split; [|split; [|split]].
  - unfold half_unparsable. simpl. repeat split; try discriminate. now left.
  - reflexivity.
  - reflexivity.
  - vm_compute. discriminate.
Qed.

(* ------------------------------------------------------------------ *)
(** ** Count cursors are read back as they were written *)

Lemma parse_digits_string_of_uint (d : Decimal.uint) (acc : Z) (rest : string) :
  JS.parse_digits acc (NilEmpty.string_of_uint d ++ rest)
  = JS.parse_digits (uint_value acc d) rest.
Proof.
  revert acc. induction d; intros acc; simpl; trivial;
    rewrite IHd, ?Z.add_0_r; reflexivity.
Qed.

Lemma uint_value_of_uint_acc (d : Decimal.uint) (acc : positive) :
  uint_value (Zpos acc) d = Zpos (Pos.of_uint_acc d acc).
Proof.
  revert acc. induction d; intros acc; cbn [uint_value Pos.of_uint_acc];
    trivial; rewrite <- IHd; f_equal; lia.
Qed.

Lemma uint_value_of_uint (d : Decimal.uint) :
  uint_value 0 d = Z.of_N (Pos.of_uint d).
Proof.
  induction d; cbn [uint_value Pos.of_uint]; trivial;
    apply (uint_value_of_uint_acc d).
Qed.

Lemma split_string_of_uint (d : Decimal.uint) (rest : string) :
  JS.split ":" (NilEmpty.string_of_uint d ++ String ":" rest)
  = NilEmpty.string_of_uint d :: JS.split ":" rest.
Proof.
  induction d; simpl; trivial; now rewrite IHd.
Qed.

Lemma split_string_of_uint_end (d : Decimal.uint) :
  JS.split ":" (NilEmpty.string_of_uint d) = [NilEmpty.string_of_uint d].
Proof.
  induction d; simpl; trivial; now rewrite IHd.
Qed.

(** The printed form of an integer: an optional minus sign and at least
    one digit, the digits of its absolute value. *)
Lemma string_of_Z_shape (z : Z) :
  exists d,
    d <> Decimal.Nil /\ uint_value 0 d = Z.abs z /\
    JS.string_of_Z z
    = if z <? 0 then String "-" (NilEmpty.string_of_uint d)
      else NilEmpty.string_of_uint d.
Proof.
  destruct z as [|p|p].
  - exists (Decimal.D0 Decimal.Nil). repeat split. discriminate.
  - exists (Pos.to_uint p).
    assert (Hd : Pos.to_uint p <> Decimal.Nil).
    { intros H. pose proof (DecimalPos.Unsigned.of_to p) as E.
      rewrite H in E. discriminate. }
    split; [exact Hd|]. split.
    + rewrite uint_value_of_uint, DecimalPos.Unsigned.of_to. reflexivity.
    + unfold JS.string_of_Z. simpl.
      destruct (Pos.to_uint p); [congruence | reflexivity ..].
  - exists (Pos.to_uint p).
    assert (Hd : Pos.to_uint p <> Decimal.Nil).
    { intros H. pose proof (DecimalPos.Unsigned.of_to p) as E.
      rewrite H in E. discriminate. }
    split; [exact Hd|]. split.
    + rewrite uint_value_of_uint, DecimalPos.Unsigned.of_to. reflexivity.
    + unfold JS.string_of_Z. simpl.
      destruct (Pos.to_uint p); [congruence | reflexivity ..].
Qed.

Lemma starts_with_digit_string_of_uint (d : Decimal.uint) :
  d <> Decimal.Nil -> JS.starts_with_digit (NilEmpty.string_of_uint d) = true.
Proof. destruct d; trivial. congruence. Qed.

Lemma append_empty_r (s : string) : s ++ "" = s.
Proof. induction s; simpl; congruence. Qed.

Lemma parseInt_minus (s : string) :
  JS.parseInt (String "-" s)
  = if JS.starts_with_digit s then Some (-1 * JS.parse_digits 0 s) else None.
Proof. reflexivity. Qed.

Lemma parseInt_digits (s : string) :
  JS.starts_with_digit s = true ->
  JS.parseInt s = Some (1 * JS.parse_digits 0 s).
Proof.
  destruct s as [|c s]; [discriminate|].
  destruct c as [[] [] [] [] [] [] [] []]; intros H;
    try (vm_compute in H; discriminate H); reflexivity.
Qed.

Lemma parseInt_string_of_Z (z : Z) : JS.parseInt (JS.string_of_Z z) = Some z.
Proof.
  destruct (string_of_Z_shape z) as (d & Hd & Hv & ->).
  pose proof (parse_digits_string_of_uint d 0 "") as P.
  rewrite append_empty_r in P. simpl in P.
  pose proof (starts_with_digit_string_of_uint d Hd) as S.
  destruct (Z.ltb_spec z 0) as [Hz|Hz].
  - rewrite parseInt_minus, S, P, Hv. f_equal. lia.
  - rewrite (parseInt_digits _ S), P, Hv. f_equal. lia.
Qed.

Lemma truthy_string_of_Z (z : Z) : JS.truthy_string (JS.string_of_Z z) = true.
Proof.
  destruct (string_of_Z_shape z) as (d & Hd & _ & ->).
  destruct (z <? 0); trivial. destruct d; trivial. congruence.
Qed.

Lemma split_count_cursor_halves (a b : Z) :
  JS.split ":" (JS.string_of_Z a ++ ":" ++ JS.string_of_Z b)
  = [JS.string_of_Z a; JS.string_of_Z b].
Proof.
  assert (Hb : JS.split ":" (JS.string_of_Z b) = [JS.string_of_Z b]).
  { destruct (string_of_Z_shape b) as (d & _ & _ & ->).
    destruct (b <? 0); simpl; now rewrite split_string_of_uint_end. }
  destruct (string_of_Z_shape a) as (d & _ & _ & ->).
  change (":" ++ JS.string_of_Z b) with (String ":" (JS.string_of_Z b)).
  destruct (a <? 0); simpl; now rewrite split_string_of_uint, Hb.
Qed.

(* ------------------------------------------------------------------ *)
(** ** Filtering a sorted listing *)

Section SortFilter.

Context {A : Type} (leb : A -> A -> bool).

Hypothesis leb_total : forall a b, leb a b = true \/ leb b a = true.
Hypothesis leb_trans :
  forall a b c, leb a b = true -> leb b c = true -> leb a c = true.

Let le (a b : A) : Prop := leb a b = true.

Lemma sort_strongly_sorted (l : list A) : StronglySorted le (Sql.sort leb l).
Proof.
  apply Sorted_StronglySorted.
  - intros a b c. apply leb_trans.
  - now apply sort_sorted.
Qed.

Lemma insert_below (x : A) (l : list A) :
  (forall z, In z l -> leb x z = true) -> Sql.insert leb x l = x :: l.
Proof.
  destruct l as [|y l]; simpl; trivial.
  intros H. now rewrite (H y) by now left.
Qed.

Lemma filter_insert (P : A -> bool) (x : A) (l : list A) :
  StronglySorted le l ->
  filter P (Sql.insert leb x l)
  = if P x then Sql.insert leb x (filter P l) else filter P l.
Proof.
  induction 1 as [|y l Hs IH Hall]; simpl.
  - now destruct (P x).
  - destruct (leb x y) eqn:E; simpl.
    + destruct (P x); trivial.
      symmetry. apply insert_below with (l := filter P (y :: l)).
      intros z Hz. apply filter_In in Hz as ([<-|Hz] & _); trivial.
      apply leb_trans with y; trivial.
      rewrite Forall_forall in Hall. now apply Hall.
    + rewrite IH. destruct (P y), (P x); simpl; trivial.
      now rewrite E.
Qed.

Lemma filter_sort (P : A -> bool) (l : list A) :
  filter P (Sql.sort leb l) = Sql.sort leb (filter P l).
Proof.
  induction l as [|x l IH]; simpl; trivial.
  rewrite filter_insert by apply sort_strongly_sorted.
  rewrite IH. now destruct (P x).
Qed.

End SortFilter.

Lemma order_leb_trans orderBy (p q r : Post) :
  Sql.order_leb orderBy p q = true -> Sql.order_leb orderBy q r = true ->
  Sql.order_leb orderBy p r = true.
Proof.
  induction orderBy as [|[c|c] rest IH]; simpl; trivial;
    destruct (Z.ltb_spec (Sql.value c p) (Sql.value c q));
    destruct (Z.ltb_spec (Sql.value c q) (Sql.value c r));
    destruct (Z.ltb_spec (Sql.value c p) (Sql.value c r));
    destruct (Z.ltb_spec (Sql.value c q) (Sql.value c p));
    destruct (Z.ltb_spec (Sql.value c r) (Sql.value c q));
    destruct (Z.ltb_spec (Sql.value c r) (Sql.value c p));
    destruct (Z.eqb_spec (Sql.value c p) (Sql.value c q));
    destruct (Z.eqb_spec (Sql.value c q) (Sql.value c r));
    destruct (Z.eqb_spec (Sql.value c p) (Sql.value c r));
    auto; try discriminate; lia.
Qed.

Lemma filter_all_false {A} (f : A -> bool) (l : list A) :
  (forall x, In x l -> f x = false) -> filter f l = [].
Proof.
  induction l as [|y l IH]; simpl; trivial.
  intros H. rewrite (H y) by now left. apply IH. intros x Hx. apply H. now right.
Qed.

Lemma filter_all_true {A} (f : A -> bool) (l : list A) :
  (forall x, In x l -> f x = true) -> filter f l = l.
Proof.
  induction l as [|y l IH]; simpl; trivial.
  intros H. rewrite (H y) by now left. f_equal. apply IH.
  intros x Hx. apply H. now right.
Qed.

Lemma StronglySorted_split {A} (R : A -> A -> Prop) (l1 l2 : list A) (x : A) :
  StronglySorted R (l1 ++ x :: l2)%list ->
  Forall (fun y => R y x) l1 /\ Forall (R x) l2.
Proof.
  induction l1 as [|y l1 IH]; simpl; intros H; inversion H; subst.
  - split; [constructor | assumption].
  - destruct (IH H2) as (H1 & H2'). split; trivial.
    constructor; trivial.
    match goal with F : Forall (R y) _ |- _ => rewrite Forall_forall in F; apply F end.
    apply in_or_app. right. now left.
Qed.

(** Under one order a row is never both before and beyond another, and
    never beyond itself. *)
Lemma beyond_asym sortBy (p q : Post) :
  precedes sortBy p q -> ~ beyond sortBy (sortKey sortBy q) (Post.id q) p.
Proof. unfold precedes, beyond. destruct (descending sortBy); lia. Qed.

Lemma beyond_irrefl sortBy (p : Post) :
  ~ beyond sortBy (sortKey sortBy p) (Post.id p) p.
Proof. unfold beyond. destruct (descending sortBy); lia. Qed.

Lemma precedes_eq_strict sortBy (p q : Post) :
  precedes_eq sortBy p q -> Post.id p <> Post.id q -> precedes sortBy p q.
Proof. intros [H|(_ & H)] Hne; [exact H | contradiction]. Qed.

(** The rows of a sorted listing that lie beyond one of its rows are the
    rows that follow it. *)
Lemma filter_beyond sortBy (before after : list Sql.Row) (x : Sql.Row) :
  StronglySorted (fun r1 r2 => precedes_eq sortBy (Sql.post r1) (Sql.post r2))
    (before ++ x :: after)%list ->
  NoDup (map (fun r => Post.id (Sql.post r)) (before ++ x :: after)%list) ->
  filter
    (fun r =>
       Sql.holds
         (cursorComparison sortBy (Some (sortKey sortBy (Sql.post x)))
            (Some (Post.id (Sql.post x))))
         (Sql.post r))
    (before ++ x :: after)%list
  = after.
Proof.
  intros Hs Hn. apply StronglySorted_split in Hs as (Hb & Ha).
  rewrite Forall_forall in Hb, Ha.
  rewrite map_app in Hn. simpl in Hn.
  pose proof (NoDup_remove_2 _ _ _ Hn) as Hx.
  rewrite filter_app. simpl.
  rewrite filter_all_false.
  - destruct (Sql.holds _ (Sql.post x)) eqn:E.
    + apply cursorComparison_holds in E. now apply beyond_irrefl in E.
    + simpl. apply filter_all_true. intros z Hz.
      apply cursorComparison_holds.
      apply (precedes_eq_strict sortBy (Sql.post x) (Sql.post z)); auto.
      intros Heq. apply Hx. apply in_or_app. right.
      rewrite Heq. now apply (in_map (fun r => Post.id (Sql.post r))).
  - intros y Hy.
    destruct (Sql.holds _ (Sql.post y)) eqn:E; trivial.
    apply cursorComparison_holds in E. exfalso.
    apply (beyond_asym sortBy (Sql.post y) (Sql.post x)); trivial.
    apply precedes_eq_strict; auto.
    intros Heq. apply Hx. apply in_or_app. left.
    rewrite <- Heq. now apply (in_map (fun r => Post.id (Sql.post r))).
Qed.

(* ------------------------------------------------------------------ *)
(** ** Reachable stores respect the keys *)

Lemma posts_ok_map (f : Post -> Post) (posts : list Post) (seq : Z) :
  (forall p, Post.id (f p) = Post.id p /\ Post.parentId (f p) = Post.parentId p) ->
  posts_ok posts seq -> posts_ok (map f posts) seq.
Proof.
  intros Hf (Hnd & Hall). split.
  - rewrite map_map.
    rewrite (map_ext (fun p => Post.id (f p)) Post.id); trivial.
    intros p. apply Hf.
  - intros p Hp. apply in_map_iff in Hp as (q & <- & Hq).
    destruct (Hf q) as (-> & ->). auto.
Qed.

Lemma posts_ok_insert (row : Post) (posts : list Post) (seq : Z) :
  Post.id row = seq -> 1 <= seq -> Post.parentId row <> Some 0 ->
  posts_ok posts seq -> posts_ok (posts ++ [row]) (seq + 1).
Proof.
  intros Hid Hseq Hpar (Hnd & Hall). split.
  - rewrite map_app. simpl. apply NoDup_app; trivial.
    + repeat constructor. intros [].
    + intros i Hi [<-|[]]. apply in_map_iff in Hi as (q & E & Hq).
      destruct (Hall q Hq) as (Hlt & _). lia.
  - intros p Hp. apply in_app_or in Hp as [Hp|[<-|[]]].
    + destruct (Hall p Hp) as (Hlt & Hq). split; [lia | exact Hq].
    + split; [lia | exact Hpar].
Qed.

Lemma update_keeps_keys (set : Post -> Post) (id : Z) :
  (forall p, Post.id (set p) = Post.id p /\ Post.parentId (set p) = Post.parentId p) ->
  forall p,
    Post.id (if Post.id p =? id then set p else p) = Post.id p /\
    Post.parentId (if Post.id p =? id then set p else p) = Post.parentId p.
Proof. intros H p. destruct (Post.id p =? id); auto. Qed.

Lemma step_store_ok db db' :
  1 <= Db.posts_id_seq db -> store_ok db -> step db db' ->
  1 <= Db.posts_id_seq db' /\ store_ok db'.
Proof.
  unfold store_ok. intros Hseq H St. destruct St as
    [data now db r db' E | data now db r db' E | postId userId now db r db' E
    | postId url now db r db' E | postId status now db r db' E
    | userId postId db r db' E | userId postId db r db' E | db profiles].
  - unfold createPost, tx_insert_post in E. injection E as _ <-.
    cbn [Db.posts Db.posts_id_seq Db.with_posts Db.with_posts_id_seq].
    split; [lia|]. apply posts_ok_insert; trivial. discriminate.
  - pose proof (createResponse_unfold data now db) as U.
    destruct (Sql.select_post db _) as [parent|] eqn:S; rewrite U in E;
      injection E as _ <-; [|now split].
    cbn [Db.posts Db.posts_id_seq]. split; [lia|].
    apply posts_ok_map.
    + intros p. unfold incrementParent. destruct (Post.id p =? _); split; reflexivity.
    + apply posts_ok_insert; trivial.
      apply select_active_Some in S as (Hin & Hid & _).
      destruct H as (_ & Hall). destruct (Hall parent Hin) as (Hlt & _).
      simpl. intros [= E0]. lia.
  - pose proof (deletePost_unfold postId userId now db) as U.
    destruct (Sql.select_post db _) as [post|].
    + destruct (Post.userId post =? userId); rewrite U in E;
        injection E as _ <-; [|now split].
      cbn [Db.posts Db.posts_id_seq Db.with_posts]. split; trivial.
      apply posts_ok_map; [|apply posts_ok_map; trivial].
      * intros p. unfold decrementParent.
        destruct (JS.truthy_opt_number _); [|now split].
        destruct (Post.id p =? _); split; reflexivity.
      * intros p. unfold softDelete. destruct (Post.id p =? _); split; reflexivity.
    + rewrite U in E. injection E as _ <-. now split.
  - unfold updatePostWaveformUrl, tx_update_post in E. injection E as _ <-.
    cbn [Db.posts Db.posts_id_seq Db.with_posts]. split; trivial.
    apply posts_ok_map; trivial. now apply update_keeps_keys.
  - unfold updatePostStatus, tx_update_post in E. injection E as _ <-.
    cbn [Db.posts Db.posts_id_seq Db.with_posts]. split; trivial.
    apply posts_ok_map; trivial. now apply update_keeps_keys.
  - unfold addBookmark, withTransaction in E.
    destruct (existsb _ _); [injection E as _ <-; now split|].
    unfold tx_update_post in E. injection E as _ <-.
    cbn [Db.posts Db.posts_id_seq Db.with_posts Db.with_bookmarks].
    split; trivial. apply posts_ok_map; trivial. now apply update_keeps_keys.
  - unfold removeBookmark, withTransaction in E.
    destruct (existsb _ _); [|injection E as _ <-; now split].
    unfold tx_update_post in E. injection E as _ <-.
    cbn [Db.posts Db.posts_id_seq Db.with_posts Db.with_bookmarks].
    split; trivial. apply posts_ok_map; trivial. now apply update_keeps_keys.
  - now split.
Qed.

(** Every store the operations reach has distinct post ids and no row
    with parent 0: the assumptions made of a store above hold of it. *)
Lemma reachable_store_ok db :
  reachable db -> unique_ids db /\ parentIds_valid db.
Proof.
  intros R.
  assert (H : 1 <= Db.posts_id_seq db /\ store_ok db).
  { induction R as [|db db' _ IH St].
    - split; [simpl; lia|]. split; [constructor | intros p []].
    - destruct IH as (Hseq & Hok). exact (step_store_ok db db' Hseq Hok St). }
  destruct H as (_ & Hnd & Hall). split; trivial.
  intros p Hp. now apply Hall.
Qed.

(* ------------------------------------------------------------------ *)
(** ** Paging through a listing ordered by a counter *)

Lemma cursorConditions_cursorOf newDate sortBy (p : Post) :
  count_based sortBy = true ->
  cursorConditions newDate sortBy (Some (cursorOf sortBy p))
  = [cursorComparison sortBy (Some (sortKey sortBy p)) (Some (Post.id p))].
Proof.
  intros Hc.
  assert (Hs : JS.split ":" (cursorOf sortBy p)
               = [JS.string_of_Z (sortKey sortBy p); JS.string_of_Z (Post.id p)]).
  { destruct sortBy; try discriminate Hc; apply split_count_cursor_halves. }
  assert (Hne : forall z, JS.string_of_Z z <> "").
  { intros z H. pose proof (truthy_string_of_Z z) as T. now rewrite H in T. }
  rewrite (cursorConditions_present _ _ _ _ _ _ Hs (Hne _) (Hne _)).
  rewrite parseInt_string_of_Z.
  destruct sortBy; try discriminate Hc; simpl; now rewrite parseInt_string_of_Z.
Qed.

Lemma filterConditions_bindable options :
  forallb Sql.bindable (filterConditions options) = negb (tagsGiven options).
Proof.
  unfold filterConditions, tagsGiven.
  destruct (GetPostsOptions.city options) as [c|]; [destruct (JS.truthy_string c)|];
    (destruct (GetPostsOptions.userId options) as [u|]; [destruct (JS.truthy_number u)|]);
    (destruct (GetPostsOptions.parentId options) as [q|]; [destruct (JS.truthy_number q)|]);
    (destruct (GetPostsOptions.tags options) as [t|]; [destruct (0 <? List.length t)%nat|]);
    reflexivity.
Qed.

Lemma filter_andb {A} (f g : A -> bool) (l : list A) :
  filter (fun x => andb (f x) (g x)) l = filter g (filter f l).
Proof.
  induction l as [|x l IH]; simpl; trivial.
  destruct (f x); simpl; [destruct (g x)|]; now rewrite IH.
Qed.

Lemma where_app conditions1 conditions2 (p : Post) :
  Sql.where_ (conditions1 ++ conditions2)%list p
  = andb (Sql.where_ conditions1 p) (Sql.where_ conditions2 p).
Proof. apply forallb_app. Qed.

(** The whole listing in the order of the strategy. *)
Lemma rows_sort_filter db conditions1 conditions2 orderBy limit :
  Sql.rows db (conditions1 ++ conditions2)%list orderBy limit
  = firstn limit
      (filter (fun r => Sql.where_ conditions2 (Sql.post r))
         (Sql.sort (fun r1 r2 => Sql.order_leb orderBy (Sql.post r1) (Sql.post r2))
            (filter (fun r => Sql.where_ conditions1 (Sql.post r))
               (Sql.posts_join_userProfiles db)))).
Proof.
  unfold Sql.rows. f_equal.
  rewrite filter_sort.
  - f_equal. rewrite <- filter_andb. apply filter_ext.
    intros r. apply where_app.
  - intros a b. apply order_leb_total.
  - intros a b c. apply order_leb_trans.
Qed.

Lemma NoDup_map_filter {A B} (f : A -> B) (P : A -> bool) (l : list A) :
  NoDup (map f l) -> NoDup (map f (filter P l)).
Proof.
  induction l as [|x l IH]; simpl; intros H; [constructor|].
  inversion H as [|? ? Hnotin Hnd]; subst.
  destruct (P x); simpl; auto.
  constructor; auto.
  intros Hin. apply Hnotin. apply in_map_iff in Hin as (y & E & Hy).
  apply filter_In in Hy as (Hy & _). rewrite <- E. now apply in_map.
Qed.

Section Traversal.

Variable newDate : string -> option Z.
Variable db : Db.
Variable options : GetPostsOptions.

Let sortBy := default NEWEST (GetPostsOptions.sortBy options).
Let n := default 20%nat (GetPostsOptions.limit options).

Let listing : list Sql.Row :=
  Sql.sort
    (fun r1 r2 => Sql.order_leb (orderByOf sortBy) (Sql.post r1) (Sql.post r2))
    (matching db options).

Hypothesis Hcount : count_based sortBy = true.
Hypothesis Hlimit : (0 < n)%nat.
Hypothesis Hids : NoDup (map rowId (Sql.posts_join_userProfiles db)).
Hypothesis Htags : tagsGiven options = false.

Lemma listing_perm : Permutation listing (matching db options).
Proof. apply sort_perm. Qed.

Lemma listing_NoDup : NoDup (map rowId listing).
Proof.
  apply Permutation_NoDup with (map rowId (matching db options)).
  - apply Permutation_map, Permutation_sym, listing_perm.
  - unfold matching. now apply NoDup_map_filter.
Qed.

Lemma listing_sorted :
  StronglySorted
    (fun r1 r2 => precedes_eq sortBy (Sql.post r1) (Sql.post r2)) listing.
Proof.
  assert (H : StronglySorted
                (fun r1 r2 =>
                   Sql.order_leb (orderByOf sortBy) (Sql.post r1) (Sql.post r2) = true)
                listing).
  { apply sort_strongly_sorted.
    - intros a b. apply order_leb_total.
    - intros a b c. apply order_leb_trans. }
  induction H as [|r l Hs IH Hall]; constructor; trivial.
  rewrite Forall_forall in *. intros x Hx.
  apply order_leb_precedes_eq. now apply Hall.
Qed.

(** The query without a cursor fetches the head of the listing. *)
Lemma fetch_first :
  fetch newDate db (GetPostsOptions.with_cursor None options)
  = Ok (firstn (n + 1) listing).
Proof.
  unfold fetch, conditionsOf, Sql.select_posts.
  change (filterConditions (GetPostsOptions.with_cursor None options))
    with (filterConditions options).
  cbn [GetPostsOptions.with_cursor GetPostsOptions.sortBy GetPostsOptions.limit
       GetPostsOptions.cursor cursorConditions].
  rewrite app_nil_r, filterConditions_bindable, Htags. reflexivity.
Qed.

(** The query with the cursor of a row of the listing fetches the head of
    what follows that row. *)
Lemma fetch_next (before after : list Sql.Row) (x : Sql.Row) :
  listing = (before ++ x :: after)%list ->
  fetch newDate db
    (GetPostsOptions.with_cursor (Some (cursorOf sortBy (Sql.post x))) options)
  = Ok (firstn (n + 1) after).
Proof.
  intros HL. unfold fetch, conditionsOf, Sql.select_posts.
  change (filterConditions (GetPostsOptions.with_cursor _ options))
    with (filterConditions options).
  cbn [GetPostsOptions.with_cursor GetPostsOptions.sortBy GetPostsOptions.limit
       GetPostsOptions.cursor].
  fold sortBy n.
  rewrite (cursorConditions_cursorOf newDate sortBy (Sql.post x) Hcount).
  rewrite forallb_app, filterConditions_bindable, Htags.
  assert (Hb : forallb Sql.bindable
                 [cursorComparison sortBy (Some (sortKey sortBy (Sql.post x)))
                    (Some (Post.id (Sql.post x)))] = true).
  { unfold cursorComparison. now destruct (descending sortBy). }
  rewrite Hb. cbn [andb negb]. f_equal.
  rewrite rows_sort_filter. f_equal.
  fold (matching db options). fold listing.
  rewrite <- (filter_beyond sortBy before after x).
  - rewrite HL. apply filter_ext. intros r.
    unfold Sql.where_. simpl. now rewrite andb_true_r.
  - rewrite <- HL. apply listing_sorted.
  - rewrite <- HL. apply listing_NoDup.
Qed.

Lemma fetch_at (shown rest : list Sql.Row) (cursor : option string) :
  listing = (shown ++ rest)%list ->
  position sortBy shown cursor ->
  fetch newDate db (GetPostsOptions.with_cursor cursor options)
  = Ok (firstn (n + 1) rest).
Proof.
  intros HL Hp. destruct cursor as [c|]; simpl in Hp.
  - destruct Hp as (before & x & -> & ->).
    apply fetch_next with before. now rewrite HL, <- app_assoc.
  - subst shown. rewrite fetch_first. now rewrite HL.
Qed.

Lemma nth_error_last {A} (l : list A) (x : A) :
  nth_error l (List.length l - 1) = Some x ->
  exists front, l = (front ++ [x])%list.
Proof.
  destruct l as [|a l] using rev_ind; [discriminate|]. clear IHl.
  rewrite length_app. simpl. rewrite Nat.add_sub.
  rewrite nth_error_app2, Nat.sub_diag by apply Nat.le_refl.
  intros [= <-]. now exists l.
Qed.

(** One call from a position of the traversal. *)
Lemma getPosts_at (shown rest : list Sql.Row) (cursor : option string) :
  listing = (shown ++ rest)%list ->
  position sortBy shown cursor ->
  exists result,
    getPosts newDate db (GetPostsOptions.with_cursor cursor options) = Ok result /\
    map rowOf (GetPostsResult.posts result) = firstn n rest /\
    ((List.length rest <= n)%nat -> GetPostsResult.nextCursor result = None) /\
    ((n < List.length rest)%nat ->
     position sortBy (shown ++ firstn n rest)%list
       (GetPostsResult.nextCursor result) /\
     GetPostsResult.nextCursor result <> None).
Proof.
  intros HL Hp. unfold getPosts. rewrite (fetch_at shown rest cursor HL Hp).
  cbn [GetPostsOptions.with_cursor GetPostsOptions.sortBy GetPostsOptions.limit
       GetPostsOptions.viewerUserId].
  fold sortBy n.
  assert (Hff : firstn n (firstn (n + 1) rest) = firstn n rest).
  { rewrite firstn_firstn. f_equal. apply Nat.min_l. apply Nat.le_add_r. }
  rewrite Hff.
  eexists. split; [reflexivity|].
  cbn [GetPostsResult.posts GetPostsResult.nextCursor].
  split; [|split].
  - rewrite map_map. unfold rowOf. simpl.
    rewrite <- (map_id (firstn n rest)) at 2.
    apply map_ext. now intros [].
  - intros Hle. rewrite firstn_all2 by (rewrite Nat.add_1_r; auto).
    apply Nat.ltb_ge in Hle. now rewrite Hle.
  - intros Hlt.
    assert (Hlen : List.length (firstn (n + 1) rest) = (n + 1)%nat).
    { rewrite length_firstn. apply Nat.min_l. rewrite Nat.add_1_r. exact Hlt. }
    assert (Hlen' : List.length (firstn n rest) = n).
    { rewrite length_firstn. apply Nat.min_l. now apply Nat.lt_le_incl. }
    rewrite Hlen, Hlen'.
    assert (H1 : (n <? n + 1)%nat = true)
      by (apply Nat.ltb_lt; rewrite Nat.add_1_r; apply Nat.lt_succ_diag_r).
    rewrite H1, (proj2 (Nat.ltb_lt 0 n) Hlimit). cbn [andb].
    destruct (nth_error (firstn n rest) (n - 1)) as [lastRow|] eqn:Hnth.
    + split; [|discriminate]. simpl.
      rewrite <- Hlen' in Hnth at 2.
      apply nth_error_last in Hnth as (front & Hfront).
      exists (shown ++ front)%list, lastRow. split; [|reflexivity].
      now rewrite Hfront, app_assoc.
    + apply nth_error_None in Hnth. rewrite Hlen' in Hnth.
      exfalso. revert Hnth. apply Nat.lt_nge.
      destruct n; [inversion Hlimit|]. simpl. rewrite Nat.sub_0_r.
      apply Nat.lt_succ_diag_r.
Qed.

(** From any position, a client with enough calls left sees exactly the
    rest of the listing, page after page. *)
Lemma traverse_from (k : nat) :
  forall (shown rest : list Sql.Row) (cursor : option string) (fuel : nat),
    (List.length rest <= k)%nat ->
    listing = (shown ++ rest)%list ->
    position sortBy shown cursor ->
    (List.length rest < fuel)%nat ->
    exists pages,
      traverse newDate fuel db options cursor = Some pages /\
      map rowOf (List.concat pages) = rest /\
      Forall (fun page => (List.length page <= n)%nat) pages.
Proof.
  induction k as [|k IH]; intros shown rest cursor fuel Hk HL Hp Hfuel;
    (destruct fuel as [|fuel]; [inversion Hfuel|]);
    destruct (getPosts_at shown rest cursor HL Hp)
      as (result & Hg & Hrows & Hend & Hmore);
    cbn [traverse]; rewrite Hg.
  - assert (Hrest : rest = []) by (destruct rest; [reflexivity | inversion Hk]).
    subst rest. rewrite Hend by apply Nat.le_0_l.
    exists [GetPostsResult.posts result]. split; [reflexivity|].
    cbn [List.concat]. rewrite app_nil_r, Hrows. split; [now rewrite firstn_nil|].
    constructor; [|constructor].
    rewrite <- (length_map rowOf), Hrows. rewrite firstn_nil. apply Nat.le_0_l.
  - assert (Hpage : (List.length (GetPostsResult.posts result) <= n)%nat).
    { rewrite <- (length_map rowOf), Hrows, length_firstn. apply Nat.le_min_l. }
    destruct (Nat.le_gt_cases (List.length rest) n) as [Hle|Hlt].
    + rewrite (Hend Hle).
      exists [GetPostsResult.posts result]. split; [reflexivity|].
      cbn [List.concat]. rewrite app_nil_r, Hrows. split.
      * now apply firstn_all2.
      * constructor; [exact Hpage | constructor].
    + destruct (Hmore Hlt) as (Hpos & Hsome).
      destruct (GetPostsResult.nextCursor result) as [c|]; [|congruence].
      assert (Hskip : (List.length (skipn n rest) < List.length rest)%nat).
      { rewrite length_skipn. apply Nat.sub_lt; [now apply Nat.lt_le_incl | exact Hlimit]. }
      destruct (IH (shown ++ firstn n rest)%list (skipn n rest) (Some c) fuel)
        as (pages & Ht & Hc & Hall).
      * apply Nat.lt_succ_r. apply Nat.lt_le_trans with (List.length rest); trivial.
      * now rewrite <- app_assoc, firstn_skipn.
      * exact Hpos.
      * apply Nat.lt_le_trans with (List.length rest); trivial.
        now apply Nat.lt_succ_r.
      * rewrite Ht. exists (GetPostsResult.posts result :: pages).
        split; [reflexivity|]. split.
        -- cbn [List.concat]. rewrite map_app, Hrows, Hc. apply firstn_skipn.
        -- now constructor.
Qed.

End Traversal.

(** With the primary key of [posts] and the unique profile of a user, no
    post is selected twice. *)
Lemma filter_key_unique {A} (f : A -> Z) (k : Z) (l : list A) :
  NoDup (map f l) ->
  (List.length (filter (fun a => Z.eqb k (f a)) l) <= 1)%nat.
Proof.
  induction l as [|a l IH]; simpl; intros H; [apply Nat.le_0_l|].
  inversion H as [|? ? Hnotin Hnd]; subst.
  destruct (Z.eqb_spec k (f a)) as [->|]; auto.
  rewrite filter_all_false; [apply Nat.le_refl|].
  intros x Hx. apply Z.eqb_neq. intros E. apply Hnotin.
  rewrite E. now apply in_map.
Qed.

Lemma join_NoDup (db : Db) :
  unique_ids db -> unique_profiles db ->
  NoDup (map rowId (Sql.posts_join_userProfiles db)).
Proof.
  unfold unique_ids, unique_profiles, Sql.posts_join_userProfiles.
  intros Hids Hprof. induction (Db.posts db) as [|p ps IH]; simpl; [constructor|].
  inversion Hids as [|? ? Hnotin Hnd]; subst.
  rewrite map_app. apply NoDup_app.
  - pose proof (filter_key_unique Author.userId (Post.userId p) _ Hprof) as Hlen.
    destruct (filter _ (Db.userProfiles db)) as [|a [|a' l]]; simpl.
    + constructor.
    + constructor; [intros [] | constructor].
    + simpl in Hlen. exfalso. revert Hlen. apply Nat.lt_nge.
      apply -> Nat.succ_lt_mono. apply Nat.lt_0_succ.
  - now apply IH.
  - intros i Hi Hi'. apply Hnotin.
    apply in_map_iff in Hi as (r & <- & Hr).
    apply in_map_iff in Hr as (a & <- & _).
    apply in_map_iff in Hi' as (r' & E & Hr').
    apply in_flat_map in Hr' as (q & Hq & Hr').
    apply in_map_iff in Hr' as (a' & <- & _).
    unfold rowId in E. simpl in E. rewrite <- E. now apply in_map.
Qed.

Lemma StronglySorted_strict sortBy (l : list Sql.Row) :
  StronglySorted (fun r1 r2 => precedes_eq sortBy (Sql.post r1) (Sql.post r2)) l ->
  NoDup (map rowId l) ->
  StronglySorted (fun r1 r2 => precedes sortBy (Sql.post r1) (Sql.post r2)) l.
Proof.
  induction 1 as [|r l Hs IH Hall]; simpl; intros Hn; constructor;
    inversion Hn as [|? ? Hnotin Hnd]; subst; auto.
  rewrite Forall_forall in *. intros x Hx.
  apply precedes_eq_strict; auto.
  intros E. apply Hnotin. unfold rowId at 1. rewrite E.
  now apply (in_map rowId).
Qed.

(** X20. Keyset pagination by a counter is complete. For MOST_SAVED,
    LEAST_SAVED, MOST_RESPONSES and LEAST_RESPONSES, any filter by type,
    city, user and parent, no tags filter (the store refuses a statement
    with one) and any positive limit, on a store that respects the key of
    [posts] and the unique profile of a user, a client that starts without
    a cursor and passes each [nextCursor] back receives, in finitely many
    calls, pages of at most [limit] rows whose concatenation holds exactly
    the active rows that pass the filter and have an author profile, each
    once, in the strict order of the strategy. *)
Theorem count_order_traversal newDate db options fuel :
  let sortBy := default NEWEST (GetPostsOptions.sortBy options) in
  let n := default 20%nat (GetPostsOptions.limit options) in
  count_based sortBy = true ->
  (0 < n)%nat ->
  tagsGiven options = false ->
  unique_ids db -> unique_profiles db ->
  (List.length (Sql.posts_join_userProfiles db) < fuel)%nat ->
  exists pages,
    traverse newDate fuel db options None = Some pages /\
    Forall (fun page => (List.length page <= n)%nat) pages /\
    Permutation (map rowOf (List.concat pages)) (matching db options) /\
    NoDup (map rowId (map rowOf (List.concat pages))) /\
    StronglySorted
      (fun r1 r2 => precedes sortBy (Sql.post r1) (Sql.post r2))
      (map rowOf (List.concat pages)).
Proof.
  intros sortBy n Hcount Hlimit Htags Hids Hprof Hfuel.
  pose proof (join_NoDup db Hids Hprof) as Hjoin.
  set (listing :=
         Sql.sort
           (fun r1 r2 => Sql.order_leb (orderByOf sortBy) (Sql.post r1) (Sql.post r2))
           (matching db options)).
  assert (Hlen : (List.length listing <= List.length (Sql.posts_join_userProfiles db))%nat).
  { unfold listing. rewrite length_sort. unfold matching. apply filter_length_le. }
  destruct (traverse_from newDate db options Hcount Hlimit Hjoin Htags
              (List.length listing) [] listing None fuel)
    as (pages & Ht & Hc & Hall).
  - apply Nat.le_refl.
  - reflexivity.
  - reflexivity.
  - apply Nat.le_lt_trans with (List.length (Sql.posts_join_userProfiles db)); trivial.
  - exists pages. split; [exact Ht|]. split; [exact Hall|].
    rewrite Hc. split; [apply listing_perm|].
    split; [now apply listing_NoDup|].
    apply StronglySorted_strict.
    + apply listing_sorted.
    + now apply listing_NoDup.
Qed.

Lemma count_order_traversal_witness :
  let options := Examples.options MOST_SAVED None 2 in
  exists pages,
    traverse (fun _ => None) 6 Examples.five options None = Some pages /\
    map (map (fun p => Post.id (PostWithAuthor.post p))) pages
    = [[1; 2]; [3; 4]; [5]] /\
    Permutation (map rowOf (List.concat pages)) (matching Examples.five options).
Proof.
  intros options.
  assert (Hids : unique_ids Examples.five).
  { unfold unique_ids. simpl. repeat constructor; simpl; intuition discriminate. }
  assert (Hprof : unique_profiles Examples.five).
  { unfold unique_profiles. simpl. repeat constructor; simpl; intuition discriminate. }
  assert (Hfuel : (List.length (Sql.posts_join_userProfiles Examples.five) < 6)%nat)
    by (vm_compute; repeat constructor).
  destruct (count_order_traversal (fun _ => None) Examples.five options 6
              eq_refl (Nat.lt_0_succ 1) eq_refl Hids Hprof Hfuel)
    as (pages & Ht & _ & Hperm & _).
  exists pages. split; [exact Ht|]. split; [|exact Hperm].
  vm_compute in Ht. injection Ht as <-. reflexivity.
Defined.

(* ------------------------------------------------------------------ *)
(** ** Paging through a listing ordered by time *)

(** The cursor of a time order is written with an ISO timestamp, which
    holds two [:] of its own; [split(":")] then takes the date and the hour
    for the key and the minutes for the id. *)
Example newest_cursor_halves (newDate : string -> option Z) :
  cursorOf NEWEST (Examples.post 3 1704105000000 0 0)
  = "2024-01-01T10:30:00.000Z:3" /\
  cursorConditions newDate NEWEST (Some "2024-01-01T10:30:00.000Z:3")
  = [Sql.row_lt Sql.posts_createdAt (newDate "2024-01-01T10") (Some 30)].
Proof. split; vm_compute; reflexivity. Qed.

(** The second call when the runtime reads the key half as an invalid
    date, and when it reads it leniently as 10:00 UTC. *)
Example newest_second_page_invalid_date :
  getPosts (fun _ => None) Examples.morning
    (Examples.options NEWEST (Some "2024-01-01T10:30:00.000Z:3") 1)
  = Throw StoreRejected.
Proof. reflexivity. Qed.

Example newest_second_page_lenient_date :
  Examples.page
    (getPosts (fun _ => Some 1704103200000) Examples.morning
       (Examples.options NEWEST (Some "2024-01-01T10:30:00.000Z:3") 1))
  = Some ([], false, None).
Proof. vm_compute. reflexivity. Qed.

(** One call on [morning] with a cursor, in terms of the rows of the
    listing that pass the comparison the cursor was decoded to. *)
Lemma morning_getPosts newDate cursor (v i : option Z) :
  cursorConditions newDate NEWEST (Some cursor)
  = [Sql.row_lt Sql.posts_createdAt v i] ->
  getPosts newDate Examples.morning (Examples.options NEWEST (Some cursor) 1)
  = if andb (Sql.is_some v) (Sql.is_some i) then
      match
        filter (fun r => Sql.holds (Sql.row_lt Sql.posts_createdAt v i) (Sql.post r))
          Examples.morningListing
      with
      | [] => Ok (GetPostsResult.mk [] false None)
      | [r] =>
          Ok (GetPostsResult.mk
                [PostWithAuthor.mk (Sql.post r) (Sql.author r) false] false None)
      | r :: _ :: _ =>
          Ok (GetPostsResult.mk
                [PostWithAuthor.mk (Sql.post r) (Sql.author r) false] true
                (Some (cursorOf NEWEST (Sql.post r))))
      end
    else Throw StoreRejected.
Proof.
  intros Hc. unfold getPosts, fetch, conditionsOf, Sql.select_posts.
  cbn [Examples.options GetPostsOptions.sortBy GetPostsOptions.limit
       GetPostsOptions.cursor GetPostsOptions.viewerUserId default].
  rewrite Hc, forallb_app, filterConditions_bindable.
  cbn [forallb Sql.bindable andb negb tagsGiven Examples.options
       GetPostsOptions.tags].
  rewrite andb_true_r.
  destruct (andb (Sql.is_some v) (Sql.is_some i)); [|reflexivity].
  rewrite rows_sort_filter.
  assert (HL : Sql.sort
                 (fun r1 r2 =>
                    Sql.order_leb (orderByOf NEWEST) (Sql.post r1) (Sql.post r2))
                 (filter
                    (fun r =>
                       Sql.where_
                         (filterConditions
                            (Examples.options NEWEST (Some cursor) 1))
                         (Sql.post r))
                    (Sql.posts_join_userProfiles Examples.morning))
               = Examples.morningListing) by (vm_compute; reflexivity).
  rewrite HL.
  assert (HF : filter
                 (fun r => Sql.where_ [Sql.row_lt Sql.posts_createdAt v i] (Sql.post r))
                 Examples.morningListing
               = filter
                   (fun r => Sql.holds (Sql.row_lt Sql.posts_createdAt v i) (Sql.post r))
                   Examples.morningListing).
  { apply filter_ext. intros r. unfold Sql.where_. simpl. apply andb_true_r. }
  rewrite HF. clear HF HL.
  destruct (filter _ Examples.morningListing) as [|r [|r' rest]]; reflexivity.
Qed.

Lemma holds_row_lt v i (p : Post) :
  Sql.holds (Sql.row_lt Sql.posts_createdAt (Some v) (Some i)) p = true <->
  Post.createdAt p < v \/ (Post.createdAt p = v /\ Post.id p < i).
Proof.
  simpl. rewrite orb_true_iff, andb_true_iff, !Z.ltb_lt, Z.eqb_eq. reflexivity.
Qed.

(** C1 at a store of three posts of one hour, NEWEST, limit 1. Whatever
    [new Date] makes of the key half ["2024-01-01T10"], and however many
    calls the client makes, the pages are never the listing 3, 2, 1: the
    second call throws, or skips or repeats a post, or the third call
    returns post 2 again. *)
Theorem newest_traversal_goes_wrong newDate fuel :
  option_map Examples.ids
    (traverse newDate fuel Examples.morning (Examples.options NEWEST None 1) None)
  <> Some [3; 2; 1].
Proof.
  destruct fuel as [|fuel]; [discriminate|].
  cbn [traverse].
  change (getPosts newDate Examples.morning
            (GetPostsOptions.with_cursor None (Examples.options NEWEST None 1)))
    with (Ok (GetPostsResult.mk
                [PostWithAuthor.mk (Examples.post 3 1704105000000 0 0)
                   (Examples.profile 1 "ann") false]
                true (Some "2024-01-01T10:30:00.000Z:3"))).
  cbn [GetPostsResult.nextCursor GetPostsResult.posts].
  destruct fuel as [|fuel]; [discriminate|].
  cbn [traverse].
  change (GetPostsOptions.with_cursor (Some "2024-01-01T10:30:00.000Z:3")
            (Examples.options NEWEST None 1))
    with (Examples.options NEWEST (Some "2024-01-01T10:30:00.000Z:3") 1).
  rewrite (morning_getPosts newDate _ _ _ (proj2 (newest_cursor_halves newDate))).
  destruct (newDate "2024-01-01T10") as [d|] eqn:ED; [|discriminate].
  cbn [Sql.is_some andb Examples.morningListing filter].
  destruct (Sql.holds _ (Sql.post (Examples.morningRow 3 1704105000000))) eqn:E3.
  { (* post 3 again *)
    destruct (Sql.holds _ (Sql.post (Examples.morningRow 2 1704104400000)));
      [|destruct (Sql.holds _ (Sql.post (Examples.morningRow 1 1704103800000)))];
      cbn [GetPostsResult.nextCursor GetPostsResult.posts];
      try discriminate;
      match goal with
      | |- context [traverse ?a ?b ?c ?d ?e] => destruct (traverse a b c d e)
      end; discriminate. }
  destruct (Sql.holds _ (Sql.post (Examples.morningRow 2 1704104400000))) eqn:E2.
  2:{ (* post 2 skipped *)
    destruct (Sql.holds _ (Sql.post (Examples.morningRow 1 1704103800000)));
      discriminate. }
  destruct (Sql.holds _ (Sql.post (Examples.morningRow 1 1704103800000))) eqn:E1;
    [|discriminate].
  cbn [GetPostsResult.nextCursor GetPostsResult.posts].
  destruct fuel as [|fuel]; [discriminate|].
  cbn [traverse].
  change (GetPostsOptions.with_cursor
            (Some (cursorOf NEWEST (Sql.post (Examples.morningRow 2 1704104400000))))
            (Examples.options NEWEST None 1))
    with (Examples.options NEWEST (Some "2024-01-01T10:20:00.000Z:2") 1).
  assert (Hc : cursorConditions newDate NEWEST (Some "2024-01-01T10:20:00.000Z:2")
               = [Sql.row_lt Sql.posts_createdAt (Some d) (Some 20)]).
  { rewrite <- ED. vm_compute. reflexivity. }
  rewrite (morning_getPosts newDate _ _ _ Hc).
  cbn [Sql.is_some andb Examples.morningListing filter].
  (* the third call: post 3 is still out, post 2 is still in *)
  assert (E3' : Sql.holds (Sql.row_lt Sql.posts_createdAt (Some d) (Some 20))
                  (Sql.post (Examples.morningRow 3 1704105000000)) = false).
  { destruct (Sql.holds (Sql.row_lt Sql.posts_createdAt (Some d) (Some 20)) _) eqn:E;
      trivial.
    apply holds_row_lt in E.
    assert (H : Sql.holds (Sql.row_lt Sql.posts_createdAt (Some d) (Some 30))
                  (Sql.post (Examples.morningRow 3 1704105000000)) = true).
    { apply holds_row_lt. simpl in E |- *. lia. }
    congruence. }
  assert (E2' : Sql.holds (Sql.row_lt Sql.posts_createdAt (Some d) (Some 20))
                  (Sql.post (Examples.morningRow 2 1704104400000)) = true).
  { apply holds_row_lt in E2. apply holds_row_lt. simpl in E2 |- *. lia. }
  rewrite E3', E2'.
  destruct (Sql.holds _ (Sql.post (Examples.morningRow 1 1704103800000)));
    cbn [GetPostsResult.nextCursor GetPostsResult.posts];
    try discriminate;
    match goal with
    | |- context [traverse ?a ?b ?c ?d ?e] => destruct (traverse a b c d e)
    end; discriminate.
Qed.

(* ------------------------------------------------------------------ *)
(** ** One page under a time order, from the cursor of the page before *)

Lemma sameInstant_getPosts newDate cursor (v i : option Z) :
  cursorConditions newDate NEWEST (Some cursor)
  = [Sql.row_lt Sql.posts_createdAt v i] ->
  getPosts newDate sameInstant (Examples.options NEWEST (Some cursor) 1)
  = if andb (Sql.is_some v) (Sql.is_some i) then
      match
        filter (fun r => Sql.holds (Sql.row_lt Sql.posts_createdAt v i) (Sql.post r))
          [Examples.morningRow 2 1704105000000; Examples.morningRow 1 1704105000000]
      with
      | [] => Ok (GetPostsResult.mk [] false None)
      | [r] =>
          Ok (GetPostsResult.mk
                [PostWithAuthor.mk (Sql.post r) (Sql.author r) false] false None)
      | r :: _ :: _ =>
          Ok (GetPostsResult.mk
                [PostWithAuthor.mk (Sql.post r) (Sql.author r) false] true
                (Some (cursorOf NEWEST (Sql.post r))))
      end
    else Throw StoreRejected.
Proof.
  intros Hc. unfold getPosts, fetch, conditionsOf, Sql.select_posts.
  cbn [Examples.options GetPostsOptions.sortBy GetPostsOptions.limit
       GetPostsOptions.cursor GetPostsOptions.viewerUserId default].
  rewrite Hc, forallb_app, filterConditions_bindable.
  cbn [forallb Sql.bindable andb negb tagsGiven Examples.options
       GetPostsOptions.tags].
  rewrite andb_true_r.
  destruct (andb (Sql.is_some v) (Sql.is_some i)); [|reflexivity].
  rewrite rows_sort_filter.
  assert (HL : Sql.sort
                 (fun r1 r2 =>
                    Sql.order_leb (orderByOf NEWEST) (Sql.post r1) (Sql.post r2))
                 (filter
                    (fun r =>
                       Sql.where_
                         (filterConditions
                            (Examples.options NEWEST (Some cursor) 1))
                         (Sql.post r))
                    (Sql.posts_join_userProfiles sameInstant))
               = [Examples.morningRow 2 1704105000000;
                  Examples.morningRow 1 1704105000000])
    by (vm_compute; reflexivity).
  rewrite HL.
  assert (HF : forall l,
             filter
               (fun r => Sql.where_ [Sql.row_lt Sql.posts_createdAt v i] (Sql.post r)) l
             = filter
                 (fun r => Sql.holds (Sql.row_lt Sql.posts_createdAt v i) (Sql.post r))
                 l).
  { intros l. apply filter_ext. intros r. unfold Sql.where_. simpl.
    apply andb_true_r. }
  rewrite HF. clear HF HL.
  destruct (filter _ _) as [|r [|r' rest]]; reflexivity.
Qed.

(** C6 at a store of two posts created in the same millisecond, NEWEST,
    limit 1. The first call returns post 2 and the cursor of post 2. The
    call with that cursor is to fetch the rows strictly beyond post 2 by
    (createdAt, id), which is post 1 alone. The engine compares with the
    date and hour of the cursor and its minutes, (new Date("2024-01-01T10"),
    30): whatever [new Date] makes of that text, the call throws, or
    returns post 2 again with the same cursor, or returns an empty page;
    it never returns post 1. *)
Theorem newest_page_is_not_beyond_its_cursor newDate :
  let cursor := "2024-01-01T10:30:00.000Z:2" in
  let row id := Examples.row (Examples.post id 1704105000000 0 0) 1 "ann" false in
  getPosts newDate sameInstant (Examples.options NEWEST None 1)
  = Ok (GetPostsResult.mk [row 2] true (Some cursor)) /\
  cursorConditions newDate NEWEST (Some cursor)
  = [Sql.row_lt Sql.posts_createdAt (newDate "2024-01-01T10") (Some 30)] /\
  getPosts newDate sameInstant (Examples.options NEWEST (Some cursor) 1)
  = match newDate "2024-01-01T10" with
    | None => Throw StoreRejected
    | Some d =>
        if 1704105000000 <=? d
        then Ok (GetPostsResult.mk [row 2] true (Some cursor))
        else Ok (GetPostsResult.mk [] false None)
    end /\
  getPosts newDate sameInstant (Examples.options NEWEST (Some cursor) 1)
  <> Ok (GetPostsResult.mk [row 1] false None).
Proof.
  intros cursor row.
  assert (Hc : cursorConditions newDate NEWEST (Some cursor)
               = [Sql.row_lt Sql.posts_createdAt (newDate "2024-01-01T10") (Some 30)])
    by (vm_compute; reflexivity).
  assert (E : getPosts newDate sameInstant (Examples.options NEWEST (Some cursor) 1)
              = match newDate "2024-01-01T10" with
                | None => Throw StoreRejected
                | Some d =>
                    if 1704105000000 <=? d
                    then Ok (GetPostsResult.mk [row 2] true (Some cursor))
                    else Ok (GetPostsResult.mk [] false None)
                end).
  { rewrite (sameInstant_getPosts newDate cursor _ _ Hc).
    destruct (newDate "2024-01-01T10") as [d|]; [|reflexivity].
    cbn [Sql.is_some andb filter].
    destruct (Z.leb_spec 1704105000000 d) as [Hd|Hd].
    - assert (H2 : Sql.holds (Sql.row_lt Sql.posts_createdAt (Some d) (Some 30))
                     (Sql.post (Examples.morningRow 2 1704105000000)) = true).
      { apply holds_row_lt. simpl. lia. }
      assert (H1 : Sql.holds (Sql.row_lt Sql.posts_createdAt (Some d) (Some 30))
                     (Sql.post (Examples.morningRow 1 1704105000000)) = true).
      { apply holds_row_lt. simpl. lia. }
      rewrite H2, H1. reflexivity.
    - assert (H2 : Sql.holds (Sql.row_lt Sql.posts_createdAt (Some d) (Some 30))
                     (Sql.post (Examples.morningRow 2 1704105000000)) = false).
      { apply Bool.not_true_is_false. intros H.
        apply holds_row_lt in H. simpl in H. lia. }
      assert (H1 : Sql.holds (Sql.row_lt Sql.posts_createdAt (Some d) (Some 30))
                     (Sql.post (Examples.morningRow 1 1704105000000)) = false).
      { apply Bool.not_true_is_false. intros H.
        apply holds_row_lt in H. simpl in H. lia. }
      rewrite H2, H1. reflexivity. }
  split; [vm_compute; reflexivity|]. split; [exact Hc|]. split; [exact E|].
  rewrite E. destruct (newDate "2024-01-01T10") as [d|]; [|discriminate].
  destruct (1704105000000 <=? d); discriminate.
Qed.

(* ================================================================== *)
(** * Further properties of the post core *)

(* ------------------------------------------------------------------ *)
(** ** The response counter counts the active responses *)

Lemma responses_ok_map (f : Post -> Post) (posts : list Post) :
  (forall p, Post.id (f p) = Post.id p /\ Post.parentId (f p) = Post.parentId p /\
             Post.type (f p) = Post.type p) ->
  responses_ok posts -> responses_ok (map f posts).
Proof.
  intros Hf H p' Hp'. apply in_map_iff in Hp' as (p & <- & Hp).
  destruct (Hf p) as (Hi & Hpar & Ht). rewrite Hpar, Ht, Hi.
  specialize (H p Hp). destruct (Post.parentId p) as [n|]; trivial.
  destruct H as (H1 & H2 & q & Hq & Hqi). repeat split; trivial.
  exists (f q). split; [now apply in_map|]. now rewrite (proj1 (Hf q)).
Qed.

Lemma responses_ok_insert (row : Post) (posts : list Post) :
  responses_ok posts ->
  match Post.parentId row with
  | Some n =>
      Post.type row = RESPONSE /\ n < Post.id row /\
      exists q, In q posts /\ Post.id q = n
  | None => Post.type row = POST
  end ->
  responses_ok (posts ++ [row]).
Proof.
  intros H Hrow p Hp. apply in_app_or in Hp as [Hp|[<-|[]]].
  - specialize (H p Hp). destruct (Post.parentId p) as [n|]; trivial.
    destruct H as (H1 & H2 & q & Hq & Hqi). repeat split; trivial.
    exists q. split; trivial. apply in_or_app. now left.
  - destruct (Post.parentId row) as [n|]; trivial.
    destruct Hrow as (H1 & H2 & q & Hq & Hqi). repeat split; trivial.
    exists q. split; trivial. apply in_or_app. now left.
Qed.

Lemma activeResponses_app (posts : list Post) (row : Post) (id : Z) :
  activeResponses (posts ++ [row]) id
  = activeResponses posts id + (if isActiveResponseOf id row then 1 else 0).
Proof.
  unfold activeResponses. rewrite filter_app, length_app. simpl.
  destruct (isActiveResponseOf id row); simpl; lia.
Qed.

Lemma activeResponses_map (f : Post -> Post) (posts : list Post) (id : Z) :
  (forall p, Post.active (f p) = Post.active p /\
             Post.parentId (f p) = Post.parentId p) ->
  activeResponses (map f posts) id = activeResponses posts id.
Proof.
  intros Hf. unfold activeResponses. f_equal.
  induction posts as [|p posts IH]; simpl; trivial.
  assert (E : isActiveResponseOf id (f p) = isActiveResponseOf id p).
  { unfold isActiveResponseOf. destruct (Hf p) as (-> & ->). reflexivity. }
  rewrite E. destruct (isActiveResponseOf id p); simpl; now rewrite IH.
Qed.

(** Soft-deleting the one active row [x] takes it out of the count of its
    parent and of no other. *)
Lemma activeResponses_softDelete (posts : list Post) (x : Post) (now id : Z) :
  NoDup (map Post.id posts) -> In x posts -> Post.active x = true ->
  activeResponses (map (softDelete (Post.id x) now) posts) id
  + (if isActiveResponseOf id x then 1 else 0)
  = activeResponses posts id.
Proof.
  unfold activeResponses. intros Hnd Hx Ha.
  induction posts as [|p posts IH]; [destruct Hx|].
  simpl in Hnd. inversion Hnd as [|? ? Hnotin Hnd']; subst.
  destruct Hx as [->|Hx].
  - cbn [map filter]. unfold softDelete at 1. rewrite Z.eqb_refl.
    assert (E : isActiveResponseOf id (Post.set_active false now x) = false)
      by reflexivity.
    rewrite E.
    assert (Hsame : map (softDelete (Post.id x) now) posts = posts).
    { rewrite <- (map_id posts) at 2. apply map_ext_in. intros q Hq.
      unfold softDelete. destruct (Z.eqb_spec (Post.id q) (Post.id x)) as [Eq|]; trivial.
      exfalso. apply Hnotin. rewrite <- Eq. now apply in_map. }
    rewrite Hsame. destruct (isActiveResponseOf id x);
      cbn [List.length]; rewrite ?Nat2Z.inj_succ; lia.
  - specialize (IH Hnd' Hx). cbn [map filter].
    assert (Hp : softDelete (Post.id x) now p = p).
    { unfold softDelete. destruct (Z.eqb_spec (Post.id p) (Post.id x)) as [Eq|]; trivial.
      exfalso. apply Hnotin. rewrite Eq. now apply in_map. }
    rewrite Hp. destruct (isActiveResponseOf id p);
      cbn [List.length]; rewrite ?Nat2Z.inj_succ; lia.
Qed.

Lemma activeResponses_nonneg (posts : list Post) (id : Z) :
  0 <= activeResponses posts id.
Proof. unfold activeResponses. lia. Qed.

(** No stored row answers a post that is not stored. *)
Lemma activeResponses_unknown (posts : list Post) (id : Z) :
  responses_ok posts -> (forall q, In q posts -> Post.id q <> id) ->
  activeResponses posts id = 0.
Proof.
  intros H Hid. unfold activeResponses.
  rewrite filter_all_false; trivial.
  intros p Hp. unfold isActiveResponseOf. specialize (H p Hp).
  destruct (Post.parentId p) as [n|]; [|apply andb_false_r].
  destruct H as (_ & _ & q & Hq & Hqi).
  destruct (Z.eqb_spec n id) as [->|]; [|apply andb_false_r].
  now destruct (Hid q Hq).
Qed.

Lemma update_neutral (set : Post -> Post) (id : Z) :
  (forall p, Post.id (set p) = Post.id p /\ Post.parentId (set p) = Post.parentId p /\
             Post.type (set p) = Post.type p /\ Post.active (set p) = Post.active p /\
             Post.responseCount (set p) = Post.responseCount p) ->
  forall p,
    let p' := if Post.id p =? id then set p else p in
    Post.id p' = Post.id p /\ Post.parentId p' = Post.parentId p /\
    Post.type p' = Post.type p /\ Post.active p' = Post.active p /\
    Post.responseCount p' = Post.responseCount p.
Proof. intros H p. simpl. destruct (Post.id p =? id); [apply H | repeat split]. Qed.

Lemma consistent_map_neutral (f : Post -> Post) (db db' : Db) :
  (forall p, Post.id (f p) = Post.id p /\ Post.parentId (f p) = Post.parentId p /\
             Post.type (f p) = Post.type p /\ Post.active (f p) = Post.active p /\
             Post.responseCount (f p) = Post.responseCount p) ->
  Db.posts db' = map f (Db.posts db) ->
  responses_ok (Db.posts db) /\ responseCounts_exact db ->
  responses_ok (Db.posts db') /\ responseCounts_exact db'.
Proof.
  intros Hf E (Hr & Hc). unfold responseCounts_exact. rewrite E. split.
  - apply responses_ok_map; trivial. intros p. destruct (Hf p) as (? & ? & ? & _).
    now repeat split.
  - intros p' Hp'. apply in_map_iff in Hp' as (p & <- & Hp).
    destruct (Hf p) as (-> & _ & _ & _ & ->).
    rewrite activeResponses_map; [now apply Hc|].
    intros q. destruct (Hf q) as (_ & ? & _ & ? & _). now split.
Qed.

Lemma step_consistent db db' :
  store_consistent db -> step db db' -> store_consistent db'.
Proof.
  intros (Hseq & Hok & Hr & Hc) St.
  destruct (step_store_ok db db' Hseq Hok St) as (Hseq' & Hok').
  split; [exact Hseq'|]. split; [exact Hok'|]. clear Hseq' Hok'.
  destruct Hok as (Hnd & Hall).
  destruct St as
    [data now db r db' E | data now db r db' E | postId userId now db r db' E
    | postId url now db r db' E | postId status now db r db' E
    | userId postId db r db' E | userId postId db r db' E | db profiles].
  - (* createPost *)
    unfold createPost, tx_insert_post in E. injection E as _ <-.
    unfold responseCounts_exact.
    cbn [Db.posts Db.posts_id_seq Db.with_posts Db.with_posts_id_seq].
    split; [now apply responses_ok_insert|].
    intros p Hp. rewrite activeResponses_app.
    match goal with
    | |- context [isActiveResponseOf ?i ?row] =>
        change (isActiveResponseOf i row) with false
    end.
    rewrite Z.add_0_r.
    apply in_app_or in Hp as [Hp|[<-|[]]]; [now apply Hc|].
    cbn [Post.responseCount Post.id]. symmetry.
    apply activeResponses_unknown; trivial.
    intros q Hq. destruct (Hall q Hq) as (Hlt & _). lia.
  - (* createResponse *)
    pose proof (createResponse_unfold data now db) as U.
    destruct (Sql.select_post db _) as [parent|] eqn:S; rewrite U in E;
      injection E as _ <-; [|now split].
    apply select_active_Some in S as (Hin & Hid & _).
    destruct (Hall parent Hin) as (Hlt & _).
    unfold responseCounts_exact. cbn [Db.posts].
    assert (Hkeep : forall p,
              Post.id (incrementParent data now p) = Post.id p /\
              Post.parentId (incrementParent data now p) = Post.parentId p /\
              Post.type (incrementParent data now p) = Post.type p /\
              Post.active (incrementParent data now p) = Post.active p).
    { intros p. unfold incrementParent.
      destruct (Post.id p =? _); repeat split. }
    split.
    + apply responses_ok_map.
      * intros p. destruct (Hkeep p) as (? & ? & ? & _). now repeat split.
      * apply responses_ok_insert; trivial. cbn [responseRow Post.parentId Post.type Post.id].
        split; [reflexivity|]. split; [lia|]. now exists parent.
    + intros p' Hp'. apply in_map_iff in Hp' as (p & <- & Hp).
      rewrite (proj1 (Hkeep p)).
      rewrite activeResponses_map
        by (intros q; destruct (Hkeep q) as (_ & ? & _ & ?); now split).
      rewrite activeResponses_app.
      unfold isActiveResponseOf at 1.
      cbn [responseRow Post.parentId Post.active andb].
      unfold incrementParent.
      apply in_app_or in Hp as [Hp|[<-|[]]].
      * rewrite <- (Hc p Hp).
        destruct (Z.eqb_spec (Post.id p) (ResponseData.parentId data));
          destruct (Z.eqb_spec (ResponseData.parentId data) (Post.id p));
          cbn [Post.set_responseCount Post.responseCount]; lia.
      * cbn [responseRow Post.id Post.responseCount].
        rewrite activeResponses_unknown; trivial.
        -- destruct (Z.eqb_spec (Db.posts_id_seq db) (ResponseData.parentId data));
             destruct (Z.eqb_spec (ResponseData.parentId data) (Db.posts_id_seq db));
             cbn [responseRow Post.set_responseCount Post.responseCount]; lia.
        -- intros q Hq. destruct (Hall q Hq) as (Hq' & _). lia.
  - (* deletePost *)
    pose proof (deletePost_unfold postId userId now db) as U.
    destruct (Sql.select_post db _) as [x|] eqn:S;
      [|rewrite U in E; injection E as _ <-; now split].
    destruct (Post.userId x =? userId); rewrite U in E;
      injection E as _ <-; [|now split].
    apply select_active_Some in S as (Hin & Hid & Hact). subst postId.
    destruct (Hall x Hin) as (_ & Hpar).
    unfold responseCounts_exact. cbn [Db.posts Db.with_posts].
    assert (Hsoft : forall p,
              Post.id (softDelete (Post.id x) now p) = Post.id p /\
              Post.parentId (softDelete (Post.id x) now p) = Post.parentId p /\
              Post.type (softDelete (Post.id x) now p) = Post.type p /\
              Post.responseCount (softDelete (Post.id x) now p) = Post.responseCount p).
    { intros p. unfold softDelete. destruct (Post.id p =? _); repeat split. }
    assert (Hdec : forall p,
              Post.id (decrementParent (Post.parentId x) now p) = Post.id p /\
              Post.parentId (decrementParent (Post.parentId x) now p) = Post.parentId p /\
              Post.type (decrementParent (Post.parentId x) now p) = Post.type p /\
              Post.active (decrementParent (Post.parentId x) now p) = Post.active p).
    { intros p. unfold decrementParent.
      destruct (JS.truthy_opt_number _); [|repeat split].
      destruct (Post.id p =? _); repeat split. }
    split.
    + apply responses_ok_map;
        [intros p; destruct (Hdec p) as (? & ? & ? & _); now repeat split|].
      apply responses_ok_map; trivial.
      intros p; destruct (Hsoft p) as (? & ? & ? & _); now repeat split.
    + intros p'' Hp''. apply in_map_iff in Hp'' as (p' & <- & Hp').
      apply in_map_iff in Hp' as (p & <- & Hp).
      rewrite (proj1 (Hdec _)), (proj1 (Hsoft _)).
      rewrite activeResponses_map
        by (intros q; destruct (Hdec q) as (_ & ? & _ & ?); now split).
      pose proof (activeResponses_softDelete _ x now (Post.id p) Hnd Hin Hact) as Hcount.
      pose proof (activeResponses_nonneg
                    (map (softDelete (Post.id x) now) (Db.posts db)) (Post.id p)) as Hpos.
      pose proof (Hc p Hp) as Hrc.
      unfold isActiveResponseOf in Hcount. rewrite Hact in Hcount. cbn [andb] in Hcount.
      unfold decrementParent.
      destruct (Post.parentId x) as [n|] eqn:Epar.
      * assert (Hn : n <> 0) by (intros ->; now apply Hpar).
        unfold JS.truthy_opt_number, JS.truthy_number.
        destruct (Z.eqb_spec n 0) as [|_]; [contradiction|]. cbn [negb default].
        rewrite (proj1 (Hsoft p)).
        destruct (Z.eqb_spec (Post.id p) n); destruct (Z.eqb_spec n (Post.id p));
          cbn [Post.set_responseCount Post.responseCount];
          rewrite ?(proj2 (proj2 (proj2 (Hsoft p)))); lia.
      * cbn [JS.truthy_opt_number]. rewrite (proj2 (proj2 (proj2 (Hsoft p)))). lia.
  - (* updatePostWaveformUrl *)
    unfold updatePostWaveformUrl, tx_update_post in E. injection E as _ <-.
    eapply consistent_map_neutral; [| reflexivity | now split].
    apply update_neutral. intros p. repeat split.
  - (* updatePostStatus *)
    unfold updatePostStatus, tx_update_post in E. injection E as _ <-.
    eapply consistent_map_neutral; [| reflexivity | now split].
    apply update_neutral. intros p. repeat split.
  - (* addBookmark *)
    unfold addBookmark, withTransaction in E.
    destruct (existsb _ _); [injection E as _ <-; now split|].
    unfold tx_update_post in E. injection E as _ <-.
    eapply consistent_map_neutral; [| reflexivity | now split].
    apply update_neutral. intros p. repeat split.
  - (* removeBookmark *)
    unfold removeBookmark, withTransaction in E.
    destruct (existsb _ _); [|injection E as _ <-; now split].
    unfold tx_update_post in E. injection E as _ <-.
    eapply consistent_map_neutral; [| reflexivity | now split].
    apply update_neutral. intros p. repeat split.
  - now split.
Qed.

Lemma reachable_consistent db : reachable db -> store_consistent db.
Proof.
  induction 1 as [|db db' _ IH St].
  - split; [simpl; lia|]. split; [split; [constructor | intros p []]|].
    split; intros p [].
  - exact (step_consistent db db' IH St).
Qed.

Lemma History_reachable :
  reachable History.db1 /\ reachable History.db2 /\ reachable History.db3.
Proof.
  assert (R0 : reachable History.db0).
  { apply reachable_step with Db.empty; [constructor|].
    exact (step_profiles Db.empty (Db.userProfiles History.db0)). }
  assert (R1 : reachable History.db1).
  { apply reachable_step with History.db0; trivial.
    eapply step_createPost. apply surjective_pairing. }
  assert (R2 : reachable History.db2).
  { apply reachable_step with History.db1; trivial.
    eapply step_createResponse. apply surjective_pairing. }
  split; [exact R1 | split; [exact R2|]].
  apply reachable_step with History.db2; trivial.
  eapply step_deletePost. apply surjective_pairing.
Qed.

(** X1. In every store the operations reach, the [responseCount] of every
    post is exactly the number of active rows whose [parentId] is its id:
    [createResponse] adds one with the response, [deletePost] of a response
    takes one off with it, and the clamp at zero never has to act. *)
Theorem reachable_responseCount_exact db :
  reachable db -> responseCounts_exact db.
Proof. intros R. now destruct (reachable_consistent db R) as (_ & _ & _ & H). Qed.

Lemma reachable_responseCount_exact_witness :
  reachable History.db2 /\
  responseCounts_exact History.db2 /\
  map (fun p => (Post.id p, Post.responseCount p,
                 activeResponses (Db.posts History.db2) (Post.id p)))
      (Db.posts History.db2)
  = [(1, 1, 1); (2, 0, 0)] /\
  map (fun p => (Post.id p, Post.responseCount p, Post.active p))
      (Db.posts History.db3)
  = [(1, 0, true); (2, 0, false)].
Proof.
  destruct History_reachable as (_ & R2 & _).
  split; [exact R2|]. split; [|split; reflexivity].
  exact (reachable_responseCount_exact History.db2 R2).
Defined.

(** X2. In every store the operations reach, a row has a [parentId] exactly
    when its type is RESPONSE, and then the parent is a stored post with a
    smaller id; post ids are distinct. *)
Theorem reachable_responses_have_parents db :
  reachable db ->
  unique_ids db /\
  forall p, In p (Db.posts db) ->
    (Post.type p = RESPONSE <-> Post.parentId p <> None) /\
    (forall n, Post.parentId p = Some n ->
       n < Post.id p /\ exists q, In q (Db.posts db) /\ Post.id q = n).
Proof.
  intros R. destruct (reachable_consistent db R) as (_ & (Hnd & _) & Hr & _).
  split; [exact Hnd|]. intros p Hp. specialize (Hr p Hp).
  destruct (Post.parentId p) as [n|].
  - destruct Hr as (Ht & Hlt & Hq). split.
    + split; [discriminate | intros _; exact Ht].
    + intros m [= <-]. now split.
  - split.
    + rewrite Hr. split; [discriminate | congruence].
    + discriminate.
Qed.

Lemma reachable_responses_have_parents_witness :
  reachable History.db3 /\
  unique_ids History.db3 /\
  map (fun p => (Post.id p, Post.type p, Post.parentId p)) (Db.posts History.db3)
  = [(1, POST, None); (2, RESPONSE, Some 1)].
Proof.
  destruct History_reachable as (_ & _ & R3).
  split; [exact R3|]. split; [|reflexivity].
  exact (proj1 (reachable_responses_have_parents History.db3 R3)).
Defined.

(* ------------------------------------------------------------------ *)
(** ** Looking up, deleting, looking up again *)

Lemma select_active_unique db (p : Post) :
  unique_ids db -> In p (Db.posts db) -> Post.active p = true ->
  Sql.select_post db [Sql.eq_id (Post.id p); Sql.eq_active true] = Some p.
Proof.
  unfold unique_ids, Sql.select_post. intros Hnd Hp Ha.
  induction (Db.posts db) as [|q posts IH]; [destruct Hp|].
  simpl in Hnd. inversion Hnd as [|? ? Hnotin Hnd']; subst.
  cbn [filter]. destruct Hp as [->|Hp].
  - rewrite (proj2 (where_id_active (Post.id p) p)) by now split. reflexivity.
  - destruct (Sql.where_ _ q) eqn:E.
    + apply where_id_active in E as (E & _). exfalso. apply Hnotin.
      rewrite E. now apply in_map.
    + now apply IH.
Qed.

Lemma rows_nil db conditions orderBy limit :
  Sql.rows db conditions orderBy (S limit) = [] <->
  forall r, In r (Sql.posts_join_userProfiles db) ->
    Sql.where_ conditions (Sql.post r) = false.
Proof.
  unfold Sql.rows.
  set (l := filter _ (Sql.posts_join_userProfiles db)).
  set (leb := fun r1 r2 : Sql.Row => _).
  assert (Hl : firstn (S limit) (Sql.sort leb l) = [] <-> l = []).
  { pose proof (length_sort leb l) as Hlen.
    destruct (Sql.sort leb l) as [|x s]; destruct l as [|y l']; simpl in *;
      split; intros H; try reflexivity; try discriminate. }
  rewrite Hl. unfold l. split.
  - intros H r Hr. destruct (Sql.where_ conditions (Sql.post r)) eqn:E; trivial.
    assert (Hin : In r (filter (fun r => Sql.where_ conditions (Sql.post r))
                          (Sql.posts_join_userProfiles db)))
      by (apply filter_In; now split).
    rewrite H in Hin. destruct Hin.
  - intros H. now apply filter_all_false.
Qed.

Lemma getPostById_None_iff db id viewerUserId :
  getPostById db id viewerUserId = None <->
  forall p a, In p (Db.posts db) -> In a (Db.userProfiles db) ->
    Post.id p = id -> Post.active p = true ->
    Post.userId p <> Author.userId a.
Proof.
  assert (Hnone : getPostById db id viewerUserId = None <->
                  Sql.rows db [Sql.eq_id id; Sql.eq_active true] [] 1 = []).
  { unfold getPostById. destruct (Sql.rows _ _ _ _); split; congruence. }
  rewrite Hnone, rows_nil. split.
  - intros H p a Hp Ha Hid Hact Hu.
    specialize (H (Sql.mkRow p a)). cbn [Sql.post] in H.
    rewrite (proj2 (where_id_active id p)) in H by now split.
    assert (Hj : In (Sql.mkRow p a) (Sql.posts_join_userProfiles db))
      by (apply In_join; now repeat split).
    specialize (H Hj). discriminate.
  - intros H r Hr. apply In_join in Hr as (Hp & Ha & Hu).
    destruct (Sql.where_ _ (Sql.post r)) eqn:E; trivial.
    apply where_id_active in E as (Hid & Hact).
    now destruct (H _ _ Hp Ha Hid Hact).
Qed.

Lemma getPostById_Some_author db id viewerUserId r :
  getPostById db id viewerUserId = Some r ->
  In (PostWithAuthor.author r) (Db.userProfiles db) /\
  Author.userId (PostWithAuthor.author r) = Post.userId (PostWithAuthor.post r) /\
  PostWithAuthor.isBookmarked r = viewerBookmarked db viewerUserId id.
Proof.
  unfold getPostById.
  destruct (Sql.rows db _ _ _) as [|row rest] eqn:E; [discriminate|].
  intros [= <-]. cbn.
  assert (Hrow : In row (Sql.rows db [Sql.eq_id id; Sql.eq_active true] [] 1))
    by (rewrite E; now left).
  apply In_rows in Hrow as (Hj & _).
  apply In_join in Hj as (_ & Ha & Hu). auto.
Qed.

(** X3. [getPostById] finds a post exactly when an active row with that id
    is stored and its author has a profile row; what it returns is such a
    row with such a profile, flagged with the viewer's bookmark of it. *)
Theorem getPostById_found_iff db id viewerUserId :
  (getPostById db id viewerUserId = None <->
   forall p a, In p (Db.posts db) -> In a (Db.userProfiles db) ->
     Post.id p = id -> Post.active p = true ->
     Post.userId p <> Author.userId a) /\
  (forall r, getPostById db id viewerUserId = Some r ->
     In (PostWithAuthor.post r) (Db.posts db) /\
     Post.id (PostWithAuthor.post r) = id /\
     Post.active (PostWithAuthor.post r) = true /\
     In (PostWithAuthor.author r) (Db.userProfiles db) /\
     Author.userId (PostWithAuthor.author r) = Post.userId (PostWithAuthor.post r) /\
     PostWithAuthor.isBookmarked r = viewerBookmarked db viewerUserId id).
Proof.
  split; [apply getPostById_None_iff|].
  intros r G.
  destruct (getPostById_Some _ _ _ _ G) as (H1 & H2 & H3).
  destruct (getPostById_Some_author _ _ _ _ G) as (H4 & H5 & H6).
  repeat split; assumption.
Qed.

Lemma getPostById_found_iff_witness :
  getPostById Examples.mixed 2 None
  = Some (Examples.row (Examples.response 2 1 2000) 2 "bob" false) /\
  In (Examples.profile 2 "bob") (Db.userProfiles Examples.mixed) /\
  getPostById Examples.mixed 9 None = None /\
  forall p a, In p (Db.posts Examples.mixed) ->
    In a (Db.userProfiles Examples.mixed) ->
    Post.id p = 9 -> Post.active p = true -> Post.userId p <> Author.userId a.
Proof.
  assert (G2 : getPostById Examples.mixed 2 None
               = Some (Examples.row (Examples.response 2 1 2000) 2 "bob" false))
    by (vm_compute; reflexivity).
  assert (G9 : getPostById Examples.mixed 9 None = None)
    by (vm_compute; reflexivity).
  destruct (getPostById_found_iff Examples.mixed 2 None) as (_ & HS).
  destruct (getPostById_found_iff Examples.mixed 9 None) as (HN & _).
  split; [exact G2|]. split; [|split; [exact G9 | exact (proj1 HN G9)]].
  exact (proj1 (proj2 (proj2 (proj2 (HS _ G2))))).
Defined.

Lemma deletePost_deactivates postId userId now db db' :
  deletePost postId userId now db = (Ok true, db') ->
  Db.posts db'
  = map (fun p =>
           decrementParent
             (match Sql.select_post db [Sql.eq_id postId; Sql.eq_active true] with
              | Some x => Post.parentId x
              | None => None
              end) now (softDelete postId now p))
      (Db.posts db) /\
  Db.userProfiles db' = Db.userProfiles db /\
  Db.bookmarks db' = Db.bookmarks db /\
  Db.notifications db' = Db.notifications db /\
  Db.posts_id_seq db' = Db.posts_id_seq db.
Proof.
  intros E. pose proof (deletePost_unfold postId userId now db) as U.
  destruct (Sql.select_post db _) as [x|]; [|rewrite U in E; discriminate].
  destruct (Post.userId x =? userId); rewrite U in E; [|discriminate].
  injection E as <-. cbn. now rewrite map_map.
Qed.

(** X4. After a [deletePost] that returned [true], the post is gone from
    the read side: [getPostById] finds nothing under its id for any viewer
    and no page of any listing holds it. The row itself stays stored (the
    ids of the table are the same) and profiles, bookmarks and
    notifications are untouched. *)
Theorem deletePost_hides_post postId userId now db db' :
  deletePost postId userId now db = (Ok true, db') ->
  (forall viewerUserId, getPostById db' postId viewerUserId = None) /\
  (forall newDate options result row,
     getPosts newDate db' options = Ok result ->
     In row (GetPostsResult.posts result) ->
     Post.id (PostWithAuthor.post row) <> postId) /\
  map Post.id (Db.posts db') = map Post.id (Db.posts db) /\
  Db.userProfiles db' = Db.userProfiles db /\
  Db.bookmarks db' = Db.bookmarks db /\
  Db.notifications db' = Db.notifications db.
Proof.
  intros E. destruct (deletePost_deactivates _ _ _ _ _ E) as (Hp & Hu & Hb & Hn & _).
  assert (Hgone : forall p, In p (Db.posts db') -> Post.id p = postId ->
                            Post.active p = false).
  { intros p Hin Hid. rewrite Hp in Hin.
    apply in_map_iff in Hin as (q & <- & _).
    rewrite decrementParent_id, softDelete_id in Hid.
    rewrite decrementParent_active. now apply softDelete_active. }
  split; [|split; [|split; [|now repeat split]]].
  - intros v. destruct (getPostById db' postId v) as [r|] eqn:G; trivial.
    apply getPostById_Some in G as (Hin & Hid & Hact).
    rewrite (Hgone _ Hin Hid) in Hact. discriminate.
  - intros newDate options result row G Hrow Hid.
    destruct (getPosts_row_active_type _ _ _ _ _ G Hrow) as (Hin & Hact & _).
    rewrite (Hgone _ Hin Hid) in Hact. discriminate.
  - rewrite Hp, map_map. apply map_ext. intros p.
    now rewrite decrementParent_id, softDelete_id.
Qed.

Lemma deletePost_hides_post_witness :
  deletePost 2 2 3000 History.db2 = (Ok true, History.db3) /\
  (exists r, getPostById History.db2 2 None = Some r) /\
  getPostById History.db3 2 None = None.
Proof.
  assert (E : deletePost 2 2 3000 History.db2 = (Ok true, History.db3))
    by reflexivity.
  split; [exact E|]. split; [eexists; reflexivity|].
  exact (proj1 (deletePost_hides_post 2 2 3000 History.db2 History.db3 E) None).
Defined.

(** X5. [deletePost] by anyone but the owner of an active post throws
    "Not authorized to delete this post" and leaves the store as it was;
    the resolver reports it as a DATABASE_ERROR with that message. The
    owner's call returns [true]. *)
Theorem deletePost_checks_owner (post : Post) userId now db :
  unique_ids db -> In post (Db.posts db) -> Post.active post = true ->
  (Post.userId post <> userId ->
   deletePost (Post.id post) userId now db
   = (Throw (Error "Not authorized to delete this post"), db) /\
   Mutation_deletePost userId (Post.id post) now db
   = (inr (mkGraphQLError "Not authorized to delete this post" DATABASE_ERROR), db)) /\
  (Post.userId post = userId ->
   exists db',
     deletePost (Post.id post) userId now db = (Ok true, db') /\
     Mutation_deletePost userId (Post.id post) now db = (inl true, db')).
Proof.
  intros Hnd Hin Hact.
  pose proof (deletePost_unfold (Post.id post) userId now db) as U.
  rewrite (select_active_unique db post Hnd Hin Hact) in U.
  split.
  - intros Hne. apply Z.eqb_neq in Hne. rewrite Hne in U.
    split; [exact U|]. unfold Mutation_deletePost. now rewrite U.
  - intros He. apply Z.eqb_eq in He. rewrite He in U.
    eexists. split; [exact U|]. unfold Mutation_deletePost. now rewrite U.
Qed.

Lemma deletePost_checks_owner_witness :
  let post := Examples.post 1 1000 5 0 in
  unique_ids Examples.five /\ In post (Db.posts Examples.five) /\
  Post.active post = true /\ Post.userId post <> 2 /\
  deletePost 1 2 9000 Examples.five
  = (Throw (Error "Not authorized to delete this post"), Examples.five).
Proof.
  intros post.
  assert (Hnd : unique_ids Examples.five).
  { unfold unique_ids. simpl. repeat constructor; simpl; intuition discriminate. }
  assert (Hin : In post (Db.posts Examples.five)) by (now left).
  assert (Hne : Post.userId post <> 2) by discriminate.
  split; [exact Hnd | split; [exact Hin | split; [reflexivity | split; [exact Hne|]]]].
  exact (proj1 (proj1 (deletePost_checks_owner post 2 9000 Examples.five
                         Hnd Hin eq_refl) Hne)).
Defined.

(* ------------------------------------------------------------------ *)
(** ** The bookmark overlay *)

Lemma viewerBookmarked_true db viewerUserId id :
  viewerBookmarked db viewerUserId id = true <-> hasBookmark db viewerUserId id.
Proof.
  unfold viewerBookmarked, hasBookmark.
  destruct viewerUserId as [v|]; [|split; [discriminate | intros (? & ? & ? & _); discriminate]].
  unfold JS.truthy_number. destruct (Z.eqb_spec v 0) as [->|Hv]; cbn [negb].
  - split; [discriminate | intros (v' & b & [= <-] & H & _); now destruct H].
  - set (m := fun b : Bookmark => _).
    assert (Hm : forall b, m b = true <->
                   Bookmark.userId b = v /\ Bookmark.postId b = id).
    { intros b. unfold m. now rewrite andb_true_iff, !Z.eqb_eq. }
    split.
    + intros H. destruct (filter m (Db.bookmarks db)) as [|b l] eqn:F;
        [discriminate|].
      assert (Hb : In b (filter m (Db.bookmarks db))) by (rewrite F; now left).
      apply filter_In in Hb as (Hb & Hmb). apply Hm in Hmb as (H1 & H2).
      now exists v, b.
    + intros (v' & b & [= <-] & _ & Hb & H1 & H2).
      assert (Hin : In b (filter m (Db.bookmarks db)))
        by (apply filter_In; split; [exact Hb | now apply Hm]).
      destruct (filter m (Db.bookmarks db)); [destruct Hin | reflexivity].
Qed.

Lemma bookmarkedPostIds_true db viewerUserId (postsData : list Sql.Row) (r : Sql.Row) :
  In r postsData ->
  existsb (Z.eqb (Post.id (Sql.post r)))
    (bookmarkedPostIds db viewerUserId postsData) = true <->
  hasBookmark db viewerUserId (Post.id (Sql.post r)).
Proof.
  intros Hr. unfold bookmarkedPostIds, hasBookmark.
  assert (Hlen : (0 <? List.length postsData)%nat = true).
  { destruct postsData; [destruct Hr | reflexivity]. }
  rewrite Hlen, andb_true_r.
  destruct viewerUserId as [v|]; cbn [JS.truthy_opt_number];
    [|split; [discriminate | intros (? & ? & ? & _); discriminate]].
  unfold JS.truthy_number. destruct (Z.eqb_spec v 0) as [->|Hv]; cbn [negb].
  - split; [discriminate | intros (v' & b & [= <-] & H & _); now destruct H].
  - cbn [default]. rewrite existsb_exists. split.
    + intros (i & Hi & He). apply Z.eqb_eq in He. subst i.
      apply in_map_iff in Hi as (b & Hb & Hin).
      apply filter_In in Hin as (Hin & Hm).
      apply andb_prop in Hm as (Hu & _). apply Z.eqb_eq in Hu.
      now exists v, b.
    + intros (v' & b & [= <-] & _ & Hb & H1 & H2).
      exists (Post.id (Sql.post r)). split; [|apply Z.eqb_refl].
      apply in_map_iff. exists b. split; trivial.
      apply filter_In. split; trivial.
      rewrite H1, Z.eqb_refl. cbn [andb].
      apply existsb_exists. exists (Post.id (Sql.post r)).
      split; [now apply (in_map (fun r => Post.id (Sql.post r))) | now apply Z.eqb_eq].
Qed.

(** X6. The batched bookmark lookup of a page agrees with the single
    lookup of [getPostById]: every row of every page carries
    [isBookmarked = true] exactly when the viewer (a non-zero id) has a
    bookmark row for that post. *)
Theorem getPosts_isBookmarked newDate db options result row :
  getPosts newDate db options = Ok result ->
  In row (GetPostsResult.posts result) ->
  PostWithAuthor.isBookmarked row
  = viewerBookmarked db (GetPostsOptions.viewerUserId options)
      (Post.id (PostWithAuthor.post row)) /\
  (PostWithAuthor.isBookmarked row = true <->
   hasBookmark db (GetPostsOptions.viewerUserId options)
     (Post.id (PostWithAuthor.post row))).
Proof.
  unfold getPosts.
  destruct (fetch newDate db options) as [results|]; [|discriminate].
  intros [= <-]. cbn [GetPostsResult.posts].
  intros Hrow. apply in_map_iff in Hrow as (r & <- & Hr).
  cbn [PostWithAuthor.isBookmarked PostWithAuthor.post].
  pose proof (bookmarkedPostIds_true db (GetPostsOptions.viewerUserId options) _ r Hr)
    as Hiff.
  split; [|exact Hiff].
  apply Bool.eq_iff_eq_true. rewrite Hiff. symmetry. apply viewerBookmarked_true.
Qed.

Lemma getPosts_isBookmarked_witness :
  let options :=
    GetPostsOptions.mk None None None None None None None None (Some 2) in
  let row1 := Examples.row (Examples.post 1 1000 1 1) 1 "ann" true in
  let row3 := Examples.row (Examples.deleted 3 3000) 1 "ann" true in
  getPosts (fun _ => None) Examples.mixed options
  = Ok (GetPostsResult.mk [row3; row1] false None) /\
  hasBookmark Examples.mixed (Some 2) 1.
Proof.
  intros options row1 row3.
  assert (E : getPosts (fun _ => None) Examples.mixed options
              = Ok (GetPostsResult.mk [row3; row1] false None))
    by (vm_compute; reflexivity).
  split; [exact E|].
  apply (proj2 (getPosts_isBookmarked _ _ _ _ row1 E (or_intror (or_introl eq_refl)))).
  reflexivity.
Defined.

(* ------------------------------------------------------------------ *)
(** ** Filters *)

Lemma filterConditions_dropFalsy options :
  filterConditions (dropFalsy options) = filterConditions options.
Proof.
  unfold filterConditions, dropFalsy.
  cbn [GetPostsOptions.type GetPostsOptions.city GetPostsOptions.userId
       GetPostsOptions.parentId GetPostsOptions.tags].
  destruct options as [city tags type userId parentId sortBy cursor limit viewer].
  cbn [GetPostsOptions.type GetPostsOptions.city GetPostsOptions.userId
       GetPostsOptions.parentId GetPostsOptions.tags].
  f_equal. f_equal. f_equal; [|f_equal; [|f_equal]].
  - destruct city as [[|c s]|]; reflexivity.
  - destruct userId as [u|]; trivial. unfold JS.number_or_null. simpl.
    destruct (JS.truthy_number u) eqn:E; [now rewrite E | reflexivity].
  - destruct parentId as [u|]; trivial. unfold JS.number_or_null. simpl.
    destruct (JS.truthy_number u) eqn:E; [now rewrite E | reflexivity].
  - destruct tags as [[|t ts]|]; reflexivity.
Qed.

(** X7. A falsy option is no option: an empty [city], a [userId],
    [parentId] or [viewerUserId] of 0, an empty [tags] array and an empty
    [cursor] give the result of the call without them. *)
Theorem getPosts_ignores_falsy_options newDate db options :
  getPosts newDate db (dropFalsy options) = getPosts newDate db options.
Proof.
  unfold getPosts, fetch, conditionsOf. rewrite filterConditions_dropFalsy.
  destruct options as [city tags type userId parentId sortBy cursor limit viewer].
  cbn [dropFalsy GetPostsOptions.sortBy GetPostsOptions.limit
       GetPostsOptions.cursor GetPostsOptions.viewerUserId].
  assert (Hc : cursorConditions newDate (default NEWEST sortBy) (JS.string_or_null cursor)
               = cursorConditions newDate (default NEWEST sortBy) cursor).
  { destruct cursor as [[|c s]|]; reflexivity. }
  rewrite Hc.
  destruct (Sql.select_posts db _ _ _) as [results|]; trivial.
  assert (Hb : forall postsData,
             bookmarkedPostIds db (JS.number_or_null viewer) postsData
             = bookmarkedPostIds db viewer postsData).
  { intros postsData. unfold bookmarkedPostIds.
    destruct viewer as [v|]; trivial.
    unfold JS.number_or_null. simpl.
    destruct (JS.truthy_number v) eqn:E; simpl; now rewrite ?E. }
  now rewrite Hb.
Qed.




(* ------------------------------------------------------------------ *)
(** ** Page sizes, last pages and single pages *)

Lemma getPosts_unfold newDate db options result :
  getPosts newDate db options = Ok result ->
  let n := default 20%nat (GetPostsOptions.limit options) in
  let all :=
    Sql.sort
      (fun r1 r2 =>
         Sql.order_leb (orderByOf (default NEWEST (GetPostsOptions.sortBy options)))
           (Sql.post r1) (Sql.post r2))
      (filter (fun r => Sql.where_ (conditionsOf newDate options) (Sql.post r))
         (Sql.posts_join_userProfiles db)) in
  map rowOf (GetPostsResult.posts result) = firstn n all /\
  GetPostsResult.hasMore result = (n <? List.length all)%nat /\
  (GetPostsResult.nextCursor result <> None ->
   GetPostsResult.hasMore result = true /\ (0 < n)%nat).
Proof.
  intros G n all. unfold getPosts in G.
  destruct (fetch newDate db options) as [fetched|] eqn:F; [|discriminate].
  unfold fetch in F. apply select_posts_Ok in F.
  fold n in F, G. change (Sql.rows _ _ _ _) with (firstn (n + 1) all) in F.
  injection G as <-.
  cbn [GetPostsResult.posts GetPostsResult.hasMore GetPostsResult.nextCursor].
  assert (Hff : firstn n fetched = firstn n all).
  { rewrite F, firstn_firstn. f_equal. apply Nat.min_l. apply Nat.le_add_r. }
  assert (Hmore : (n <? List.length fetched)%nat = (n <? List.length all)%nat).
  { rewrite F, length_firstn. apply Bool.eq_iff_eq_true.
    rewrite !Nat.ltb_lt. rewrite Nat.add_1_r. split; intros H.
    - apply Nat.lt_le_trans with (Nat.min (S n) (List.length all)); trivial.
      apply Nat.le_min_r.
    - apply Nat.min_glb_lt; trivial. apply Nat.lt_succ_diag_r. }
  split; [|split].
  - rewrite map_map, Hff. rewrite <- (map_id (firstn n all)) at 2.
    apply map_ext. now intros [].
  - exact Hmore.
  - rewrite Hmore.
    destruct (n <? List.length all)%nat; [|intros H; now destruct H].
    intros H. split; trivial.
    destruct n as [|n']; [|apply Nat.lt_0_succ].
    exfalso. apply H. reflexivity.
Qed.

(** X9. A page never holds more than [limit] rows. When [hasMore] is true
    it holds exactly [limit]; when [hasMore] is false it holds every row
    that passes the conditions of the call and there is no [nextCursor].
    With [limit = 0] the page is empty and has no cursor, whatever
    [hasMore] says. *)
Theorem getPosts_page_bounds newDate db options result :
  getPosts newDate db options = Ok result ->
  let n := default 20%nat (GetPostsOptions.limit options) in
  (List.length (GetPostsResult.posts result) <= n)%nat /\
  (GetPostsResult.hasMore result = true ->
   List.length (GetPostsResult.posts result) = n) /\
  (GetPostsResult.hasMore result = false ->
   GetPostsResult.nextCursor result = None /\
   Permutation (map rowOf (GetPostsResult.posts result))
     (filter (fun r => Sql.where_ (conditionsOf newDate options) (Sql.post r))
        (Sql.posts_join_userProfiles db))) /\
  (n = 0%nat ->
   GetPostsResult.posts result = [] /\ GetPostsResult.nextCursor result = None).
Proof.
  intros G n. destruct (getPosts_unfold _ _ _ _ G) as (Hrows & Hmore & Hcur).
  fold n in Hrows, Hmore, Hcur.
  assert (Hlen : List.length (GetPostsResult.posts result)
                 = List.length (firstn n
                     (Sql.sort
                        (fun r1 r2 =>
                           Sql.order_leb
                             (orderByOf (default NEWEST (GetPostsOptions.sortBy options)))
                             (Sql.post r1) (Sql.post r2))
                        (filter
                           (fun r => Sql.where_ (conditionsOf newDate options) (Sql.post r))
                           (Sql.posts_join_userProfiles db)))))
    by (rewrite <- Hrows; symmetry; apply length_map).
  split; [|split; [|split]].
  - rewrite Hlen, length_firstn. apply Nat.le_min_l.
  - intros H. rewrite H in Hmore. symmetry in Hmore. apply Nat.ltb_lt in Hmore.
    rewrite Hlen, length_firstn. apply Nat.min_l. now apply Nat.lt_le_incl.
  - intros H. split.
    + destruct (GetPostsResult.nextCursor result) as [c|] eqn:E; trivial.
      destruct Hcur as (Hcur & _); [discriminate | congruence].
    + rewrite H in Hmore. symmetry in Hmore. apply Nat.ltb_ge in Hmore.
      rewrite Hrows, firstn_all2 by exact Hmore. apply sort_perm.
  - intros Hn. split.
    + destruct (GetPostsResult.posts result) as [|x l]; trivial.
      rewrite Hn in Hlen. simpl in Hlen. discriminate.
    + destruct (GetPostsResult.nextCursor result) as [c|] eqn:E; trivial.
      destruct Hcur as (_ & Hcur); [discriminate|].
      rewrite Hn in Hcur. inversion Hcur.
Qed.

Lemma getPosts_page_bounds_witness :
  Examples.page
    (getPosts (fun _ => None) Examples.five (Examples.options MOST_SAVED None 0))
  = Some ([], true, None) /\
  Examples.page
    (getPosts (fun _ => None) Examples.five (Examples.options MOST_SAVED None 9))
  = Some ([1; 2; 3; 4; 5], false, None) /\
  exists result,
    getPosts (fun _ => None) Examples.five (Examples.options MOST_SAVED None 2)
    = Ok result /\
    (List.length (GetPostsResult.posts result) <= 2)%nat.
Proof.
  split; [reflexivity | split; [reflexivity|]].
  destruct (getPosts (fun _ => None) Examples.five
              (Examples.options MOST_SAVED None 2)) as [result|] eqn:E;
    [|vm_compute in E; discriminate].
  exists result. split; [reflexivity|].
  exact (proj1 (getPosts_page_bounds _ _ _ result E)).
Defined.

(** X10. Under every one of the six orders, a listing that fits in one
    page is served whole by the first call: on a store that respects the
    keys, the call without a cursor and without a tags filter (the store
    refuses a statement with one) returns every active row that passes the
    filters and has an author profile, each once, in the strict order of
    the strategy, and no cursor, so the traversal ends there. *)
Theorem listing_that_fits_is_one_page newDate db options fuel :
  let sortBy := default NEWEST (GetPostsOptions.sortBy options) in
  let n := default 20%nat (GetPostsOptions.limit options) in
  tagsGiven options = false ->
  unique_ids db -> unique_profiles db ->
  (List.length (matching db options) <= n)%nat ->
  exists page,
    traverse newDate (S fuel) db options None = Some [page] /\
    Permutation (map rowOf page) (matching db options) /\
    NoDup (map rowId (map rowOf page)) /\
    StronglySorted
      (fun r1 r2 => precedes sortBy (Sql.post r1) (Sql.post r2))
      (map rowOf page).
Proof.
  intros sortBy n Htags Hids Hprof Hfit.
  pose proof (join_NoDup db Hids Hprof) as Hjoin.
  cbn [traverse].
  destruct (getPosts newDate db (GetPostsOptions.with_cursor None options))
    as [result|] eqn:G.
  2:{ unfold getPosts in G. rewrite fetch_first in G by exact Htags.
      discriminate. }
  destruct (getPosts_unfold _ _ _ _ G) as (Hrows & Hmore & Hcur).
  change (conditionsOf newDate (GetPostsOptions.with_cursor None options))
    with (filterConditions options ++ [])%list in Hrows, Hmore.
  rewrite app_nil_r in Hrows, Hmore.
  cbn [GetPostsOptions.with_cursor GetPostsOptions.sortBy GetPostsOptions.limit]
    in Hrows, Hmore, Hcur.
  fold sortBy n in Hrows, Hmore, Hcur. fold (matching db options) in Hrows, Hmore.
  assert (Hlen : (List.length
                    (Sql.sort
                       (fun r1 r2 =>
                          Sql.order_leb (orderByOf sortBy) (Sql.post r1) (Sql.post r2))
                       (matching db options)) <= n)%nat)
    by now rewrite length_sort.
  rewrite firstn_all2 in Hrows by exact Hlen.
  rewrite (proj2 (Nat.ltb_ge _ _) Hlen) in Hmore.
  destruct (GetPostsResult.nextCursor result) as [c|] eqn:E.
  { destruct Hcur as (Hcur & _); [discriminate | congruence]. }
  exists (GetPostsResult.posts result). split; [reflexivity|].
  rewrite Hrows. split; [apply sort_perm|].
  assert (Hnd : NoDup (map rowId
                         (Sql.sort
                            (fun r1 r2 =>
                               Sql.order_leb (orderByOf sortBy) (Sql.post r1) (Sql.post r2))
                            (matching db options))))
    by (apply (listing_NoDup db options); exact Hjoin).
  split; [exact Hnd|].
  apply StronglySorted_strict; [apply (listing_sorted db options) | exact Hnd].
Qed.

Lemma listing_that_fits_is_one_page_witness :
  let options := Examples.options OLDEST None 3 in
  tagsGiven options = false /\
  unique_ids Examples.morning /\ unique_profiles Examples.morning /\
  (List.length (matching Examples.morning options) <= 3)%nat /\
  option_map Examples.ids
    (traverse (fun _ => None) 1 Examples.morning options None)
  = Some [1; 2; 3].
Proof.
  intros options.
  assert (Hids : unique_ids Examples.morning).
  { unfold unique_ids. simpl. repeat constructor; simpl; intuition discriminate. }
  assert (Hprof : unique_profiles Examples.morning).
  { unfold unique_profiles. simpl. repeat constructor; simpl; intuition discriminate. }
  assert (Hfit : (List.length (matching Examples.morning options) <= 3)%nat)
    by (vm_compute; repeat constructor).
  split; [reflexivity|].
  split; [exact Hids | split; [exact Hprof | split; [exact Hfit|]]].
  destruct (listing_that_fits_is_one_page (fun _ => None) Examples.morning options 0
              eq_refl Hids Hprof Hfit) as (page & Ht & _).
  rewrite Ht. vm_compute in Ht. injection Ht as <-. reflexivity.
Defined.

(** X11. A counter cursor is read back as it was written: under
    MOST_SAVED, LEAST_SAVED, MOST_RESPONSES and LEAST_RESPONSES, the cursor
    string made from a row decodes to a single condition which a post
    passes exactly when it lies strictly beyond that row, by counter first
    and by id among equal counters. *)
Theorem count_cursor_round_trip newDate sortBy (lastPost p : Post) :
  count_based sortBy = true ->
  Sql.where_ (cursorConditions newDate sortBy (Some (cursorOf sortBy lastPost))) p
  = true <->
  beyond sortBy (sortKey sortBy lastPost) (Post.id lastPost) p.
Proof.
  intros Hc. rewrite (cursorConditions_cursorOf newDate sortBy lastPost Hc).
  unfold Sql.where_. cbn [forallb]. rewrite andb_true_r.
  apply cursorComparison_holds.
Qed.

Lemma count_cursor_round_trip_witness :
  count_based LEAST_RESPONSES = true /\
  cursorOf LEAST_RESPONSES (Examples.post 12 1000 0 (-3)) = "-3:12" /\
  beyond LEAST_RESPONSES (-3) 12 (Examples.post 13 1000 0 (-3)) /\
  Sql.where_
    (cursorConditions (fun _ => None) LEAST_RESPONSES
       (Some (cursorOf LEAST_RESPONSES (Examples.post 12 1000 0 (-3)))))
    (Examples.post 13 1000 0 (-3)) = true.
Proof.
  assert (Hb : beyond LEAST_RESPONSES (-3) 12 (Examples.post 13 1000 0 (-3))).
  { unfold beyond, sortKey. simpl. right. split; [reflexivity | lia]. }
  split; [reflexivity | split; [reflexivity | split; [exact Hb|]]].
  exact (proj2 (count_cursor_round_trip (fun _ => None) LEAST_RESPONSES
                  (Examples.post 12 1000 0 (-3)) (Examples.post 13 1000 0 (-3))
                  eq_refl) Hb).
Defined.

(* ------------------------------------------------------------------ *)
(** ** Writing, then reading *)

Lemma createPost_unfold data now db :
  exists post,
    createPost data now db
    = (Ok post,
       Db.mk (Db.posts db ++ [post])%list (Db.userProfiles db) (Db.bookmarks db)
         (Db.notifications db) (Db.posts_id_seq db + 1)) /\
    Post.id post = Db.posts_id_seq db /\
    Post.userId post = PostData.userId data /\
    Post.type post = POST /\ Post.parentId post = None /\
    Post.responseCount post = 0 /\ Post.bookmarkCount post = 0 /\
    Post.active post = true /\ Post.status post = AWAITING_PROCESSING /\
    Post.waveformUrl post = None /\
    Post.createdAt post = now /\
    Post.tags post = default [] (PostData.tags data) /\
    Post.city post
    = match PostData.city data with
      | Some (String c s) => String c s
      | _ => "singapore"
      end.
Proof.
  eexists. split; [reflexivity|]. cbn.
  repeat split. now destruct (PostData.city data) as [[|c s]|].
Qed.

(** X12. A post written by [createPost] is read back by [getPostById]:
    on a store that respects the keys, when the author has a profile row
    the lookup under the returned id finds exactly the returned row, joined
    with a profile of that author. The row is a POST without parent, active,
    AWAITING_PROCESSING, with both counters at 0, and its city is
    "singapore" when none (or an empty one) was given. *)
Theorem createPost_then_getPostById data now db (a : Author) viewerUserId post db' :
  store_ok db ->
  In a (Db.userProfiles db) -> Author.userId a = PostData.userId data ->
  createPost data now db = (Ok post, db') ->
  (exists r,
     getPostById db' (Post.id post) viewerUserId = Some r /\
     PostWithAuthor.post r = post /\
     In (PostWithAuthor.author r) (Db.userProfiles db) /\
     Author.userId (PostWithAuthor.author r) = PostData.userId data) /\
  Post.type post = POST /\ Post.parentId post = None /\
  Post.active post = true /\ Post.status post = AWAITING_PROCESSING /\
  Post.responseCount post = 0 /\ Post.bookmarkCount post = 0 /\
  (PostData.city data = None \/ PostData.city data = Some "" ->
   Post.city post = "singapore").
Proof.
  intros (Hnd & Hall) Ha Hu E.
  destruct (createPost_unfold data now db)
    as (post0 & U & Hid & Huser & Ht & Hpar & Hrc & Hbc & Hact & Hst & _ & _ & _ & Hcity).
  rewrite U in E. injection E as <- <-.
  split; [|repeat split; trivial;
           intros [H|H]; rewrite H in Hcity; exact Hcity].
  destruct (getPostById _ (Post.id post0) viewerUserId) as [r|] eqn:G.
  - exists r. split; [reflexivity|].
    destruct (getPostById_Some _ _ _ _ G) as (Hin & Hrid & _).
    destruct (getPostById_Some_author _ _ _ _ G) as (Hain & Hau & _).
    cbn [Db.posts Db.userProfiles] in Hin, Hain.
    assert (Hr : PostWithAuthor.post r = post0).
    { apply in_app_or in Hin as [Hin|[<-|[]]]; trivial.
      destruct (Hall _ Hin) as (Hlt & _). rewrite Hrid, Hid in Hlt. lia. }
    split; [exact Hr|]. split; [exact Hain|]. now rewrite Hau, Hr.
  - exfalso.
    apply (proj1 (getPostById_None_iff _ _ _) G post0 a); trivial.
    + cbn [Db.posts]. apply in_or_app. right. now left.
    + congruence.
Qed.

Lemma createPost_then_getPostById_witness :
  let data := PostData.mk 1 "https://cdn/a.webm" "a.webm" 30 None (Some "") in
  store_ok History.db0 /\
  exists post db',
    createPost data 1000 History.db0 = (Ok post, db') /\
    Post.city post = "singapore" /\
    exists r, getPostById db' (Post.id post) None = Some r /\
              PostWithAuthor.post r = post.
Proof.
  intros data.
  assert (Hok : store_ok History.db0).
  { split; [constructor | intros p []]. }
  split; [exact Hok|].
  destruct (createPost data 1000 History.db0) as [[post|e] db'] eqn:E;
    [|discriminate E].
  exists post, db'. split; [reflexivity|].
  destruct (createPost_then_getPostById data 1000 History.db0
              (Examples.profile 1 "ann") None post db' Hok
              (or_introl eq_refl) eq_refl E)
    as ((r & G & Hr & _) & _ & _ & _ & _ & _ & _ & Hcity).
  split; [apply Hcity; now right|].
  exists r. now split.
Defined.

(** X13. [createResponse] asks for no profile: the response of a user
    without a profile row is stored and the parent is counted up, but the
    response can be read back by nobody: [getPostById] finds nothing under
    its id and no page of any listing holds it. *)
Theorem response_without_profile_is_invisible data now db response db' :
  store_ok db ->
  (forall a, In a (Db.userProfiles db) -> Author.userId a <> ResponseData.userId data) ->
  createResponse data now db = (Ok response, db') ->
  In response (Db.posts db') /\ Post.active response = true /\
  (exists parent parent',
     In parent (Db.posts db) /\ In parent' (Db.posts db') /\
     Post.id parent = ResponseData.parentId data /\
     Post.id parent' = ResponseData.parentId data /\
     Post.responseCount parent' = Post.responseCount parent + 1) /\
  (forall viewerUserId, getPostById db' (Post.id response) viewerUserId = None) /\
  (forall newDate options result row,
     getPosts newDate db' options = Ok result ->
     In row (GetPostsResult.posts result) ->
     Post.id (PostWithAuthor.post row) <> Post.id response).
Proof.
  intros (Hnd & Hall) Hnoprofile E.
  pose proof (createResponse_unfold data now db) as U.
  destruct (Sql.select_post db _) as [parent|] eqn:S; rewrite U in E;
    [|discriminate].
  injection E as <- <-.
  apply select_active_Some in S as (Hin & Hid & _).
  destruct (Hall parent Hin) as (Hlt & _).
  assert (Hnew : forall p,
            In p (map (incrementParent data now)
                    (Db.posts db ++ [responseRow data now db parent])) ->
            Post.id p = Db.posts_id_seq db ->
            Post.userId p = ResponseData.userId data).
  { intros p Hp Hpid. apply in_map_iff in Hp as (q & <- & Hq).
    assert (Hq' : q = responseRow data now db parent).
    { apply in_app_or in Hq as [Hq|[<-|[]]]; trivial.
      destruct (Hall q Hq) as (Hqlt & _).
      unfold incrementParent in Hpid.
      destruct (Post.id q =? _); cbn in Hpid; lia. }
    subst q. unfold incrementParent.
    destruct (Post.id (responseRow data now db parent) =? ResponseData.parentId data);
      reflexivity. }
  cbn [Db.posts Db.userProfiles responseRow Post.id Post.active].
  split; [|split; [reflexivity|split; [|split]]].
  - apply in_map_iff. exists (responseRow data now db parent). split.
    + unfold incrementParent. cbn [responseRow Post.id].
      destruct (Z.eqb_spec (Db.posts_id_seq db) (ResponseData.parentId data));
        [lia | reflexivity].
    + apply in_or_app. right. now left.
  - exists parent, (incrementParent data now parent).
    split; [exact Hin|]. split.
    + apply in_map, in_or_app. now left.
    + unfold incrementParent. rewrite Hid, Z.eqb_refl. now repeat split.
  - intros v. apply getPostById_None_iff. intros p a Hp Ha Hpid _ Hu.
    cbn [Db.posts Db.userProfiles] in Hp, Ha.
    apply (Hnoprofile a Ha). rewrite <- Hu. now apply Hnew.
  - intros newDate options result row G Hrow Hrid.
    destruct (getPosts_rows _ _ _ _ G) as (results & F & Hrows).
    destruct (Hrows row Hrow) as (r & Hr & Hpost & Hauthor).
    destruct (fetch_rows _ _ _ _ _ F Hr) as (Hj & _).
    apply In_join in Hj as (Hp & Ha & Hu).
    cbn [Db.posts Db.userProfiles] in Hp, Ha.
    apply (Hnoprofile _ Ha). rewrite <- Hu. apply Hnew; trivial.
    now rewrite <- Hpost.
Qed.

Lemma response_without_profile_is_invisible_witness :
  let data := ResponseData.mk 7 1 "https://cdn/b.webm" "b.webm" 10 None in
  store_ok History.db1 /\
  (forall a, In a (Db.userProfiles History.db1) ->
     Author.userId a <> ResponseData.userId data) /\
  exists response db',
    createResponse data 2000 History.db1 = (Ok response, db') /\
    getPostById db' (Post.id response) (Some 1) = None /\
    option_map Post.responseCount (Sql.select_post db' [Sql.eq_id 1]) = Some 1.
Proof.
  intros data.
  assert (Hok : store_ok History.db1).
  { split; [repeat constructor; intros [] |].
    intros p [<-|[]]. split; [cbn; lia | discriminate]. }
  assert (Hno : forall a, In a (Db.userProfiles History.db1) ->
                          Author.userId a <> ResponseData.userId data).
  { intros a [<-|[<-|[]]]; discriminate. }
  split; [exact Hok | split; [exact Hno|]].
  destruct (createResponse data 2000 History.db1) as [[response|e] db'] eqn:E;
    [|vm_compute in E; discriminate].
  exists response, db'. split; [reflexivity|].
  destruct (response_without_profile_is_invisible data 2000 History.db1
              response db' Hok Hno E) as (_ & _ & _ & H & _).
  split; [apply H|].
  vm_compute in E. injection E as _ <-. reflexivity.
Defined.

(* ------------------------------------------------------------------ *)
(** ** The worker's updates *)

Lemma sort_unordered {A} (leb : A -> A -> bool) (l : list A) :
  (forall a b, leb a b = true) -> Sql.sort leb l = l.
Proof.
  intros H. induction l as [|x l IH]; simpl; trivial.
  rewrite IH. destruct l as [|y l]; simpl; trivial. now rewrite H.
Qed.

Lemma filter_map {A B} (g : A -> B) (P : B -> bool) (l : list A) :
  filter P (map g l) = map g (filter (fun a => P (g a)) l).
Proof.
  induction l as [|x l IH]; simpl; trivial.
  destruct (P (g x)); simpl; now rewrite IH.
Qed.

Lemma join_map (f : Post -> Post) db :
  (forall p, Post.userId (f p) = Post.userId p) ->
  Sql.posts_join_userProfiles (Db.with_posts (map f (Db.posts db)) db)
  = map (fun r => Sql.mkRow (f (Sql.post r)) (Sql.author r))
      (Sql.posts_join_userProfiles db).
Proof.
  intros Hf. unfold Sql.posts_join_userProfiles.
  cbn [Db.posts Db.userProfiles Db.with_posts].
  induction (Db.posts db) as [|p posts IH]; simpl; trivial.
  rewrite map_app, IH, map_map. f_equal.
  rewrite (filter_ext (fun a => Post.userId (f p) =? Author.userId a)
             (fun a => Post.userId p =? Author.userId a))
    by (intros a; now rewrite Hf).
  reflexivity.
Qed.

Lemma getPostById_map (f : Post -> Post) db id viewerUserId :
  (forall p, Post.id (f p) = Post.id p /\ Post.active (f p) = Post.active p /\
             Post.userId (f p) = Post.userId p) ->
  getPostById (Db.with_posts (map f (Db.posts db)) db) id viewerUserId
  = option_map
      (fun r => PostWithAuthor.mk (f (PostWithAuthor.post r))
                  (PostWithAuthor.author r) (PostWithAuthor.isBookmarked r))
      (getPostById db id viewerUserId).
Proof.
  intros Hf. unfold getPostById, Sql.rows.
  rewrite !sort_unordered by reflexivity.
  rewrite join_map by (intros p; apply Hf).
  rewrite filter_map. cbn [Sql.post].
  rewrite (filter_ext
             (fun r => Sql.where_ [Sql.eq_id id; Sql.eq_active true] (f (Sql.post r)))
             (fun r => Sql.where_ [Sql.eq_id id; Sql.eq_active true] (Sql.post r))).
  2:{ intros r. destruct (Hf (Sql.post r)) as (Hi & Ha & _).
      cbn. now rewrite Hi, Ha. }
  destruct (filter _ (Sql.posts_join_userProfiles db)) as [|r rest]; reflexivity.
Qed.

Lemma update_unfold (set : Post -> Post) postId db :
  tx_update_post set postId db
  = (Ok tt,
     Db.with_posts
       (map (fun p => if Post.id p =? postId then set p else p) (Db.posts db)) db).
Proof. reflexivity. Qed.

Lemma getPostById_update (set : Post -> Post) postId db id viewerUserId :
  (forall p, Post.id (set p) = Post.id p /\ Post.active (set p) = Post.active p /\
             Post.userId (set p) = Post.userId p) ->
  getPostById (snd (tx_update_post set postId db)) id viewerUserId
  = option_map (updated set postId) (getPostById db id viewerUserId).
Proof.
  intros Hset. rewrite update_unfold. cbn [snd].
  rewrite getPostById_map; [reflexivity|].
  intros p. destruct (Post.id p =? postId); [apply Hset | repeat split].
Qed.

(** X14. The worker's updates are seen at once and change nothing else:
    after [updatePostStatus] or [updatePostWaveformUrl] of a post,
    [getPostById] of any id finds a row exactly when it did before, with
    the same author and flag, and the row differs only if it is the updated
    post, by the new status or waveform URL and [updatedAt]. Neither update
    checks that the post exists or is active: for an id that is not stored
    both succeed and leave the store as it was. *)
Theorem worker_updates_read_back db postId id viewerUserId now :
  (forall status,
     getPostById (snd (updatePostStatus postId status now db)) id viewerUserId
     = option_map (updated (Post.set_status status now) postId)
         (getPostById db id viewerUserId)) /\
  (forall url,
     getPostById (snd (updatePostWaveformUrl postId url now db)) id viewerUserId
     = option_map (updated (Post.set_waveformUrl url now) postId)
         (getPostById db id viewerUserId)) /\
  ((forall p, In p (Db.posts db) -> Post.id p <> postId) ->
   forall status url,
     updatePostStatus postId status now db = (Ok tt, db) /\
     updatePostWaveformUrl postId url now db = (Ok tt, db)).
Proof.
  split; [|split].
  - intros status. apply getPostById_update. intros p. repeat split.
  - intros url. apply getPostById_update. intros p. repeat split.
  - intros Hnone status url.
    assert (Hid : forall set,
              map (fun p => if Post.id p =? postId then set p else p) (Db.posts db)
              = Db.posts db).
    { intros set. rewrite <- (map_id (Db.posts db)) at 2.
      apply map_ext_in. intros p Hp.
      destruct (Z.eqb_spec (Post.id p) postId) as [E|]; trivial.
      now destruct (Hnone p Hp). }
    unfold updatePostStatus, updatePostWaveformUrl.
    rewrite !update_unfold, !Hid. now destruct db.
Qed.

Lemma worker_updates_read_back_witness :
  (forall p, In p (Db.posts Examples.mixed) -> Post.id p <> 9) /\
  updatePostStatus 9 DELETED 5000 Examples.mixed = (Ok tt, Examples.mixed) /\
  option_map (fun r => Post.status (PostWithAuthor.post r))
    (getPostById (snd (updatePostStatus 1 DELETED 5000 Examples.mixed)) 1 None)
  = Some DELETED.
Proof.
  assert (H : forall p, In p (Db.posts Examples.mixed) -> Post.id p <> 9).
  { intros p [<-|[<-|[<-|[]]]]; discriminate. }
  split; [exact H|]. split; [|reflexivity].
  exact (proj1 (proj2 (proj2 (worker_updates_read_back Examples.mixed 9 1 None 5000))
                  H DELETED "")).
Defined.

Lemma mapPostToFull_status_round_trip (r : PostWithAuthor) postId t1 t2 :
  mapPostToFull
    (updated (Post.set_status (Post.status (PostWithAuthor.post r)) t2) postId
       (updated (Post.set_status DELETED t1) postId r))
  = mapPostToFull r.
Proof.
  destruct r as [p a b]. unfold updated. cbn [PostWithAuthor.post
    PostWithAuthor.author PostWithAuthor.isBookmarked].
  destruct (Post.id p =? postId) eqn:E.
  - cbn [Post.set_status Post.id]. rewrite E. now destruct p.
  - now rewrite E.
Qed.

Lemma mapPostToFull_redacted (r : PostWithAuthor) t1 :
  mapPostToFull
    (updated (Post.set_status DELETED t1) (Post.id (PostWithAuthor.post r)) r)
  = redacted (mapPostToFull r).
Proof.
  destruct r as [p a b]. unfold updated. cbn [PostWithAuthor.post
    PostWithAuthor.author PostWithAuthor.isBookmarked].
  rewrite Z.eqb_refl. now destruct p.
Qed.

(** X15. Taking a post down hides its media and nothing more, and can be
    undone. When [getPostById] shows a post, setting its status to DELETED
    makes the same query show the same view with [status = DELETED],
    [audioUrl = null] and [waveformUrl = null]; setting the status back
    makes it show the first view again: the stored locators were kept. *)
Theorem status_deleted_and_back db user id full t1 t2 :
  Query_getPostById db user id = Some full ->
  let db1 := snd (updatePostStatus id DELETED t1 db) in
  let db2 :=
    snd (updatePostStatus id (PostSummary.status (PostFull.summary full)) t2 db1) in
  Query_getPostById db1 user id = Some (redacted full) /\
  Query_getPostById db2 user id = Some full.
Proof.
  intros Q db1 db2. unfold Query_getPostById in *.
  destruct (getPostById db id (Some user)) as [r|] eqn:G; [|discriminate].
  injection Q as <-.
  destruct (getPostById_Some _ _ _ _ G) as (_ & Hid & _).
  assert (G1 : getPostById db1 id (Some user)
               = Some (updated (Post.set_status DELETED t1) id r)).
  { unfold db1, updatePostStatus. rewrite getPostById_update, G; [reflexivity|].
    intros p. repeat split. }
  split.
  - rewrite G1. f_equal. rewrite <- Hid. apply mapPostToFull_redacted.
  - unfold db2, updatePostStatus. rewrite getPostById_update, G1
      by (intros p; repeat split).
    cbn [option_map]. f_equal.
    change (PostSummary.status (PostFull.summary (mapPostToFull r)))
      with (Post.status (PostWithAuthor.post r)).
    apply mapPostToFull_status_round_trip.
Qed.

Lemma status_deleted_and_back_witness :
  let full := mapPostToFull (Examples.row (Examples.post 1 1000 1 1) 1 "ann" true) in
  Query_getPostById Examples.mixed 2 1 = Some full /\
  PostFull.audioUrl full = Some "https://cdn/a.webm" /\
  Query_getPostById (snd (updatePostStatus 1 DELETED 5000 Examples.mixed)) 2 1
  = Some (redacted full) /\
  PostFull.audioUrl (redacted full) = None.
Proof.
  intros full.
  assert (Q : Query_getPostById Examples.mixed 2 1 = Some full)
    by (vm_compute; reflexivity).
  split; [exact Q|]. split; [reflexivity|]. split; [|reflexivity].
  exact (proj1 (status_deleted_and_back Examples.mixed 2 1 full 5000 6000 Q)).
Defined.

(* ------------------------------------------------------------------ *)
(** ** A response created, then deleted *)

(** X16. Deleting a response right after creating it undoes the count: on
    a store that respects the keys and has no negative counter, the
    responder's [deletePost] of the new response returns [true], the
    response is inactive, and every post stored before has again the
    [responseCount] (and the [active] flag, [bookmarkCount] and [status])
    it had before the response was created. *)
Theorem createResponse_then_deletePost data now now' db response db1 :
  store_ok db -> counters_nonneg db ->
  createResponse data now db = (Ok response, db1) ->
  exists db2,
    deletePost (Post.id response) (ResponseData.userId data) now' db1
    = (Ok true, db2) /\
    (forall p2, In p2 (Db.posts db2) -> Post.id p2 = Post.id response ->
       Post.active p2 = false) /\
    (forall p, In p (Db.posts db) ->
       exists p2,
         In p2 (Db.posts db2) /\ Post.id p2 = Post.id p /\
         Post.responseCount p2 = Post.responseCount p /\
         Post.bookmarkCount p2 = Post.bookmarkCount p /\
         Post.active p2 = Post.active p /\ Post.status p2 = Post.status p).
Proof.
  intros Hok Hnn E.
  pose proof (createResponse_unfold data now db) as U.
  destruct (Sql.select_post db _) as [parent|] eqn:S;
    [|rewrite U in E; discriminate].
  pose proof S as S'. apply select_active_Some in S' as (Hin & Hid & _).
  pose proof Hok as (Hnd & Hall).
  destruct (Hall parent Hin) as (Hlt & _).
  assert (Hseq : 1 <= Db.posts_id_seq db) by lia.
  destruct (step_store_ok db db1 Hseq Hok (step_createResponse _ _ _ _ _ E))
    as (_ & Hnd1 & _).
  rewrite U in E. injection E as <- <-.
  set (row := responseRow data now db parent) in *.
  assert (Hrow : incrementParent data now row = row).
  { unfold incrementParent, row. cbn [responseRow Post.id].
    destruct (Z.eqb_spec (Db.posts_id_seq db) (ResponseData.parentId data));
      [lia | reflexivity]. }
  set (db1 := Db.mk _ _ _ _ _) in *.
  assert (Hin1 : In row (Db.posts db1)).
  { unfold db1. cbn [Db.posts]. rewrite <- Hrow at 1.
    apply in_map, in_or_app. right. now left. }
  pose proof (deletePost_unfold (Post.id row) (ResponseData.userId data) now' db1) as D.
  rewrite (select_active_unique db1 row Hnd1 Hin1 eq_refl) in D.
  change (Post.userId row) with (ResponseData.userId data) in D.
  rewrite Z.eqb_refl in D.
  eexists. split; [exact D|].
  cbn [Db.posts Db.with_posts]. split.
  - intros p2 Hp2 Hid2.
    apply in_map_iff in Hp2 as (q & <- & Hq).
    apply in_map_iff in Hq as (q' & <- & _).
    rewrite decrementParent_id, softDelete_id in Hid2.
    rewrite decrementParent_active. now apply softDelete_active.
  - intros p Hp.
    exists (decrementParent (Post.parentId row) now'
              (softDelete (Post.id row) now' (incrementParent data now p))).
    split.
    + apply in_map, in_map. unfold db1. cbn [Db.posts].
      apply in_map, in_or_app. now left.
    + destruct (Hall p Hp) as (Hplt & _). destruct (Hnn p Hp) as (Hrc & _).
      unfold decrementParent, softDelete, incrementParent.
      change (Post.parentId row) with (Some (ResponseData.parentId data)).
      change (Post.id row) with (Db.posts_id_seq db).
      unfold JS.truthy_opt_number, JS.truthy_number. cbn [default].
      destruct (Z.eqb_spec (ResponseData.parentId data) 0) as [E0|_]; [lia|].
      cbn [negb].
      destruct (Z.eqb_spec (Post.id p) (ResponseData.parentId data)) as [Ep|Ep].
      * cbn [Post.set_responseCount Post.id].
        destruct (Z.eqb_spec (Post.id p) (Db.posts_id_seq db)); [lia|].
        cbn [Post.set_responseCount Post.id].
        destruct (Z.eqb_spec (Post.id p) (ResponseData.parentId data)); [|contradiction].
        cbn. repeat split. lia.
      * destruct (Z.eqb_spec (Post.id p) (Db.posts_id_seq db)); [lia|].
        destruct (Z.eqb_spec (Post.id p) (ResponseData.parentId data)); [contradiction|].
        repeat split.
Qed.

Lemma createResponse_then_deletePost_witness :
  let data := ResponseData.mk 2 1 "https://cdn/b.webm" "b.webm" 10 None in
  store_ok History.db1 /\ counters_nonneg History.db1 /\
  createResponse data 2000 History.db1
  = (Ok (responseRow data 2000 History.db1
           (Post.mk 1 1 POST None "https://cdn/a.webm" "a.webm" 30 ["x"] None
              0 0 "singapore" true AWAITING_PROCESSING 1000 1000)),
     History.db2) /\
  exists db2, deletePost 2 2 3000 History.db2 = (Ok true, db2).
Proof.
  intros data.
  assert (Hok : store_ok History.db1).
  { split; [repeat constructor; intros [] |].
    intros p [<-|[]]. split; [cbn; lia | discriminate]. }
  assert (Hnn : counters_nonneg History.db1).
  { intros p [<-|[]]. split; cbn; lia. }
  assert (E : createResponse data 2000 History.db1
              = (Ok (responseRow data 2000 History.db1
                       (Post.mk 1 1 POST None "https://cdn/a.webm" "a.webm" 30 ["x"]
                          None 0 0 "singapore" true AWAITING_PROCESSING 1000 1000)),
                 History.db2)) by reflexivity.
  split; [exact Hok | split; [exact Hnn | split; [exact E|]]].
  destruct (createResponse_then_deletePost data 2000 3000 History.db1 _ _ Hok Hnn E)
    as (db2 & D & _).
  exists db2. exact D.
Defined.

(* ------------------------------------------------------------------ *)
(** ** What each listing of the API can show *)

Lemma getPosts_row_holds newDate db options result row (c : Sql.Condition) :
  getPosts newDate db options = Ok result ->
  In row (GetPostsResult.posts result) ->
  In c (filterConditions options) ->
  Sql.holds c (PostWithAuthor.post row) = true.
Proof.
  intros G Hrow Hc.
  destruct (getPosts_rows _ _ _ _ G) as (results & F & Hall).
  destruct (Hall row Hrow) as (r & Hr & -> & _).
  destruct (fetch_rows _ _ _ _ _ F Hr) as (_ & Hw).
  unfold conditionsOf in Hw. rewrite where_app in Hw.
  apply andb_prop in Hw as (Hw & _). now apply (where_In _ c) in Hw.
Qed.

Lemma listPosts_rows newDate message db options connection row :
  listPosts newDate message db options = inl connection ->
  In row (PostsConnection.posts connection) ->
  exists result post,
    getPosts newDate db options = Ok result /\
    In post (GetPostsResult.posts result) /\
    row = mapPostToSummary post /\
    List.length (PostsConnection.posts connection)
    = List.length (GetPostsResult.posts result).
Proof.
  unfold listPosts.
  destruct (getPosts newDate db options) as [result|]; [|discriminate].
  intros [= <-]. cbn [PostsConnection.posts]. intros Hrow.
  apply in_map_iff in Hrow as (post & <- & Hpost).
  exists result, post. repeat split; trivial. apply length_map.
Qed.

(** X17. What the listings of the API show. [getPosts] shows only rows of
    type POST, whatever is stored; [getResponses] of a post shows only
    rows of type RESPONSE whose parent is that post; [getUserPosts] shows
    only rows of that user, of type POST unless a type is asked for. Each
    shows at most [limit] rows, and 20 when the limit is absent or 0. *)
Theorem listings_scope newDate db :
  (forall user city tags cursor limit connection row,
     Query_getPosts newDate db user city tags cursor limit = inl connection ->
     In row (PostsConnection.posts connection) ->
     PostSummary.type row = POST /\
     (List.length (PostsConnection.posts connection)
      <= default 20 (limit_or_20 limit))%nat) /\
  (forall user postId sortBy cursor limit connection row,
     Query_getResponses newDate db user postId sortBy cursor limit = inl connection ->
     In row (PostsConnection.posts connection) ->
     PostSummary.type row = RESPONSE /\
     (postId <> 0 -> PostSummary.parentId row = Some postId)) /\
  (forall viewer userId type sortBy cursor limit connection row,
     Query_getUserPosts newDate db viewer userId type sortBy cursor limit
     = inl connection ->
     In row (PostsConnection.posts connection) ->
     PostSummary.type row = default POST type /\
     (userId <> 0 -> PostSummary.userId row = userId)) /\
  (forall limit,
     limit_or_20 limit = Some 20%nat <->
     limit = None \/ limit = Some 0%nat \/ limit = Some 20%nat).
Proof.
  split; [|split; [|split]].
  - intros user city tags cursor limit connection row Q Hrow.
    destruct (listPosts_rows _ _ _ _ _ _ Q Hrow) as (result & post & G & Hpost & -> & Hlen).
    destruct (getPosts_row_active_type _ _ _ _ _ G Hpost) as (_ & _ & Ht).
    split; [exact Ht|].
    rewrite Hlen.
    destruct (getPosts_unfold _ _ _ _ G) as (Hrows & _).
    rewrite <- (length_map rowOf), Hrows, length_firstn. apply Nat.le_min_l.
  - intros user postId sortBy cursor limit connection row Q Hrow.
    destruct (listPosts_rows _ _ _ _ _ _ Q Hrow) as (result & post & G & Hpost & -> & _).
    destruct (getPosts_row_active_type _ _ _ _ _ G Hpost) as (_ & _ & Ht).
    split; [exact Ht|]. intros Hne.
    assert (H : Sql.holds (Sql.eq_parentId postId) (PostWithAuthor.post post) = true).
    { apply (getPosts_row_holds _ _ _ _ _ _ G Hpost).
      unfold filterConditions. cbn [GetPostsOptions.parentId GetPostsOptions.city
        GetPostsOptions.userId GetPostsOptions.tags GetPostsOptions.type].
      assert (Ht' : JS.truthy_number postId = true)
        by (unfold JS.truthy_number; now destruct (Z.eqb_spec postId 0)).
      rewrite Ht'. cbn. do 2 right. now left. }
    cbn in H. cbn [mapPostToSummary PostSummary.parentId].
    destruct (Post.parentId (PostWithAuthor.post post)) as [m|]; [|discriminate].
    apply Z.eqb_eq in H. subst m. apply number_or_null_valid. congruence.
  - intros viewer userId type sortBy cursor limit connection row Q Hrow.
    destruct (listPosts_rows _ _ _ _ _ _ Q Hrow) as (result & post & G & Hpost & -> & _).
    destruct (getPosts_row_active_type _ _ _ _ _ G Hpost) as (_ & _ & Ht).
    split; [exact Ht|]. intros Hne.
    assert (H : Sql.holds (Sql.eq_userId userId) (PostWithAuthor.post post) = true).
    { apply (getPosts_row_holds _ _ _ _ _ _ G Hpost).
      unfold filterConditions. cbn [GetPostsOptions.parentId GetPostsOptions.city
        GetPostsOptions.userId GetPostsOptions.tags GetPostsOptions.type].
      assert (Ht' : JS.truthy_number userId = true)
        by (unfold JS.truthy_number; now destruct (Z.eqb_spec userId 0)).
      rewrite Ht'. cbn. do 2 right. now left. }
    cbn in H. now apply Z.eqb_eq in H.
  - intros [[|n]|]; cbn; split; intros H.
    + right. now left.
    + reflexivity.
    + injection H as H. right. right. now rewrite H.
    + destruct H as [H|[H|H]]; try discriminate H. exact H.
    + now left.
    + reflexivity.
Qed.

Lemma listings_scope_witness :
  exists connection,
    Query_getResponses (fun _ => None) Examples.mixed 1 1 None None None
    = inl connection /\
    map PostSummary.id (PostsConnection.posts connection) = [2] /\
    Forall (fun row => PostSummary.parentId row = Some 1)
      (PostsConnection.posts connection).
Proof.
  destruct (Query_getResponses (fun _ => None) Examples.mixed 1 1 None None None)
    as [connection|e] eqn:Q; [|vm_compute in Q; discriminate].
  exists connection. split; [reflexivity|]. split.
  - vm_compute in Q. injection Q as <-. reflexivity.
  - apply Forall_forall. intros row Hrow.
    destruct (listings_scope (fun _ => None) Examples.mixed) as (_ & H & _).
    apply (H 1 1 None None None connection row Q Hrow). discriminate.
Defined.

(* ------------------------------------------------------------------ *)
(** ** How a time cursor is read *)

Lemma digit_char_cases (d : Z) :
  Ascii.eqb (JS.digit_char d) ":" = false /\
  JS.digit_of (JS.digit_char d) = Some (d mod 10).
Proof.
  unfold JS.digit_char.
  pose proof (Z.mod_pos_bound d 10 eq_refl) as Hb.
  remember (Z.to_nat (d mod 10)) as k eqn:Ek.
  assert (Hk : d mod 10 = Z.of_nat k) by lia.
  assert (Hlt : (k < 10)%nat) by lia.
  rewrite Hk. clear Ek Hk Hb.
  do 10 (destruct k as [|k]; [split; reflexivity|]).
  exfalso. lia.
Qed.

Lemma colon_free_app (a b : string) :
  colon_free (a ++ b) = andb (colon_free a) (colon_free b).
Proof.
  induction a as [|c a IH]; simpl; trivial. rewrite IH. apply andb_assoc.
Qed.

Lemma colon_free_pad2 (n : Z) : colon_free (JS.pad2 n) = true.
Proof.
  unfold JS.pad2. cbn [colon_free].
  now rewrite (proj1 (digit_char_cases (n / 10))), (proj1 (digit_char_cases n)).
Qed.

Lemma colon_free_year_string (y : Z) : colon_free (JS.year_string y) = true.
Proof.
  unfold JS.year_string, JS.pad6, JS.pad4, JS.pad3.
  destruct (andb _ _); [|destruct (y <? 0)]; cbn [colon_free];
    rewrite ?(proj1 (digit_char_cases _)), ?colon_free_pad2; reflexivity.
Qed.

Lemma colon_free_dateHourText (ms : Z) : colon_free (dateHourText ms) = true.
Proof.
  unfold dateHourText. destruct (JS.civil_of_days _) as [[y m] d].
  rewrite !colon_free_app, colon_free_year_string, !colon_free_pad2. reflexivity.
Qed.

Lemma split_colon_free (a rest : string) :
  colon_free a = true ->
  JS.split ":" (a ++ String ":" rest) = a :: JS.split ":" rest.
Proof.
  induction a as [|c a IH]; simpl; trivial.
  intros H. apply andb_prop in H as (Hc & Ha).
  apply negb_true_iff in Hc. rewrite Hc, (IH Ha). reflexivity.
Qed.

Lemma append_assoc (a b c : string) : (a ++ b) ++ c = a ++ (b ++ c).
Proof. induction a as [|x a IH]; simpl; congruence. Qed.

Lemma toISOString_parts (ms : Z) :
  exists rest,
    JS.toISOString ms
    = dateHourText ms ++ ":" ++ JS.pad2 (minuteOf ms) ++ ":" ++ rest.
Proof.
  unfold JS.toISOString, dateHourText, minuteOf.
  destruct (JS.civil_of_days _) as [[y m] d].
  eexists. rewrite !append_assoc. reflexivity.
Qed.

Lemma parseInt_pad2 (n : Z) : 0 <= n < 100 -> JS.parseInt (JS.pad2 n) = Some n.
Proof.
  intros Hn.
  destruct (digit_char_cases (n / 10)) as (_ & H1).
  destruct (digit_char_cases n) as (_ & H2).
  rewrite parseInt_digits.
  - unfold JS.pad2. cbn [JS.parse_digits]. rewrite H1, H2. f_equal.
    rewrite (Z.mod_small (n / 10) 10) by
      (split; [apply Z.div_pos; lia | apply Z.div_lt_upper_bound; lia]).
    pose proof (Z.div_mod n 10). lia.
  - unfold JS.pad2, JS.starts_with_digit. now rewrite H1.
Qed.

Lemma minuteOf_bounds (ms : Z) : 0 <= minuteOf ms < 60.
Proof. unfold minuteOf. apply Z.mod_pos_bound. lia. Qed.

Lemma dateHourText_nonempty (ms : Z) : dateHourText ms <> "".
Proof.
  unfold dateHourText. destruct (JS.civil_of_days _) as [[y m] d].
  unfold JS.year_string, JS.pad4, JS.pad6.
  destruct (andb _ _); [|destruct (y <? 0)]; discriminate.
Qed.

(** X18. Under NEWEST and OLDEST the cursor written for a row is not read
    back as that row. The ISO timestamp in it has colons of its own, so
    for every post the key half of its cursor is the timestamp cut after
    the hour, [YYYY-MM-DDTHH], and the id half is the minute of the
    timestamp: the comparison decoded from the cursor is against
    [new Date] of that text and the minute, and the id of the row never
    reaches it. *)
Theorem time_cursor_reads_minute_as_id newDate sortBy (lastPost : Post) :
  count_based sortBy = false ->
  (exists rest,
     JS.split ":" (cursorOf sortBy lastPost)
     = dateHourText (Post.createdAt lastPost)
       :: JS.pad2 (minuteOf (Post.createdAt lastPost)) :: rest) /\
  cursorConditions newDate sortBy (Some (cursorOf sortBy lastPost))
  = [cursorComparison sortBy
       (newDate (dateHourText (Post.createdAt lastPost)))
       (Some (minuteOf (Post.createdAt lastPost)))].
Proof.
  intros Hc.
  assert (Hcur : cursorOf sortBy lastPost
                 = JS.toISOString (Post.createdAt lastPost) ++ ":"
                     ++ JS.string_of_Z (Post.id lastPost))
    by (destruct sortBy; try discriminate Hc; reflexivity).
  destruct (toISOString_parts (Post.createdAt lastPost)) as (rest & Hiso).
  assert (Hs : exists rest',
             JS.split ":" (cursorOf sortBy lastPost)
             = dateHourText (Post.createdAt lastPost)
               :: JS.pad2 (minuteOf (Post.createdAt lastPost)) :: rest').
  { rewrite Hcur, Hiso, !append_assoc.
    change (":" ++ ?x) with (String ":" x).
    rewrite split_colon_free by apply colon_free_dateHourText.
    change (":" ++ ?x) with (String ":" x).
    rewrite split_colon_free by apply colon_free_pad2.
    eexists. reflexivity. }
  split; [exact Hs|].
  destruct Hs as (rest' & Hs).
  rewrite (cursorConditions_present _ _ _ _ _ _ Hs).
  - rewrite parseInt_pad2.
    + destruct sortBy; try discriminate Hc; reflexivity.
    + pose proof (minuteOf_bounds (Post.createdAt lastPost)). lia.
  - apply dateHourText_nonempty.
  - discriminate.
Qed.

Lemma time_cursor_reads_minute_as_id_witness :
  count_based NEWEST = false /\
  cursorOf NEWEST (Examples.post 3 1704105000000 0 0) = "2024-01-01T10:30:00.000Z:3" /\
  dateHourText 1704105000000 = "2024-01-01T10" /\
  minuteOf 1704105000000 = 30 /\
  cursorConditions (fun _ => None) NEWEST
    (Some (cursorOf NEWEST (Examples.post 3 1704105000000 0 0)))
  = [Sql.row_lt Sql.posts_createdAt None (Some 30)].
Proof.
  split; [reflexivity|]. split; [vm_compute; reflexivity|].
  split; [vm_compute; reflexivity|]. split; [reflexivity|].
  rewrite (proj2 (time_cursor_reads_minute_as_id (fun _ => None) NEWEST
                    (Examples.post 3 1704105000000 0 0) eq_refl)).
  reflexivity.
Defined.

(* ------------------------------------------------------------------ *)
(** ** What a delete leaves alone *)

Lemma getPostById_map_at (f : Post -> Post) db id viewerUserId :
  (forall p, Post.id (f p) = Post.id p /\ Post.userId (f p) = Post.userId p /\
             (Post.id p = id -> Post.active (f p) = Post.active p)) ->
  getPostById (Db.with_posts (map f (Db.posts db)) db) id viewerUserId
  = option_map
      (fun r => PostWithAuthor.mk (f (PostWithAuthor.post r))
                  (PostWithAuthor.author r) (PostWithAuthor.isBookmarked r))
      (getPostById db id viewerUserId).
Proof.
  intros Hf. unfold getPostById, Sql.rows.
  rewrite !sort_unordered by reflexivity.
  rewrite join_map by (intros p; apply Hf).
  rewrite filter_map. cbn [Sql.post].
  rewrite (filter_ext
             (fun r => Sql.where_ [Sql.eq_id id; Sql.eq_active true] (f (Sql.post r)))
             (fun r => Sql.where_ [Sql.eq_id id; Sql.eq_active true] (Sql.post r))).
  2:{ intros r. destruct (Hf (Sql.post r)) as (Hi & _ & Ha).
      cbn. rewrite Hi.
      destruct (Z.eqb_spec (Post.id (Sql.post r)) id) as [E|]; trivial.
      now rewrite (Ha E). }
  destruct (filter _ (Sql.posts_join_userProfiles db)) as [|r rest]; reflexivity.
Qed.

(** X19. [deletePost] hides one post and no other. After a delete that
    returned [true], [getPostById] of any other id finds a row exactly
    when it did before, with the same author and flag and the same
    content; only its [responseCount] may be one less (clamped at zero),
    when it is the parent of the deleted row. In particular the responses
    to a deleted post stay active and readable. *)
Theorem deletePost_keeps_other_posts postId userId now db db' id viewerUserId :
  deletePost postId userId now db = (Ok true, db') ->
  id <> postId ->
  match getPostById db id viewerUserId with
  | None => getPostById db' id viewerUserId = None
  | Some r =>
      exists r',
        getPostById db' id viewerUserId = Some r' /\
        PostWithAuthor.author r' = PostWithAuthor.author r /\
        PostWithAuthor.isBookmarked r' = PostWithAuthor.isBookmarked r /\
        same_but_count (PostWithAuthor.post r) (PostWithAuthor.post r') /\
        (Post.responseCount (PostWithAuthor.post r')
         = Post.responseCount (PostWithAuthor.post r) \/
         Post.responseCount (PostWithAuthor.post r')
         = Z.max (Post.responseCount (PostWithAuthor.post r) - 1) 0)
  end.
Proof.
  intros E Hne.
  pose proof (deletePost_unfold postId userId now db) as U.
  destruct (Sql.select_post db _) as [x|]; [|rewrite U in E; discriminate].
  destruct (Post.userId x =? userId); rewrite U in E; [|discriminate].
  injection E as <-. rewrite map_map.
  rewrite getPostById_map_at.
  2:{ intros p. rewrite decrementParent_id, softDelete_id. split; trivial.
      split.
      - unfold decrementParent, softDelete.
        destruct (JS.truthy_opt_number _); destruct (Post.id p =? postId);
          cbn [Post.set_active Post.id]; try reflexivity;
          destruct (Z.eqb _ _); reflexivity.
      - intros Hid. rewrite decrementParent_active. unfold softDelete.
        destruct (Z.eqb_spec (Post.id p) postId); [congruence | reflexivity]. }
  destruct (getPostById db id viewerUserId) as [r|] eqn:G; [|reflexivity].
  destruct (getPostById_Some _ _ _ _ G) as (_ & Hid & _).
  eexists. split; [reflexivity|]. cbn.
  split; [reflexivity|]. split; [reflexivity|].
  unfold softDelete.
  destruct (Z.eqb_spec (Post.id (PostWithAuthor.post r)) postId) as [E|_];
    [congruence|].
  unfold decrementParent. destruct (JS.truthy_opt_number _).
  - destruct (Post.id (PostWithAuthor.post r) =? _).
    + split; [repeat split | now right].
    + split; [repeat split | now left].
  - split; [repeat split | now left].
Qed.

Lemma deletePost_keeps_other_posts_witness :
  deletePost 1 1 9000 History.db2
  = (Ok true, snd (deletePost 1 1 9000 History.db2)) /\
  getPostById (snd (deletePost 1 1 9000 History.db2)) 1 None = None /\
  exists r',
    getPostById (snd (deletePost 1 1 9000 History.db2)) 2 None = Some r' /\
    Post.parentId (PostWithAuthor.post r') = Some 1 /\
    Post.active (PostWithAuthor.post r') = true.
Proof.
  assert (E : deletePost 1 1 9000 History.db2
              = (Ok true, snd (deletePost 1 1 9000 History.db2))) by reflexivity.
  split; [exact E|]. split; [reflexivity|].
  pose proof (deletePost_keeps_other_posts 1 1 9000 History.db2 _ 2 None E) as H.
  assert (G : exists r, getPostById History.db2 2 None = Some r /\
                        Post.parentId (PostWithAuthor.post r) = Some 1 /\
                        Post.active (PostWithAuthor.post r) = true)
    by (eexists; repeat split; reflexivity).
  destruct G as (r & G & Hpar & Hact). rewrite G in H.
  destruct H as (r' & G' & _ & _ & Hsame & _); [discriminate|].
  exists r'. split; [exact G'|].
  destruct Hsame as (_ & _ & _ & Hp & _ & _ & _ & _ & _ & _ & _ & Ha & _).
  rewrite Hp, Ha. split; assumption.
Defined.

(* ------------------------------------------------------------------ *)
(** ** One page of [getPosts] *)

(** The cursor conditions are none, and then every row counts as beyond
    the cursor, or the one comparison against what the two halves parse
    to. *)
Lemma cursorConditions_cases newDate sortBy cursor :
  (cursorConditions newDate sortBy cursor = [] /\
   forall p, beyondCursor newDate sortBy cursor p) \/
  (exists c cursorValue cursorId rest,
     cursor = Some c /\
     JS.split ":" c = cursorValue :: cursorId :: rest /\
     cursorValue <> "" /\ cursorId <> "" /\
     cursorConditions newDate sortBy cursor
     = [cursorComparison sortBy (parseKey newDate sortBy cursorValue)
          (JS.parseInt cursorId)]).
Proof.
  destruct cursor as [c|].
  2:{ left. split; [reflexivity|]. intros p c v i rest H. discriminate H. }
  destruct (JS.split ":" c) as [|cursorValue [|cursorId rest]] eqn:Hs.
  - left. split.
    + apply cursorConditions_missing. unfold half_missing. now rewrite Hs.
    + intros p c' v i rest' [= <-] H. rewrite Hs in H. discriminate H.
  - left. split.
    + apply cursorConditions_missing. unfold half_missing. now rewrite Hs.
    + intros p c' v i rest' [= <-] H. rewrite Hs in H. discriminate H.
  - destruct (string_dec cursorValue "") as [Hv|Hv];
      [|destruct (string_dec cursorId "") as [Hi|Hi]].
    + left. split.
      * apply cursorConditions_missing. unfold half_missing. rewrite Hs. now left.
      * intros p c' v i rest' [= <-] H Hv' _. rewrite Hs in H.
        injection H as <- _ _. contradiction.
    + left. split.
      * apply cursorConditions_missing. unfold half_missing. rewrite Hs. now right.
      * intros p c' v i rest' [= <-] H _ Hi'. rewrite Hs in H.
        injection H as _ <- _. contradiction.
    + right. exists c, cursorValue, cursorId, rest.
      split; [reflexivity|]. split; [exact Hs|].
      split; [exact Hv|]. split; [exact Hi|].
      now apply cursorConditions_present with rest.
Qed.

Lemma cursorComparison_holds_iff sortBy (v i : option Z) (p : Post) :
  Sql.holds (cursorComparison sortBy v i) p = true <->
  exists v' i', v = Some v' /\ i = Some i' /\ beyond sortBy v' i' p.
Proof.
  destruct v as [v'|], i as [i'|].
  - rewrite cursorComparison_holds. split.
    + intros H. now exists v', i'.
    + now intros (? & ? & [= <-] & [= <-] & H).
  - split; [|now intros (? & ? & _ & H & _)].
    unfold cursorComparison. now destruct (descending sortBy).
  - split; [|now intros (? & ? & H & _)].
    unfold cursorComparison. now destruct (descending sortBy).
  - split; [|now intros (? & ? & H & _)].
    unfold cursorComparison. now destruct (descending sortBy).
Qed.

(** A row passes the conditions of a call exactly when it passes the
    filters and lies beyond what the cursor decodes to. *)
Lemma where_conditionsOf newDate options (p : Post) :
  Sql.where_ (conditionsOf newDate options) p = true <->
  Sql.where_ (filterConditions options) p = true /\
  beyondCursor newDate (default NEWEST (GetPostsOptions.sortBy options))
    (GetPostsOptions.cursor options) p.
Proof.
  unfold conditionsOf. rewrite where_app, andb_true_iff.
  destruct (cursorConditions_cases newDate
              (default NEWEST (GetPostsOptions.sortBy options))
              (GetPostsOptions.cursor options))
    as [(Hc & Hall) | (c & cv & ci & rest & Hcur & Hs & Hv & Hi & Hc)];
    rewrite Hc.
  - split; intros (H1 & _); split; trivial.
  - unfold Sql.where_ at 2. cbn [forallb]. rewrite andb_true_r.
    rewrite cursorComparison_holds_iff.
    split; intros (H1 & H2); (split; [exact H1|]).
    + intros c' cv' ci' rest' Hcur' Hs' _ _.
      rewrite Hcur in Hcur'. injection Hcur' as <-.
      rewrite Hs in Hs'. injection Hs' as <- <- _. exact H2.
    + exact (H2 c cv ci rest Hcur Hs Hv Hi).
Qed.

(** X21. A call of [getPosts] that returns has fetched the first [n + 1]
    of the rows that are active, pass the filters and lie strictly beyond
    the position its cursor decodes to (the first two [:]-pieces of the
    cursor, parsed), taken in the order of the strategy (key, then id, in
    its direction); [hasMore] tells whether more than [n] rows were
    fetched; the page is the first [n] fetched rows; and [nextCursor],
    present only when [hasMore] is true (and whenever it is and the page is
    not empty), is the key value and the id of the last row of the page. *)
Theorem getPosts_page newDate db options result :
  getPosts newDate db options = Ok result ->
  let sortBy := default NEWEST (GetPostsOptions.sortBy options) in
  let n := default 20%nat (GetPostsOptions.limit options) in
  exists fetched listing,
    fetch newDate db options = Ok fetched /\
    fetched = firstn (n + 1) listing /\
    Sorted (fun r1 r2 => precedes_eq sortBy (Sql.post r1) (Sql.post r2)) listing /\
    Permutation listing
      (filter (fun r => Sql.where_ (conditionsOf newDate options) (Sql.post r))
         (Sql.posts_join_userProfiles db)) /\
    (forall r, In r listing <->
       In r (Sql.posts_join_userProfiles db) /\
       Sql.where_ (filterConditions options) (Sql.post r) = true /\
       beyondCursor newDate sortBy (GetPostsOptions.cursor options) (Sql.post r)) /\
    (forall r, In r listing -> Post.active (Sql.post r) = true) /\
    (GetPostsResult.hasMore result = true <-> (n < List.length fetched)%nat) /\
    map PostWithAuthor.post (GetPostsResult.posts result)
      = map Sql.post (firstn n fetched) /\
    map PostWithAuthor.author (GetPostsResult.posts result)
      = map Sql.author (firstn n fetched) /\
    (forall c, GetPostsResult.nextCursor result = Some c ->
       GetPostsResult.hasMore result = true /\
       exists lastRow,
         nth_error (firstn n fetched) (List.length (firstn n fetched) - 1)
           = Some lastRow /\
         c = keyString sortBy (sortKey sortBy (Sql.post lastRow)) ++ ":"
               ++ JS.string_of_Z (Post.id (Sql.post lastRow))) /\
    (GetPostsResult.hasMore result = true -> (0 < n)%nat ->
     GetPostsResult.nextCursor result <> None).
Proof.
  intros E sortBy n. unfold getPosts in E. fold sortBy n in E.
  destruct (fetch newDate db options) as [fetched|] eqn:F; [|discriminate].
  injection E as <-.
  set (listing :=
         Sql.sort
           (fun r1 r2 => Sql.order_leb (orderByOf sortBy) (Sql.post r1) (Sql.post r2))
           (filter (fun r => Sql.where_ (conditionsOf newDate options) (Sql.post r))
              (Sql.posts_join_userProfiles db))).
  assert (Hf : fetched = firstn (n + 1) listing).
  { unfold fetch in F. apply select_posts_Ok in F. exact F. }
  assert (Hin : forall r, In r listing <->
                  In r (Sql.posts_join_userProfiles db) /\
                  Sql.where_ (filterConditions options) (Sql.post r) = true /\
                  beyondCursor newDate sortBy (GetPostsOptions.cursor options)
                    (Sql.post r)).
  { intros r. unfold listing. rewrite In_sort, filter_In, where_conditionsOf.
    reflexivity. }
  exists fetched, listing.
  split; [reflexivity|]. split; [exact Hf|]. split.
  { eapply Sorted_impl; [|apply sort_sorted].
    - intros a b H. apply order_leb_precedes_eq. exact H.
    - intros a b. apply order_leb_total. }
  split; [apply sort_perm|]. split; [exact Hin|]. split.
  { intros r Hr. apply Hin in Hr as (_ & Hw & _).
    pose proof (where_In _ (Sql.eq_active true) _ Hw (or_introl eq_refl)) as Ha.
    simpl in Ha. now destruct (Post.active (Sql.post r)). }
  cbn [GetPostsResult.hasMore GetPostsResult.posts GetPostsResult.nextCursor].
  split; [apply Nat.ltb_lt|].
  split; [rewrite map_map; reflexivity|].
  split; [rewrite map_map; reflexivity|].
  split.
  - intros c Hc.
    destruct (n <? List.length fetched)%nat eqn:Hm; [|discriminate].
    split; [reflexivity|].
    destruct (0 <? List.length (firstn n fetched))%nat; [|discriminate].
    simpl in Hc.
    destruct (nth_error (firstn n fetched) _) as [lastRow|]; [|discriminate].
    injection Hc as <-. exists lastRow. split; [reflexivity|].
    apply cursorOf_keyString.
  - intros Hm Hn. rewrite Hm.
    assert (Hlen : List.length (firstn n fetched) = n).
    { rewrite length_firstn. apply Nat.ltb_lt in Hm.
      apply Nat.min_l. apply Nat.lt_le_incl. exact Hm. }
    rewrite Hlen. rewrite (proj2 (Nat.ltb_lt 0 n) Hn). simpl.
    destruct (nth_error (firstn n fetched) (n - 1)) eqn:Hnth; [discriminate|].
    apply nth_error_None in Hnth. lia.
Qed.

(** Section 8 of the specification, second page: MOST_SAVED, limit 2,
    cursor ["4:2"]. The rows of the page lie beyond (4, 2). *)
Lemma getPosts_page_witness :
  let options := Examples.options MOST_SAVED (Some "4:2") 2 in
  let row p := Examples.row p 1 "ann" false in
  let result :=
    GetPostsResult.mk
      [row (Examples.post 3 3000 3 0); row (Examples.post 4 4000 2 0)]
      true (Some "2:4") in
  getPosts (fun _ => None) Examples.five options = Ok result /\
  exists fetched,
    fetch (fun _ => None) Examples.five options = Ok fetched /\
    List.length fetched = 3%nat /\
    map PostWithAuthor.post (GetPostsResult.posts result)
      = map Sql.post (firstn 2 fetched) /\
    Forall (fun r => beyond MOST_SAVED 4 2 (Sql.post r)) fetched.
Proof.
  intros options row result.
  assert (E : getPosts (fun _ => None) Examples.five options = Ok result)
    by (vm_compute; reflexivity).
  split; [exact E|].
  destruct (getPosts_page (fun _ => None) Examples.five options result E)
    as (fetched & listing & F & Hf & _ & _ & Hin & _ & _ & Hpage & _).
  exists fetched. split; [exact F|]. split; [|split; [exact Hpage|]].
  - vm_compute in F. injection F as <-. reflexivity.
  - apply Forall_forall. intros r Hr.
    assert (Hl : In r listing) by (rewrite Hf in Hr; eapply In_firstn; exact Hr).
    apply Hin in Hl as (_ & _ & Hb).
    destruct (Hb "4:2" "4" "2" [] eq_refl eq_refl) as (v & i & Hv & Hi & H);
      try discriminate.
    vm_compute in Hv, Hi. injection Hv as <-. injection Hi as <-. exact H.
Defined.
